(** * Data-Transformation-Excel: orchestration core, shallow embedding

    The development follows the Python sources:
    - [PyStr]        : the [str] methods the code relies on
    - [Registry]     : [src/engine/function_registry.py]
    - [Engine]       : [src/engine/execution_engine.py]
    - [Matcher]      : [src/agents/table_matching_agent.py]
    - [Orchestrator] : [src/agents/orchestrator.py]
    - [Matching]     : [run] of [src/agents/table_matching_agent.py]
    - [Validation]   : [src/agents/validation_agent.py]
    - [Planner]      : the fallback plan of [src/agents/transformation_planner.py]

    Python strings are modelled as [string] (bytes of the UTF-8 encoding);
    floats by the exact rational they denote ([Q], always kept reduced). *)

From Stdlib Require Import ZArith QArith Qreduction String Ascii List Bool Lia Lqa.
From Stdlib Require DecimalString.
From stdpp Require Import gmap strings.
Import ListNotations.
Local Open Scope string_scope.
Local Open Scope list_scope.

(* ===================================================================== *)
(** ** Python string methods *)
(* ===================================================================== *)

Module PyStr.

Definition code (c : ascii) : nat := nat_of_ascii c.

(** [str.isspace] on the ASCII range: TAB..CR, FS..US and SPACE. *)
Definition is_space (c : ascii) : bool :=
  let n := code c in
  (((9 <=? n) && (n <=? 13)) || ((28 <=? n) && (n <=? 32)))%nat.

Definition is_digit (c : ascii) : bool :=
  let n := code c in ((48 <=? n) && (n <=? 57))%nat.

Definition is_upper (c : ascii) : bool :=
  let n := code c in ((65 <=? n) && (n <=? 90))%nat.

Definition is_lower (c : ascii) : bool :=
  let n := code c in ((97 <=? n) && (n <=? 122))%nat.

Definition is_alpha (c : ascii) : bool := is_upper c || is_lower c.

Definition to_lower (c : ascii) : ascii :=
  if is_upper c then ascii_of_nat (code c + 32) else c.

Definition to_upper (c : ascii) : ascii :=
  if is_lower c then ascii_of_nat (code c - 32) else c.

Fixpoint map_chars (f : ascii -> ascii) (s : string) : string :=
  match s with
  | EmptyString => EmptyString
  | String c r => String (f c) (map_chars f r)
  end.

(** [s.lower()] and [s.upper()] (ASCII letters; other bytes are kept). *)
Definition lower (s : string) : string := map_chars to_lower s.
Definition upper (s : string) : string := map_chars to_upper s.

(** [s.title()]: a letter is upper-cased when the previous character is
    not a letter, lower-cased otherwise. *)
Fixpoint title_from (prev_alpha : bool) (s : string) : string :=
  match s with
  | EmptyString => EmptyString
  | String c r =>
      String (if prev_alpha then to_lower c else to_upper c)
             (title_from (is_alpha c) r)
  end.
Definition title (s : string) : string := title_from false s.

Fixpoint lstrip (s : string) : string :=
  match s with
  | String c r => if is_space c then lstrip r else s
  | EmptyString => EmptyString
  end.

Fixpoint rstrip (s : string) : string :=
  match s with
  | EmptyString => EmptyString
  | String c r =>
      match rstrip r with
      | EmptyString => if is_space c then EmptyString else String c EmptyString
      | r' => String c r'
      end
  end.

(** [s.strip()] *)
Definition strip (s : string) : string := rstrip (lstrip s).

Definition is_empty (s : string) : bool :=
  match s with EmptyString => true | _ => false end.

Fixpoint starts_with (p s : string) : bool :=
  match p, s with
  | EmptyString, _ => true
  | String a p', String b s' => if Ascii.eqb a b then starts_with p' s' else false
  | String _ _, EmptyString => false
  end.

(** [sub in s] *)
Fixpoint contains (sub s : string) : bool :=
  starts_with sub s ||
  match s with
  | EmptyString => false
  | String _ r => contains sub r
  end.

(** [s.replace(old, new)] for a non-empty [old]: leftmost, non-overlapping
    occurrences.  [skip] counts the characters of the occurrence that is
    being consumed. *)
Fixpoint replace_from (old new : string) (skip : nat) (s : string) : string :=
  match s with
  | EmptyString => EmptyString
  | String c r =>
      match skip with
      | S k => replace_from old new k r
      | O =>
          if starts_with old s
          then String.append new (replace_from old new (String.length old - 1) r)
          else String c (replace_from old new 0 r)
      end
  end.

Definition replace (old new s : string) : string :=
  if is_empty old then s else replace_from old new 0 s.

(** [s.split(sep)] for a non-empty [sep]; [cur] is the field being read,
    in reverse. *)
Fixpoint rev_string (acc s : string) : string :=
  match s with
  | EmptyString => acc
  | String c r => rev_string (String c acc) r
  end.

Fixpoint split_from (sep : string) (skip : nat) (cur : string) (s : string)
  : list string :=
  match s with
  | EmptyString => [rev_string EmptyString cur]
  | String c r =>
      match skip with
      | S k => split_from sep k cur r
      | O =>
          if starts_with sep s
          then rev_string EmptyString cur
               :: split_from sep (String.length sep - 1) EmptyString r
          else split_from sep 0 (String c cur) r
      end
  end.

(** [s.split(sep)]: [None] stands for [ValueError: empty separator]. *)
Definition split (sep s : string) : option (list string) :=
  if is_empty sep then None else Some (split_from sep 0 EmptyString s).

(** [sep.join(parts)] *)
Fixpoint join (sep : string) (parts : list string) : string :=
  match parts with
  | [] => EmptyString
  | [p] => p
  | p :: rest => String.append p (String.append sep (join sep rest))
  end.

Definition ends_with (p s : string) : bool :=
  starts_with (rev_string EmptyString p) (rev_string EmptyString s).

(** [s[1:-1]] *)
Definition slice_1_m1 (s : string) : string :=
  match s with
  | EmptyString => EmptyString
  | String _ r =>
      match rev_string EmptyString r with
      | EmptyString => EmptyString
      | String _ r' => rev_string EmptyString r'
      end
  end.

(** [re.sub(r'\s+', ' ', s)] *)
Fixpoint collapse_spaces (in_run : bool) (s : string) : string :=
  match s with
  | EmptyString => EmptyString
  | String c r =>
      if is_space c
      then (if in_run then collapse_spaces true r
            else String " " (collapse_spaces true r))
      else String c (collapse_spaces false r)
  end.

Definition all_chars (p : ascii -> bool) (s : string) : bool :=
  forallb p (list_ascii_of_string s).

(** Decimal digits to a natural number. *)
Fixpoint digits_value (acc : N) (s : string) : N :=
  match s with
  | EmptyString => acc
  | String c r => digits_value (acc * 10 + N.of_nat (code c - 48)) r
  end.

(** Splits at the first character satisfying [p]. *)
Fixpoint span_until (p : ascii -> bool) (s : string) : string * string :=
  match s with
  | EmptyString => (EmptyString, EmptyString)
  | String c r =>
      if p c then (EmptyString, s)
      else let '(a, b) := span_until p r in (String c a, b)
  end.

(** [float(s)] on decimal literals [[+-]digits[.digits][e[+-]digits]]
    (either digit group may be empty, not both), surrounding whitespace
    ignored.  [None] stands for [ValueError].  The literals [inf], [nan]
    and digit groups with underscores are outside this model. *)
Definition parse_exponent (s : string) : option Z :=
  match s with
  | EmptyString => Some 0%Z
  | String c r =>
      if (Ascii.eqb c "e" || Ascii.eqb c "E")%bool then
        let '(neg, ds) :=
          match r with
          | String "-" r' => (true, r')
          | String "+" r' => (false, r')
          | _ => (false, r)
          end in
        if is_empty ds || negb (all_chars is_digit ds) then None
        else let e := Z.of_N (digits_value 0 ds) in
             Some (if neg then (- e)%Z else e)
      else None
  end.

Definition pow10 (e : Z) : Q :=
  if (0 <=? e)%Z then inject_Z (10 ^ e) else Qinv (inject_Z (10 ^ (- e))).

Definition float (s : string) : option Q :=
  let s := strip s in
  let '(neg, body) :=
    match s with
    | String "-" r => (true, r)
    | String "+" r => (false, r)
    | _ => (false, s)
    end in
  let '(ip, rest) := span_until (fun c => negb (is_digit c)) body in
  let '(fp, rest) :=
    match rest with
    | String "." r => span_until (fun c => negb (is_digit c)) r
    | _ => (EmptyString, rest)
    end in
  if is_empty ip && is_empty fp then None else
  match parse_exponent rest with
  | None => None
  | Some e =>
      let mant := Z.of_N (digits_value (digits_value 0 ip) fp) in
      let scale := (e - Z.of_nat (String.length fp))%Z in
      let q := Qmult (inject_Z mant) (pow10 scale) in
      Some (Qred (if neg then Qopp q else q))
  end.

End PyStr.

(* ===================================================================== *)
(** ** Function Registry ([src/engine/function_registry.py]) *)
(* ===================================================================== *)

Module Registry.

(** Python values that reach the registry: cell contents and results.
    A [datetime] is kept as its microsecond count. *)
#[warnings="-register-all"]
Inductive Value : Type :=
| VNone
| VNaN
| VStr (s : string)
| VFloat (q : Q)
| VInt (z : Z)
| VBool (b : bool)
| VDate (t : Z)
| VDict (d : list (string * Value)).

(** A function either returns or raises. *)
Inductive Res (A : Type) : Type :=
| Ok (a : A)
| Raise (exc : string).
Arguments Ok {A} a.
Arguments Raise {A} exc.

Definition bind {A B} (m : Res A) (k : A -> Res B) : Res B :=
  match m with
  | Ok a => k a
  | Raise e => Raise e
  end.

Notation "'let!' x ':=' m 'in' k" := (bind m (fun x => k))
  (at level 10, x name, m at level 100, k at level 200).

(** The [params] dictionary, with the keys the functions read. *)
Record Params : Type := mkParams {
  p_delimiter : option string;
  p_culture : option string;
  p_handle_single_name : option string;
  p_pattern : option string;
  p_group_index : option Z;
  p_ambiguity_preference : option string;
  p_target_format : option string;
  p_mapping_dict : option (list (string * string));
  p_default : option Value;
  p_fallback_col : option string;
  p_region : option string;
  p_format : option string;
  p_separator : option string;
  p_date2_col : option string
}.

(** [{}] *)
Definition no_params : Params :=
  mkParams None None None None None None None None None None None None None None.

(** Keyword arguments: [row] and [values]. *)
Record Kwargs : Type := mkKwargs {
  kw_row : option (list (string * Value));
  kw_values : option (list Value)
}.

Definition no_kwargs : Kwargs := mkKwargs None None.

(** What [re.search] answers: [re.error], another exception (the
    [OverflowError] of a repeat count that is too large, [RecursionError]),
    no match, or a match with its groups. *)
Inductive ReResult : Type :=
| ReError                                      (* re.error *)
| ReRaise (exc : string)                       (* any other exception *)
| ReNoMatch
| ReMatch (whole : string) (groups : list Value).

(** Library calls the registry delegates to. *)
Record PyLib : Type := mkPyLib {
  repr_other : Value -> string;                 (* str() of a non-string *)
  re_search : string -> string -> ReResult;     (* re.search(pattern, s) *)
  strptime : string -> string -> option Z;      (* None: ValueError *)
  pd_to_datetime : string -> bool -> option Z;  (* None: any exception *)
  strftime : Z -> string -> string;
  phone_parse : string -> string -> option string; (* None: NumberParseException *)
  phone_is_valid : string -> bool;
  phone_format : string -> string -> string
}.

Fixpoint dict_get {A} (k : string) (d : list (string * A)) : option A :=
  match d with
  | [] => None
  | (k', v) :: r => if String.eqb k k' then Some v else dict_get k r
  end.

Definition or_default {A} (o : option A) (d : A) : A :=
  match o with Some a => a | None => d end.

Section WithLibrary.

Variable L : PyLib.

(** [pd.isna(value) or value is None] *)
Definition isna (v : Value) : bool :=
  match v with
  | VNone | VNaN => true
  | _ => false
  end.

(** [str(value)] *)
Definition py_str (v : Value) : string :=
  match v with
  | VStr s => s
  | VNone => "None"
  | VNaN => "nan"
  | VBool true => "True"
  | VBool false => "False"
  | other => repr_other L other
  end.

Definition name_dict (f m l : string) : Value :=
  VDict [("first_name", VStr f); ("middle_name", VStr m); ("last_name", VStr l)].

(** [parts[1:-1]] *)
Definition middle_parts (parts : list string) : list string :=
  removelast (tl parts).

(* ===== STRING FUNCTIONS ===== *)

Definition split_full_name (value : Value) (params : Params) (kw : Kwargs)
  : Res Value :=
  if isna value then Ok (name_dict "" "" "") else
  let value := PyStr.strip (py_str value) in
  if PyStr.is_empty value then Ok (name_dict "" "" "") else
  let delimiter := or_default (p_delimiter params) "auto" in
  let culture := or_default (p_culture params) "western" in
  let handle_single := or_default (p_handle_single_name params) "first_name_only" in
  let delimiter :=
    if String.eqb delimiter "auto"
    then (if PyStr.contains "," value then "," else " ")
    else delimiter in
  match PyStr.split delimiter value with
  | None => Raise "ValueError: empty separator"
  | Some raw =>
      let parts :=
        map PyStr.strip
            (List.filter (fun p => negb (PyStr.is_empty (PyStr.strip p))) raw) in
      match parts with
      | [] => Ok (name_dict "" "" "")
      | [a] =>
          if String.eqb handle_single "last_name_only"
          then Ok (name_dict "" "" a)
          else Ok (name_dict a "" "")
      | [a; b] =>
          if String.eqb culture "eastern"
          then Ok (name_dict b "" a)
          else Ok (name_dict a "" b)
      | a :: _ =>
          let z := List.last parts "" in
          let mid := PyStr.join " " (middle_parts parts) in
          if String.eqb culture "eastern"
          then Ok (name_dict z mid a)
          else Ok (name_dict a mid z)
      end
  end.

Definition regex_extract (value : Value) (params : Params) (kw : Kwargs)
  : Res Value :=
  if isna value then Ok (VStr "") else
  let pattern := or_default (p_pattern params) "" in
  let group_index := or_default (p_group_index params) 0%Z in
  if PyStr.is_empty pattern then Ok (VStr (py_str value)) else
  match re_search L pattern (py_str value) with
  | ReError => Ok (VStr "")
  | ReRaise e => Raise e
  | ReNoMatch => Ok (VStr "")
  | ReMatch whole groups =>
      if (group_index =? 0)%Z then Ok (VStr whole)
      else if (group_index <=? Z.of_nat (length groups))%Z then
        (if (group_index <? 0)%Z then Raise "IndexError: no such group"
         else Ok (nth (Z.to_nat group_index - 1) groups VNone))
      else Ok (VStr "")
  end.

Definition clean_whitespace (value : Value) (params : Params) (kw : Kwargs)
  : Res Value :=
  if isna value then Ok (VStr "") else
  let result := PyStr.strip (py_str value) in
  Ok (VStr (PyStr.collapse_spaces false result)).

Definition uppercase (value : Value) (params : Params) (kw : Kwargs)
  : Res Value :=
  if isna value then Ok (VStr "") else Ok (VStr (PyStr.upper (py_str value))).

Definition lowercase (value : Value) (params : Params) (kw : Kwargs)
  : Res Value :=
  if isna value then Ok (VStr "") else Ok (VStr (PyStr.lower (py_str value))).

Definition titlecase (value : Value) (params : Params) (kw : Kwargs)
  : Res Value :=
  if isna value then Ok (VStr "") else Ok (VStr (PyStr.title (py_str value))).

Definition trim (value : Value) (params : Params) (kw : Kwargs)
  : Res Value :=
  if isna value then Ok (VStr "") else Ok (VStr (PyStr.strip (py_str value))).

Definition concatenate (value : Value) (params : Params) (kw : Kwargs)
  : Res Value :=
  let separator := or_default (p_separator params) " " in
  let values := or_default (kw_values kw) [value] in
  let str_values :=
    map (fun v => PyStr.strip (py_str v))
        (List.filter (fun v => negb (isna v)) values) in
  Ok (VStr (PyStr.join separator str_values)).

(* ===== DATE FUNCTIONS ===== *)

Definition date_formats (preference : string) : list string :=
  if String.eqb preference "US" then
    ["%m/%d/%Y"; "%m-%d-%Y"; "%m/%d/%y";
     "%Y-%m-%d"; "%Y/%m/%d";
     "%d %b %Y"; "%d %B %Y";
     "%b %d, %Y"; "%B %d, %Y"]
  else if String.eqb preference "ISO" then
    ["%Y-%m-%d"; "%Y/%m/%d";
     "%d/%m/%Y"; "%d-%m-%Y";
     "%d %b %Y"; "%d %B %Y"]
  else
    ["%d/%m/%Y"; "%d-%m-%Y"; "%d/%m/%y";
     "%Y-%m-%d"; "%Y/%m/%d";
     "%d %b %Y"; "%d %B %Y";
     "%d-%b-%Y"; "%d-%B-%Y"].

Fixpoint try_formats (s : string) (formats : list string) : option Z :=
  match formats with
  | [] => None
  | fmt :: rest =>
      match strptime L s fmt with
      | Some t => Some t
      | None => try_formats s rest
      end
  end.

(** Returns the parsed [datetime], or [None]. *)
Definition smart_date_parse_opt (value : Value) (params : Params) : option Z :=
  if isna value then None else
  let value_str := PyStr.strip (py_str value) in
  if PyStr.is_empty value_str then None else
  let preference := or_default (p_ambiguity_preference params) "UK" in
  match try_formats value_str (date_formats preference) with
  | Some t => Some t
  | None => pd_to_datetime L value_str (negb (String.eqb preference "US"))
  end.

Definition of_date (o : option Z) : Value :=
  match o with Some t => VDate t | None => VNone end.

Definition smart_date_parse (value : Value) (params : Params) (kw : Kwargs)
  : Res Value :=
  Ok (of_date (smart_date_parse_opt value params)).

(** [(date1 - date2).days] *)
Definition timedelta_days (t1 t2 : Z) : Z := ((t1 - t2) / 86400000000)%Z.

Definition compute_date_diff (value : Value) (params : Params) (kw : Kwargs)
  : Res Value :=
  if isna value then Ok VNone else
  let row := or_default (kw_row kw) [] in
  let date2_col := p_date2_col params in
  match smart_date_parse_opt value params with
  | None => Ok VNone
  | Some date1 =>
      let in_row :=
        match date2_col with
        | Some c => if PyStr.is_empty c then None else dict_get c row
        | None => None
        end in
      let date2 :=
        match in_row with
        | Some cell => Some (smart_date_parse_opt cell params)
        | None =>
            match or_default (kw_values kw) [] with
            | _ :: second :: _ => Some (smart_date_parse_opt second params)
            | _ => None
            end
        end in
      match date2 with
      | None => Ok VNone
      | Some None => Ok VNone
      | Some (Some date2) => Ok (VInt (timedelta_days date1 date2))
      end
  end.

Definition format_date (value : Value) (params : Params) (kw : Kwargs)
  : Res Value :=
  let target_format := or_default (p_target_format params) "%Y-%m-%d" in
  if isna value then Ok (VStr "") else
  match value with
  | VDate t => Ok (VStr (strftime L t target_format))
  | _ =>
      match smart_date_parse_opt value params with
      | Some parsed => Ok (VStr (strftime L parsed target_format))
      | None => Ok (VStr (py_str value))
      end
  end.

(* ===== NUMBER FUNCTIONS ===== *)

Definition currency_symbols : list string :=
  ["$"; "€"; "£"; "¥"; "₹"; "Rs"; "Rs."; "INR"; "USD"; "EUR"].

Definition strip_symbols (s : string) : string :=
  fold_left (fun acc symbol => PyStr.replace symbol "" acc) currency_symbols s.

Definition of_float (o : option Q) : Value :=
  match o with Some q => VFloat q | None => VNone end.

Definition normalize_currency (value : Value) (params : Params) (kw : Kwargs)
  : Res Value :=
  if isna value then Ok VNone else
  let value_str := PyStr.strip (py_str value) in
  if PyStr.is_empty value_str then Ok VNone else
  let value_str := strip_symbols value_str in
  let value_str :=
    PyStr.strip (PyStr.replace " " "" (PyStr.replace "," "" value_str)) in
  let value_str :=
    if PyStr.starts_with "(" value_str && PyStr.ends_with ")" value_str
    then String.append "-" (PyStr.slice_1_m1 value_str)
    else value_str in
  Ok (of_float (PyStr.float value_str)).

(* ===== LOGIC FUNCTIONS ===== *)

Fixpoint lookup_ci (value_str : string) (mapping : list (string * string))
  : option string :=
  match mapping with
  | [] => None
  | (k, v) :: rest =>
      if String.eqb (PyStr.lower k) value_str then Some v
      else lookup_ci value_str rest
  end.

Definition map_values (value : Value) (params : Params) (kw : Kwargs)
  : Res Value :=
  if isna value then Ok (or_default (p_default params) (VStr "")) else
  let mapping := or_default (p_mapping_dict params) [] in
  let default := or_default (p_default params) (VStr (py_str value)) in
  let value_str := PyStr.lower (PyStr.strip (py_str value)) in
  match lookup_ci value_str mapping with
  | Some v => Ok (VStr v)
  | None => Ok default
  end.

Definition conditional_fill (value : Value) (params : Params) (kw : Kwargs)
  : Res Value :=
  if isna value || PyStr.is_empty (PyStr.strip (py_str value)) then
    let by_default := Ok (or_default (p_default params) (VStr "")) in
    match kw_row kw, p_fallback_col params with
    | Some row, Some fallback_col =>
        if PyStr.is_empty fallback_col then by_default else
        match dict_get fallback_col row with
        | Some cell => Ok cell
        | None => by_default
        end
    | _, _ => by_default
    end
  else Ok value.

(* ===== ENRICHMENT FUNCTIONS ===== *)

Definition place (city state country : string) : Value :=
  VDict [("city", VStr city); ("state", VStr state); ("country", VStr country)].

Definition mock_data : list (string * Value) :=
  [("400001", place "Mumbai" "Maharashtra" "India");
   ("110001", place "New Delhi" "Delhi" "India");
   ("560001", place "Bangalore" "Karnataka" "India");
   ("600001", place "Chennai" "Tamil Nadu" "India");
   ("700001", place "Kolkata" "West Bengal" "India");
   ("500001", place "Hyderabad" "Telangana" "India");
   ("380001", place "Ahmedabad" "Gujarat" "India");
   ("411001", place "Pune" "Maharashtra" "India")].

Definition lookup_pincode (value : Value) (params : Params) (kw : Kwargs)
  : Res Value :=
  if isna value then Ok (place "" "" "") else
  let pincode := PyStr.strip (py_str value) in
  Ok (or_default (dict_get pincode mock_data) (place "" "" "India")).

(* ===== VALIDATION FUNCTIONS ===== *)

Definition gstin_result (ok : bool) (state_code pan error : string) : Value :=
  VDict [("is_valid", VBool ok); ("state_code", VStr state_code);
         ("pan", VStr pan); ("error", VStr error)].

Definition upper_or_digit (c : ascii) : bool :=
  PyStr.is_upper c || PyStr.is_digit c.

(** The classes of
    [^[0-9]{2}[A-Z]{5}[0-9]{4}[A-Z]{1}[A-Z0-9]{1}Z[A-Z0-9]{1}$],
    position by position. *)
Definition gstin_classes : list (ascii -> bool) :=
  repeat PyStr.is_digit 2 ++ repeat PyStr.is_upper 5
  ++ repeat PyStr.is_digit 4
  ++ [PyStr.is_upper; upper_or_digit; Ascii.eqb "Z"; upper_or_digit].

Fixpoint match_classes (cs : list (ascii -> bool)) (s : string) : bool :=
  match cs, s with
  | [], EmptyString => true
  | c :: cs', String a s' => c a && match_classes cs' s'
  | _, _ => false
  end.

Definition show_nat (n : nat) : string :=
  DecimalString.NilEmpty.string_of_uint (Nat.to_uint n).

Definition validate_gstin (value : Value) (params : Params) (kw : Kwargs)
  : Res Value :=
  if isna value then Ok (gstin_result false "" "" "Empty value") else
  let gstin := PyStr.upper (PyStr.strip (py_str value)) in
  if negb (String.length gstin =? 15)%nat then
    Ok (gstin_result false "" ""
          (String.concat "" ["Invalid length: "; show_nat (String.length gstin);
                             " (expected 15)"]))
  else if negb (match_classes gstin_classes gstin) then
    Ok (gstin_result false "" "" "Invalid format")
  else
    Ok (gstin_result true (String.substring 0 2 gstin)
                     (String.substring 2 10 gstin) "").

Definition email_result (ok : bool) (normalized error : string) : Value :=
  VDict [("is_valid", VBool ok); ("normalized", VStr normalized);
         ("error", VStr error)].

Definition alnum (c : ascii) : bool := PyStr.is_alpha c || PyStr.is_digit c.

Definition one_of (set : string) (c : ascii) : bool :=
  existsb (Ascii.eqb c) (list_ascii_of_string set).

(** [re.match(r'^[a-zA-Z0-9_.+-]+@[a-zA-Z0-9-]+\.[a-zA-Z0-9-.]+$', s)]
    on a stripped string: no class of the pattern contains the character
    that follows it, so each run is the longest one. *)
Definition email_match (s : string) : bool :=
  let '(local, rest) :=
    PyStr.span_until (fun c => negb (alnum c || one_of "_.+-" c)) s in
  match rest with
  | String "@" r =>
      let '(domain, rest2) :=
        PyStr.span_until (fun c => negb (alnum c || one_of "-" c)) r in
      match rest2 with
      | String "." tail =>
          negb (PyStr.is_empty local) && negb (PyStr.is_empty domain)
          && negb (PyStr.is_empty tail)
          && PyStr.all_chars (fun c => alnum c || one_of "-." c) tail
      | _ => false
      end
  | _ => false
  end.

Definition validate_email (value : Value) (params : Params) (kw : Kwargs)
  : Res Value :=
  if isna value then Ok (email_result false "" "Empty value") else
  let email := PyStr.lower (PyStr.strip (py_str value)) in
  if email_match email then Ok (email_result true email "")
  else Ok (email_result false "" "Invalid email format").

Definition normalize_phone (value : Value) (params : Params) (kw : Kwargs)
  : Res Value :=
  if isna value then Ok (VStr "") else
  let phone_str := PyStr.strip (py_str value) in
  if PyStr.is_empty phone_str then Ok (VStr "") else
  let region := or_default (p_region params) "IN" in
  let output_format := or_default (p_format params) "E.164" in
  match phone_parse L phone_str region with
  | None => Ok (VStr phone_str)
  | Some parsed =>
      if negb (phone_is_valid L parsed) then Ok (VStr phone_str)
      else if String.eqb output_format "NATIONAL"
      then Ok (VStr (phone_format L parsed "NATIONAL"))
      else if String.eqb output_format "INTERNATIONAL"
      then Ok (VStr (phone_format L parsed "INTERNATIONAL"))
      else Ok (VStr (phone_format L parsed "E164"))
  end.

(* ===== THE REGISTRY ===== *)

(** The names [_register_all_functions] registers. *)
Inductive Fn : Type :=
| SPLIT_FULL_NAME | REGEX_EXTRACT | CLEAN_WHITESPACE | SMART_DATE_PARSE
| FORMAT_DATE | NORMALIZE_CURRENCY | MAP_VALUES | CONDITIONAL_FILL
| LOOKUP_PINCODE | VALIDATE_GSTIN | VALIDATE_EMAIL | NORMALIZE_PHONE
| UPPERCASE | LOWERCASE | TITLECASE | TRIM | CONCATENATE | COMPUTE_DATE_DIFF.

Definition registered : list (string * Fn) :=
  [("SPLIT_FULL_NAME", SPLIT_FULL_NAME); ("REGEX_EXTRACT", REGEX_EXTRACT);
   ("CLEAN_WHITESPACE", CLEAN_WHITESPACE); ("SMART_DATE_PARSE", SMART_DATE_PARSE);
   ("FORMAT_DATE", FORMAT_DATE); ("NORMALIZE_CURRENCY", NORMALIZE_CURRENCY);
   ("MAP_VALUES", MAP_VALUES); ("CONDITIONAL_FILL", CONDITIONAL_FILL);
   ("LOOKUP_PINCODE", LOOKUP_PINCODE); ("VALIDATE_GSTIN", VALIDATE_GSTIN);
   ("VALIDATE_EMAIL", VALIDATE_EMAIL); ("NORMALIZE_PHONE", NORMALIZE_PHONE);
   ("UPPERCASE", UPPERCASE); ("LOWERCASE", LOWERCASE);
   ("TITLECASE", TITLECASE); ("TRIM", TRIM);
   ("CONCATENATE", CONCATENATE); ("COMPUTE_DATE_DIFF", COMPUTE_DATE_DIFF)].

Definition fn_name (f : Fn) : string :=
  match f with
  | SPLIT_FULL_NAME => "SPLIT_FULL_NAME" | REGEX_EXTRACT => "REGEX_EXTRACT"
  | CLEAN_WHITESPACE => "CLEAN_WHITESPACE" | SMART_DATE_PARSE => "SMART_DATE_PARSE"
  | FORMAT_DATE => "FORMAT_DATE" | NORMALIZE_CURRENCY => "NORMALIZE_CURRENCY"
  | MAP_VALUES => "MAP_VALUES" | CONDITIONAL_FILL => "CONDITIONAL_FILL"
  | LOOKUP_PINCODE => "LOOKUP_PINCODE" | VALIDATE_GSTIN => "VALIDATE_GSTIN"
  | VALIDATE_EMAIL => "VALIDATE_EMAIL" | NORMALIZE_PHONE => "NORMALIZE_PHONE"
  | UPPERCASE => "UPPERCASE" | LOWERCASE => "LOWERCASE"
  | TITLECASE => "TITLECASE" | TRIM => "TRIM"
  | CONCATENATE => "CONCATENATE" | COMPUTE_DATE_DIFF => "COMPUTE_DATE_DIFF"
  end.

Definition body (f : Fn) : Value -> Params -> Kwargs -> Res Value :=
  match f with
  | SPLIT_FULL_NAME => split_full_name | REGEX_EXTRACT => regex_extract
  | CLEAN_WHITESPACE => clean_whitespace | SMART_DATE_PARSE => smart_date_parse
  | FORMAT_DATE => format_date | NORMALIZE_CURRENCY => normalize_currency
  | MAP_VALUES => map_values | CONDITIONAL_FILL => conditional_fill
  | LOOKUP_PINCODE => lookup_pincode | VALIDATE_GSTIN => validate_gstin
  | VALIDATE_EMAIL => validate_email | NORMALIZE_PHONE => normalize_phone
  | UPPERCASE => uppercase | LOWERCASE => lowercase
  | TITLECASE => titlecase | TRIM => trim
  | CONCATENATE => concatenate | COMPUTE_DATE_DIFF => compute_date_diff
  end.

(** [get(name)]: the table is keyed by [name.upper()]. *)
Definition get (name : string) : option Fn :=
  dict_get (PyStr.upper name) registered.

(** [execute(name, value, params, **kwargs)] *)
Definition execute (name : string) (value : Value) (params : Params)
           (kw : Kwargs) : Res Value :=
  match get name with
  | None => Raise (String.append "Unknown function: " name)
  | Some f => body f value params kw
  end.

End WithLibrary.

(** *** Null and empty input, as the specification documents it *)

(** The inputs of the totality property: [None], [NaN] and [""]. *)
Definition null_or_empty (v : Value) : Prop :=
  v = VNone \/ v = VNaN \/ v = VStr "".

(** The "empty" result of each function: the empty string for the string
    functions, [None] for the parsers, a dictionary with empty fields for
    the name splitter and the pincode lookup, and for the validators a
    dictionary with [is_valid = False], empty components and an error. *)
Definition empty_sentinel (f : Fn) (r : Value) : Prop :=
  match f with
  | SPLIT_FULL_NAME => r = name_dict "" "" ""
  | LOOKUP_PINCODE => r = place "" "" ""
  | VALIDATE_GSTIN => exists e, e <> "" /\ r = gstin_result false "" "" e
  | VALIDATE_EMAIL => exists e, e <> "" /\ r = email_result false "" e
  | SMART_DATE_PARSE | COMPUTE_DATE_DIFF | NORMALIZE_CURRENCY => r = VNone
  | _ => r = VStr ""
  end.

(** The totality property as the specification words it: it names
    neither params nor context, so it holds for all of them. *)
Definition null_input_claim : Prop :=
  forall (L : PyLib) (f : Fn) (v : Value) (p : Params) (kw : Kwargs),
    null_or_empty v ->
    exists r, execute L (fn_name f) v p kw = Ok r /\ empty_sentinel f r.

(** When [regex_extract] lets an exception through: [re.search] raises
    something that is not [re.error], or it finds a match and the group
    asked for has a negative index. *)
Definition regex_raises (L : PyLib) (v : Value) (p : Params) : Prop :=
  let pattern := or_default (p_pattern p) "" in
  isna v = false /\ pattern <> ""
  /\ ((exists e, re_search L pattern (py_str L v) = ReRaise e)
      \/ ((exists whole groups,
              re_search L pattern (py_str L v) = ReMatch whole groups)
          /\ (or_default (p_group_index p) 0 < 0)%Z)).

(** The params and context that leave the result on null input to the
    function itself: no pattern to search, no [default] and no mapping,
    no fallback cell, no [values]. *)
Definition unconfigured (f : Fn) (v : Value) (p : Params) (kw : Kwargs) : Prop :=
  match f with
  | REGEX_EXTRACT => isna v = true \/ or_default (p_pattern p) "" = ""
  | MAP_VALUES => p_default p = None /\ (isna v = true \/ p_mapping_dict p = None)
  | CONDITIONAL_FILL =>
      p_default p = None /\ (kw_row kw = None \/ p_fallback_col p = None)
  | CONCATENATE => kw_values kw = None
  | _ => True
  end.

(** A library none of whose calls succeeds; it instantiates the library
    where a statement does not depend on it. *)
Definition no_library : PyLib :=
  mkPyLib (fun _ => "") (fun _ _ => ReError) (fun _ _ => None)
          (fun _ _ => None) (fun _ _ => "") (fun _ _ => None)
          (fun _ => false) (fun _ _ => "").

(** A library whose [re.search] knows two patterns, both of which match
    the empty string: [x*], without groups, and [(x)?], whose group takes
    no part in the match. *)
Definition empty_matches : PyLib :=
  mkPyLib (fun _ => "")
          (fun pattern _ =>
             if String.eqb pattern "x*" then ReMatch "" []
             else if String.eqb pattern "(x)?" then ReMatch "" [VNone]
             else ReNoMatch)
          (fun _ _ => None) (fun _ _ => None) (fun _ _ => "") (fun _ _ => None)
          (fun _ => false) (fun _ _ => "").

(** [{"pattern": pattern, "group_index": group_index}] and
    [{"default": default}] *)
Definition with_pattern (pattern : string) (group_index : Z) : Params :=
  mkParams None None None (Some pattern) (Some group_index) None None None None
           None None None None None.

Definition with_default (default : Value) : Params :=
  mkParams None None None None None None None None (Some default)
           None None None None None.

(** [{"mapping_dict": mapping}] and [{"fallback_col": fallback_col}] *)
Definition with_mapping (mapping : list (string * string)) : Params :=
  mkParams None None None None None None None (Some mapping) None
           None None None None None.

Definition with_fallback_col (fallback_col : string) : Params :=
  mkParams None None None None None None None None None
           (Some fallback_col) None None None None.

(** *** Parameters and inputs of the properties *)

(** The functions that read their input through [str(value).strip()]
    only. *)
Definition strips_input : list Fn :=
  [SPLIT_FULL_NAME; CLEAN_WHITESPACE; SMART_DATE_PARSE; NORMALIZE_CURRENCY;
   LOOKUP_PINCODE; VALIDATE_GSTIN; VALIDATE_EMAIL; NORMALIZE_PHONE; TRIM;
   CONCATENATE; COMPUTE_DATE_DIFF].

(** [params] with [culture] set. *)
Definition with_culture (culture : string) (p : Params) : Params :=
  mkParams (p_delimiter p) (Some culture) (p_handle_single_name p) (p_pattern p)
           (p_group_index p) (p_ambiguity_preference p) (p_target_format p)
           (p_mapping_dict p) (p_default p) (p_fallback_col p) (p_region p)
           (p_format p) (p_separator p) (p_date2_col p).

(** The eastern reading of a western result: first and last name change
    places when both are present. *)
Definition eastern_of (first middle last : string) : Value :=
  if PyStr.is_empty first || PyStr.is_empty last
  then name_dict first middle last
  else name_dict last middle first.

End Registry.

(* ===================================================================== *)
(** ** Transformation plans ([src/schemas/transformation_plan.py]) *)
(* ===================================================================== *)

Module Plan.

Import Registry.

Inductive Action : Type := Direct | Transform | Skip.

Record ColumnMapping : Type := mkMapping {
  source_col : string;
  target_col : string;
  action : Action;
  transform_id : option string
}.

Record Transformation : Type := mkTransformation {
  t_id : string;
  t_function : string;
  input_col : option string;
  input_cols : option (list string);
  output_col : option string;
  output_cols : option (list string);
  t_params : Params
}.

Record Enrichment : Type := mkEnrichment {
  e_id : string;
  trigger_col : string;
  target_cols : list string;
  api_service : string;
  e_params : Params
}.

Record TransformationPlan : Type := mkPlan {
  confidence_score : Q;
  column_mappings : list ColumnMapping;
  transformations : list Transformation;
  enrichments : list Enrichment;
  plan_warnings : list string;
  requires_user_input : bool;
  user_questions : list string
}.

End Plan.

(* ===================================================================== *)
(** ** Execution Engine ([src/engine/execution_engine.py]) *)
(* ===================================================================== *)

Module Engine.

Import Registry Plan.

(** A pandas [DataFrame]: the length of its index and its columns in
    order.  The labels of a frame the engine is given may repeat; every
    write goes through [set_column], which adds no label twice. *)
Record DataFrame : Type := mkFrame {
  nrows : nat;
  cols : list (string * list Value)
}.

(** [pd.DataFrame()] *)
Definition empty_frame : DataFrame := mkFrame 0 [].

#[export] Instance DataFrame_inhabited : Inhabited DataFrame :=
  populate empty_frame.

(** [df.columns] *)
Definition columns (df : DataFrame) : list string := map fst (cols df).

Definition mem (c : string) (l : list string) : bool :=
  existsb (String.eqb c) l.

(** [c in df.columns] *)
Definition has_column (c : string) (df : DataFrame) : bool :=
  mem c (columns df).

(** [df[c]] for a label that one column carries: a [Series].  (For a
    repeated label [df[c]] is a [DataFrame]; phase 3 of the engine raises
    on it, see [assign], and phases 1 and 2 are modelled for frames with
    distinct labels.) *)
Definition column (c : string) (df : DataFrame) : list Value :=
  or_default (dict_get c (cols df)) [].

(** A label that more than one column of [df] carries. *)
Definition repeated (c : string) (df : DataFrame) : bool :=
  (1 <? length (List.filter (String.eqb c) (columns df)))%nat.

Fixpoint assoc_set {A} (k : string) (v : A) (d : list (string * A))
  : list (string * A) :=
  match d with
  | [] => [(k, v)]
  | (k', v') :: r =>
      if String.eqb k k' then (k, v) :: r else (k', v') :: assoc_set k v r
  end.

(** [df[c] = series]: replaces the column in place or appends it; a frame
    that has neither index nor columns takes the index of the series. *)
Definition set_column (c : string) (series : list Value) (df : DataFrame)
  : DataFrame :=
  mkFrame (match cols df, nrows df with
           | [], O => length series
           | _, n => n
           end)
          (assoc_set c series (cols df)).

(** [df.empty] *)
Definition empty (df : DataFrame) : bool :=
  (nrows df =? 0)%nat || match cols df with [] => true | _ => false end.

(** The row at position [i], as [df.apply(..., axis=1)] passes it. *)
Definition row_at (df : DataFrame) (i : nat) : list (string * Value) :=
  map (fun '(c, vs) => (c, nth i vs VNone)) (cols df).

Definition rows (df : DataFrame) : list (list (string * Value)) :=
  map (row_at df) (seq 0 (nrows df)).

Fixpoint map_res {A B} (f : A -> Res B) (l : list A) : Res (list B) :=
  match l with
  | [] => Ok []
  | a :: r =>
      match f a with
      | Raise e => Raise e
      | Ok b =>
          match map_res f r with
          | Raise e => Raise e
          | Ok bs => Ok (b :: bs)
          end
      end
  end.

(** Truth value of an optional string / list field. *)
Definition truthy (o : option string) : option string :=
  match o with
  | Some s => if PyStr.is_empty s then None else Some s
  | None => None
  end.

Definition truthy_list (o : option (list string)) : option (list string) :=
  match o with
  | Some (c :: r) => Some (c :: r)
  | _ => None
  end.

Definition dict_functions : list string :=
  ["SPLIT_FULL_NAME"; "VALIDATE_GSTIN"; "VALIDATE_EMAIL"; "LOOKUP_PINCODE"].

(** [x.get(col, "") if isinstance(x, dict) else ""] *)
Definition dict_field (col : string) (x : Value) : Value :=
  match x with
  | VDict d => or_default (dict_get col d) (VStr "")
  | _ => VStr ""
  end.

(** [list(x.values())[0] if isinstance(x, dict) else x] *)
Definition first_value (x : Value) : Res Value :=
  match x with
  | VDict [] => Raise "IndexError: list index out of range"
  | VDict ((_, v) :: _) => Ok v
  | _ => Ok x
  end.

(** [x.get(col_lower, x.get(col, "")) if isinstance(x, dict) else ""] *)
Definition enrich_field (col : string) (x : Value) : Value :=
  match x with
  | VDict d =>
      or_default (dict_get (PyStr.lower col) d)
                 (or_default (dict_get col d) (VStr ""))
  | _ => VStr ""
  end.

(** [[row[c] for c in input_cols if c in row]] *)
Definition pick (input_cols : list string) (row : list (string * Value))
  : list Value :=
  flat_map (fun c => match dict_get c row with Some v => [v] | None => [] end)
           input_cols.

Section WithLibrary.

Variable L : PyLib.

(** The [elif transform.input_cols:] branch: the function is applied
    row by row, with [value = None]. *)
Definition multi_column (df : DataFrame) (transform : Transformation)
  : Res DataFrame :=
  match truthy_list (input_cols transform), truthy (output_col transform) with
  | Some ins, Some out =>
      let! series :=
        map_res (fun row =>
                   execute L (t_function transform) VNone (t_params transform)
                           (mkKwargs (Some row) (Some (pick ins row))))
                (rows df) in
      Ok (set_column out series df)
  | _, _ => Ok df
  end.

(** The effect of [_apply_single_transformation] on the frame it is
    given (it assigns columns of that frame in place). *)
Definition _apply_single_transformation (df : DataFrame) (transform : Transformation)
  : Res DataFrame :=
  let func_name := t_function transform in
  let params := t_params transform in
  match truthy (input_col transform) with
  | Some input_col =>
      if has_column input_col df then
        if mem func_name dict_functions then
          let! results :=
            map_res (fun x => execute L func_name x params no_kwargs)
                    (column input_col df) in
          match truthy_list (output_cols transform) with
          | Some out =>
              Ok (fold_left
                    (fun df col => set_column col (map (dict_field col) results) df)
                    out df)
          | None =>
              match truthy (output_col transform) with
              | Some out =>
                  let! firsts := map_res first_value results in
                  Ok (set_column out firsts df)
              | None => Ok df
              end
          end
        else
          let output_col := or_default (truthy (output_col transform)) input_col in
          if String.eqb func_name "CONDITIONAL_FILL" then
            let! series :=
              map_res (fun row =>
                         execute L func_name
                                 (or_default (dict_get input_col row) VNone)
                                 params (mkKwargs (Some row) None))
                      (rows df) in
            Ok (set_column output_col series df)
          else
            let! series :=
              map_res (fun x => execute L func_name x params no_kwargs)
                      (column input_col df) in
            Ok (set_column output_col series df)
      else
        multi_column df transform
  | None => multi_column df transform
  end.

Definition service_function (api_service : string) : string :=
  if String.eqb api_service "postal_code_lookup" then "LOOKUP_PINCODE"
  else if String.eqb api_service "pincode_lookup" then "LOOKUP_PINCODE"
  else PyStr.upper api_service.

Definition _apply_single_enrichment (df : DataFrame) (enrichment : Enrichment)
  : Res DataFrame :=
  let trigger_col := trigger_col enrichment in
  if negb (has_column trigger_col df) then Ok df else
  let func_name := service_function (api_service enrichment) in
  let params := e_params enrichment in
  let! results :=
    map_res (fun x => execute L func_name x params no_kwargs)
            (column trigger_col df) in
  Ok (fold_left
        (fun df col => set_column col (map (enrich_field col) results) df)
        (target_cols enrichment) df).

(** *** The engine's objects

    Frames live in a store and are named by their address, so that the
    caller's frame, its copy and the projected frame are told apart. *)
Record State : Type := mkState {
  frames : gmap nat DataFrame;
  warnings : list string
}.

Definition frame_at (l : nat) (st : State) : DataFrame := frames st !!! l.

Definition write_frame (l : nat) (df : DataFrame) (st : State) : State :=
  mkState (<[l := df]> (frames st)) (warnings st).

Definition warn (w : string) (st : State) : State :=
  mkState (frames st) (warnings st ++ [w]).

(** A new object, at an address no frame occupies. *)
Definition alloc (df : DataFrame) (st : State) : nat * State :=
  let l := fresh (dom (frames st)) in (l, write_frame l df st).

(** One turn of the loop of [_apply_transformations]: the frame at [l]
    is updated in place, or the failure is recorded. *)
Definition transformation_step (l : nat) (st : State) (transform : Transformation)
  : State :=
  match _apply_single_transformation (frame_at l st) transform with
  | Ok df => write_frame l df st
  | Raise e =>
      warn (String.concat "" ["Transformation "; t_id transform; " failed: "; e]) st
  end.

Definition _apply_transformations (l : nat) (plan : TransformationPlan)
           (st : State) : State :=
  fold_left (transformation_step l) (transformations plan) st.

Definition enrichment_step (l : nat) (st : State) (enrichment : Enrichment)
  : State :=
  match _apply_single_enrichment (frame_at l st) enrichment with
  | Ok df => write_frame l df st
  | Raise e =>
      warn (String.concat "" ["Enrichment "; e_id enrichment; " failed: "; e]) st
  end.

Definition _apply_enrichments (l : nat) (plan : TransformationPlan)
           (st : State) : State :=
  fold_left (enrichment_step l) (enrichments plan) st.

End WithLibrary.

(** [target_df[target] = df[c]] for a label [c] of [df].  When the label
    is repeated the right-hand side is a [DataFrame] with a column for
    each occurrence, and the assignment raises [ValueError]. *)
Definition assign (target c : string) (df target_df : DataFrame) : Res DataFrame :=
  if repeated c df
  then Raise "ValueError: Cannot set a DataFrame with multiple columns to the single column"
  else Ok (set_column target (column c df) target_df).

(** One turn of the mapping loop of [_apply_column_mappings]: what it
    assigns in [target_df], reading from [df]. *)
Definition mapping_step (df : DataFrame) (target_df : DataFrame)
           (mapping : ColumnMapping) : Res DataFrame :=
  let source_col := source_col mapping in
  let target_col := target_col mapping in
  match action mapping with
  | Skip => Ok target_df
  | Direct =>
      if has_column source_col df
      then assign target_col source_col df target_df
      else if has_column target_col df
      then assign target_col target_col df target_df
      else Ok target_df
  | Transform =>
      if has_column target_col df
      then assign target_col target_col df target_df
      else if has_column source_col df
      then assign target_col source_col df target_df
      else Ok target_df
  end.

(** One turn of the loop over [df.columns] that keeps enrichment output. *)
Definition enrichment_column_step (df : DataFrame) (plan : TransformationPlan)
           (target_df : DataFrame) (col : string) : Res DataFrame :=
  let mapping_targets := map target_col (column_mappings plan) in
  if negb (mem col mapping_targets) && negb (has_column col target_df)
     && existsb (fun enrichment => mem col (target_cols enrichment))
                (enrichments plan)
  then assign col col df target_df
  else Ok target_df.

(** A loop whose body may raise. *)
Fixpoint fold_res {A B} (f : A -> B -> Res A) (l : list B) (a : A) : Res A :=
  match l with
  | [] => Ok a
  | b :: rest => let! a := f a b in fold_res f rest a
  end.

(** The contents of [target_df] when [_apply_column_mappings] reaches its
    [return], or the exception of the assignment that raised. *)
Definition projection (df : DataFrame) (plan : TransformationPlan) : Res DataFrame :=
  let! target_df := fold_res (mapping_step df) (column_mappings plan) empty_frame in
  fold_res (enrichment_column_step df plan) (columns df) target_df.

(** [_apply_column_mappings]: [target_df] is a new object; the result is
    [target_df if not target_df.empty else df].  When an assignment
    raises, nothing is returned and [target_df] is lost. *)
Definition _apply_column_mappings (l : nat) (plan : TransformationPlan)
           (st : State) : Res nat * State :=
  match projection (frame_at l st) plan with
  | Raise e => (Raise e, st)
  | Ok target_df =>
      let '(target, st') := alloc target_df st in
      (Ok (if empty (frame_at target st') then l else target), st')
  end.

(** [execute(df, plan)]: [l] is the address of the caller's frame.  The
    result is the address of the transformed frame, or the exception of
    phase 3, which no [try] of the engine catches; [self.errors] stays
    empty. *)
Definition execute (L : PyLib) (l : nat) (plan : TransformationPlan)
           (st : State) : Res nat * State :=
  let st := mkState (frames st) [] in
  let '(result_df, st) := alloc (frame_at l st) st in
  let st := _apply_transformations L result_df plan st in
  let st := _apply_enrichments L result_df plan st in
  _apply_column_mappings result_df plan st.

(** *** The engine as a function of the caller's frame *)

(** What a transformation may assign. *)
Definition written_by (transform : Transformation) : list string :=
  or_default (truthy_list (output_cols transform)) []
  ++ match truthy (output_col transform), truthy (input_col transform) with
     | Some out, _ => [out]
     | None, Some inp => [inp]
     | None, None => []
     end.

(** The columns phases 1 and 2 may assign. *)
Definition written (plan : TransformationPlan) : list string :=
  flat_map written_by (transformations plan)
  ++ flat_map target_cols (enrichments plan).

Definition keep_on_raise (df : DataFrame) (r : Res DataFrame) : DataFrame :=
  match r with Ok df' => df' | Raise _ => df end.

(** The frame phases 1 and 2 leave behind. *)
Definition working (L : PyLib) (df : DataFrame) (plan : TransformationPlan)
  : DataFrame :=
  let df :=
    fold_left (fun df t => keep_on_raise df (_apply_single_transformation L df t))
              (transformations plan) df in
  fold_left (fun df e => keep_on_raise df (_apply_single_enrichment L df e))
            (enrichments plan) df.

(** Column [c] is in [df'] what it is in [df]. *)
Definition untouched (c : string) (df df' : DataFrame) : Prop :=
  column c df' = column c df /\ has_column c df' = has_column c df.

(** No label of [df] is repeated. *)
Definition distinct_labels (df : DataFrame) : Prop := NoDup (columns df).

(** What the loops of phase 3 leave in [target_df] when no assignment
    raises. *)
Definition mapped (df : DataFrame) (target_df : DataFrame)
           (mapping : ColumnMapping) : DataFrame :=
  let source_col := source_col mapping in
  let target_col := target_col mapping in
  match action mapping with
  | Skip => target_df
  | Direct =>
      if has_column source_col df
      then set_column target_col (column source_col df) target_df
      else if has_column target_col df
      then set_column target_col (column target_col df) target_df
      else target_df
  | Transform =>
      if has_column target_col df
      then set_column target_col (column target_col df) target_df
      else if has_column source_col df
      then set_column target_col (column source_col df) target_df
      else target_df
  end.

Definition kept (df : DataFrame) (plan : TransformationPlan)
           (target_df : DataFrame) (col : string) : DataFrame :=
  let mapping_targets := map target_col (column_mappings plan) in
  if negb (mem col mapping_targets) && negb (has_column col target_df)
     && existsb (fun enrichment => mem col (target_cols enrichment))
                (enrichments plan)
  then set_column col (column col df) target_df
  else target_df.

Definition projected (df : DataFrame) (plan : TransformationPlan) : DataFrame :=
  let target_df := fold_left (mapped df) (column_mappings plan) empty_frame in
  fold_left (kept df plan) (columns df) target_df.

(** The frame [execute] returns for a caller's frame with distinct
    labels, as a function of that frame. *)
Definition result_frame (L : PyLib) (df : DataFrame) (plan : TransformationPlan)
  : DataFrame :=
  let df := working L df plan in
  let target_df := projected df plan in
  if empty target_df then df else target_df.

(** Every column has one value per row. *)
Definition well_formed (df : DataFrame) : Prop :=
  Forall (fun c => length (snd c) = nrows df) (cols df).

(** [df'] is well formed and has the rows of [df]. *)
Definition rectangular (df df' : DataFrame) : Prop :=
  well_formed df' /\ nrows df' = nrows df.

(** The projected frame is still without index, or has the rows of [df]. *)
Definition sized (df target_df : DataFrame) : Prop :=
  (cols target_df = [] /\ nrows target_df = 0) \/ nrows target_df = nrows df.

(** *** Column-mapping completeness, as the specification words it *)

(** The frame the engine hands back for the frame at [l], or the
    exception it raises. *)
Definition output (L : PyLib) (l : nat) (plan : TransformationPlan) (st : State)
  : Res DataFrame :=
  let r := execute L l plan st in
  match fst r with
  | Ok result => Ok (frame_at result (snd r))
  | Raise e => Raise e
  end.

(** Every [direct] mapping whose source column exists in the input yields
    the target column, with the values of the source column of the input. *)
Definition direct_claim (L : PyLib) : Prop :=
  forall l plan st df m,
    frames st !! l = Some df ->
    In m (column_mappings plan) -> action m = Direct ->
    has_column (source_col m) df = true ->
    exists out,
      output L l plan st = Ok out
      /\ has_column (target_col m) out = true
      /\ column (target_col m) out = column (source_col m) df.

(** Every [skip] mapping yields no column named after its target. *)
Definition skip_claim (L : PyLib) : Prop :=
  forall l plan st df m,
    frames st !! l = Some df ->
    In m (column_mappings plan) -> action m = Skip ->
    exists out,
      output L l plan st = Ok out /\ has_column (target_col m) out = false.

(** A store whose only frame, at address 0, is the caller's. *)
Definition store_of (df : DataFrame) : State := mkState {[0 := df]} [].

(** A one-row table, and two plans for it: one upper-cases column
    [name] in place and copies it, the other skips the only column. *)
Definition one_name : DataFrame := mkFrame 1 [("name", [VStr "ann"])].

Definition upper_then_copy : TransformationPlan :=
  mkPlan (9 # 10) [mkMapping "name" "Name" Direct None]
         [mkTransformation "tf_01" "UPPERCASE" (Some "name") None None None no_params]
         [] [] false [].

Definition skip_only : TransformationPlan :=
  mkPlan (9 # 10) [mkMapping "name" "name" Skip None] [] [] [] false [].

(** A table two of whose columns have the label [id], and a plan that
    copies [id] and does nothing else. *)
Definition twice_id : DataFrame :=
  mkFrame 1 [("id", [VStr "1"]); ("id", [VStr "2"])].

Definition copy_id : TransformationPlan :=
  mkPlan (9 # 10) [mkMapping "id" "customer_id" Direct None] [] [] [] false [].

(** A plan whose mappings copy, skip and copy. *)
Definition two_columns : DataFrame :=
  mkFrame 2 [("id", [VStr "1"; VStr "2"]); ("note", [VStr "a"; VStr "b"])].

Definition copy_and_skip : TransformationPlan :=
  mkPlan (9 # 10)
         [mkMapping "id" "customer_id" Direct None;
          mkMapping "note" "remarks" Skip None]
         [mkTransformation "tf_01" "TRIM" (Some "note") None (Some "note_clean") None
                           no_params]
         [] [] false [].

End Engine.

(* ===================================================================== *)
(** ** Table Matcher ([src/agents/table_matching_agent.py]) *)
(* ===================================================================== *)

Module Matcher.

Import Registry.

(** [TargetColumn] and [TargetSchema] of [src/schemas/target_schema.py]:
    the fields the matcher reads. *)
Record TargetColumn : Type := mkColumn {
  name : string;
  data_type : string;
  required : bool;
  common_source_names : list string
}.

Record TargetSchema : Type := mkSchema {
  schema_name : string;
  columns : list TargetColumn;
  required_columns : list string
}.

Record DetectedTable : Type := mkTable {
  table_id : string;
  column_names : list string;
  sample_values : list (string * list string)
}.

Record TableMatch : Type := mkMatch {
  m_table_id : string;
  match_score : Q;
  matched_columns : list (string * string);
  unmatched_source_cols : list string;
  unmatched_target_cols : list string
}.

(** [GENERIC_CUSTOMER_SCHEMA] of [src/schemas/target_schema.py]. *)
Definition GENERIC_CUSTOMER_SCHEMA : TargetSchema :=
  mkSchema "Generic_Customer"
    [mkColumn "first_name" "string" true
       ["fname"; "first"; "first_name"; "firstname"; "name"; "cust_name";
        "customer_name"];
     mkColumn "last_name" "string" false
       ["lname"; "last"; "last_name"; "lastname"; "surname"];
     mkColumn "email" "email" false
       ["email"; "email_id"; "mail"; "e-mail"; "emailid"];
     mkColumn "phone" "phone" false
       ["phone"; "mobile"; "contact"; "mobile_no"; "phone_no"; "mob"; "cell"];
     mkColumn "address" "string" false
       ["address"; "addr"; "street"; "location"; "address1"];
     mkColumn "city" "string" false ["city"; "town"; "district"];
     mkColumn "state" "string" false ["state"; "province"; "region"];
     mkColumn "pincode" "string" false
       ["pincode"; "pin"; "zip"; "postal_code"; "zipcode"];
     mkColumn "country" "string" false ["country"; "nation"];
     mkColumn "gstin" "string" false
       ["gstin"; "gst"; "gst_no"; "gstno"; "gst_number"]]
    ["first_name"].

(** Library calls: [SequenceMatcher(None, a, b).ratio()] and the three
    regular-expression tests of [_infer_semantic_type]. *)
Record MatchLib : Type := mkMatchLib {
  ratio : string -> string -> Q;
  is_email : string -> bool;
  is_phone : string -> bool;
  has_date : string -> bool
}.

Definition HIGH_MATCH_THRESHOLD : Q := 7 # 10.
Definition MODERATE_MATCH_THRESHOLD : Q := 4 # 10.

Definition Qmax (a b : Q) : Q := if Qle_bool a b then b else a.
Definition Qgtb (a b : Q) : bool := negb (Qle_bool a b).

Fixpoint filter_chars (p : ascii -> bool) (s : string) : string :=
  match s with
  | EmptyString => EmptyString
  | String c r => if p c then String c (filter_chars p r) else filter_chars p r
  end.

(** [_normalize_column_name]: lower-case, then drop what is not [a-z0-9]. *)
Definition _normalize_column_name (name : string) : string :=
  filter_chars (fun c => PyStr.is_lower c || PyStr.is_digit c) (PyStr.lower name).

(** [re.split(r'[_\s\-\.]+', s)] *)
Definition is_separator (c : ascii) : bool :=
  PyStr.is_space c || Ascii.eqb c "_" || Ascii.eqb c "-" || Ascii.eqb c ".".

Fixpoint split_runs (in_run : bool) (cur : string) (s : string) : list string :=
  match s with
  | EmptyString => [PyStr.rev_string EmptyString cur]
  | String c r =>
      if is_separator c
      then (if in_run then split_runs true cur r
            else PyStr.rev_string EmptyString cur :: split_runs true EmptyString r)
      else split_runs false (String c cur) r
  end.

(** [_extract_keywords]: the name is lower-cased before anything else, so
    the camelCase pass finds no capital and leaves each word whole. *)
Definition _extract_keywords (name : string) : list string :=
  map PyStr.lower
      (List.filter (fun w => (1 <? String.length w)%nat)
              (split_runs false EmptyString (PyStr.lower name))).

Definition compatible_groups : list (list string) :=
  [["string"; "name"; "first_name"; "last_name"; "full_name"; "address";
    "city"; "state"; "country"];
   ["integer"; "float"; "number"; "currency"; "quantity"];
   ["phone"; "phone_number"; "mobile"];
   ["email"; "email_address"];
   ["date"; "datetime"; "timestamp"]].

Definition mem (x : string) (l : list string) : bool := existsb (String.eqb x) l.

Definition _types_compatible (source_type target_type : string) : bool :=
  existsb (fun group => mem source_type group && mem target_type group)
          compatible_groups.

Definition count {A} (p : A -> bool) (l : list A) : Z :=
  Z.of_nat (length (List.filter p l)).

Section WithLibrary.

Variable M : MatchLib.

Definition numeric (v : string) : bool :=
  match PyStr.float (PyStr.replace "₹" "" (PyStr.replace "$" ""
                       (PyStr.replace "," "" v))) with
  | Some _ => true
  | None => false
  end.

(** [count / n >= threshold] with [threshold = 0.5] *)
Definition at_least_half (count n : Z) : bool := (n <=? 2 * count)%Z.

Definition _infer_semantic_type (sample_values : list string) : string :=
  match sample_values with
  | [] => "string"
  | _ =>
      let n := Z.of_nat (length sample_values) in
      let email_count := count (is_email M) sample_values in
      let phone_count :=
        count (fun v => is_phone M (filter_chars (fun c => negb (PyStr.is_space c)) v))
              sample_values in
      let date_count := count (has_date M) sample_values in
      if at_least_half email_count n then "email"
      else if at_least_half phone_count n then "phone"
      else if at_least_half date_count n then "date"
      else if at_least_half (count numeric sample_values) n then
        (if existsb (PyStr.contains ".") sample_values then "float" else "integer")
      else "string"
  end.

(** The loop over [common_source_names]: [inl] is the early
    [return 0.95], [inr] the score after the loop. *)
Fixpoint common_names_loop (source_norm : string) (common : list string)
         (score : Q) : Q + Q :=
  match common with
  | [] => inr score
  | common_name :: rest =>
      let common_norm := _normalize_column_name common_name in
      if String.eqb source_norm common_norm then inl (95 # 100)
      else
        let score :=
          if PyStr.contains common_norm source_norm
             || PyStr.contains source_norm common_norm
          then Qmax score (8 # 10) else score in
        common_names_loop source_norm rest score
  end.

Definition keyword_set (name : string) : gset string :=
  list_to_set (_extract_keywords name).

Definition _calculate_column_match_score
           (source_col target_col : string) (common_source_names : list string)
           (target_type : string) (sample_values : list string) : Q :=
  let source_norm := _normalize_column_name source_col in
  let target_norm := _normalize_column_name target_col in
  if String.eqb source_norm target_norm then 1%Q else
  match common_names_loop source_norm common_source_names 0%Q with
  | inl score => score
  | inr score =>
      let similarity := ratio M source_norm target_norm in
      let score := Qmax score (similarity * (9 # 10))%Q in
      let score :=
        match sample_values with
        | [] => score
        | _ =>
            let inferred_type := _infer_semantic_type sample_values in
            if String.eqb inferred_type target_type then Qmax score (7 # 10)
            else if _types_compatible inferred_type target_type
            then Qmax score (5 # 10)
            else score
        end in
      let source_keywords := keyword_set source_col in
      let target_keywords := keyword_set target_col in
      let common := source_keywords ∩ target_keywords in
      if bool_decide (common = ∅) then score
      else
        let keyword_overlap :=
          (inject_Z (Z.of_nat (size common))
           / inject_Z (Z.of_nat (Nat.max (size source_keywords)
                                         (size target_keywords))))%Q in
        Qmax score ((6 # 10) * keyword_overlap + (3 # 10))%Q
  end.

(** [{col.name: col for col in target_schema.columns}] *)
Definition target_dict (schema : TargetSchema) : list (string * TargetColumn) :=
  fold_left (fun d col => Engine.assoc_set (name col) col d) (columns schema) [].

(** One turn of the inner loop over [target_cols.items()]. *)
Definition target_step (table : DetectedTable) (source_col : string)
           (target_matched_set : gset string)
           (best : option string * Q) (target : string * TargetColumn)
  : option string * Q :=
  let '(best_match, best_score) := best in
  let '(target_col_name, target_col) := target in
  if bool_decide (target_col_name ∈ target_matched_set)
  then (best_match, best_score)
  else
    let score :=
      _calculate_column_match_score
        source_col target_col_name
        (common_source_names target_col) (data_type target_col)
        (or_default (dict_get source_col (sample_values table)) []) in
    if Qgtb score best_score
    then (Some target_col_name, score)
    else (best_match, best_score).

Definition best_target (table : DetectedTable) (source_col : string)
           (target_cols : list (string * TargetColumn))
           (target_matched_set : gset string) : option string * Q :=
  fold_left (target_step table source_col target_matched_set)
            target_cols (None, 0%Q).

(** The state of the first pass. *)
Record Pass : Type := mkPass {
  matched : list (string * string);
  source_matched_set : gset string;
  target_matched_set : gset string
}.

Definition pass_step (table : DetectedTable)
           (target_cols : list (string * TargetColumn))
           (st : Pass) (source_col : string) : Pass :=
  match best_target table source_col target_cols (target_matched_set st) with
  | (Some best_match, best_score) =>
      if negb (PyStr.is_empty best_match)
         && Qle_bool MODERATE_MATCH_THRESHOLD best_score
      then mkPass (matched st ++ [(source_col, best_match)])
                  ({[source_col]} ∪ source_matched_set st)
                  ({[best_match]} ∪ target_matched_set st)
      else st
  | (None, _) => st
  end.

Definition first_pass (table : DetectedTable) (schema : TargetSchema) : Pass :=
  fold_left (pass_step table (target_dict schema)) (column_names table)
            (mkPass [] ∅ ∅).

(** [a / b if b > 0 else 1.0] *)
Definition ratio_or_one (a b : Z) : Q :=
  if (0 <? b)%Z then (inject_Z a / inject_Z b)%Q else 1%Q.

Definition required_matched (schema : TargetSchema) (claimed : gset string) : Z :=
  count (fun col => required col && bool_decide (name col ∈ claimed))
        (columns schema).

Definition required_score (table : DetectedTable) (schema : TargetSchema) : Q :=
  let st := first_pass table schema in
  ratio_or_one (required_matched schema (target_matched_set st))
               (Z.of_nat (length (required_columns schema))).

Definition optional_score (table : DetectedTable) (schema : TargetSchema) : Q :=
  let st := first_pass table schema in
  let total_target := Z.of_nat (length (columns schema)) in
  let matched_count := Z.of_nat (length (matched st)) in
  let required_matched := required_matched schema (target_matched_set st) in
  let required_total := Z.of_nat (length (required_columns schema)) in
  let optional_matched_count := (matched_count - required_matched)%Z in
  let optional_total := (total_target - required_total)%Z in
  ratio_or_one optional_matched_count optional_total.

Definition _match_table_to_schema (table : DetectedTable) (schema : TargetSchema)
  : TableMatch :=
  let st := first_pass table schema in
  let unmatched_source :=
    List.filter (fun c => negb (bool_decide (c ∈ source_matched_set st)))
           (column_names table) in
  let unmatched_target :=
    map name
        (List.filter (fun col => negb (bool_decide (name col ∈ target_matched_set st))
                            && required col)
                (columns schema)) in
  let required_weight := (6 # 10)%Q in
  let optional_weight := (4 # 10)%Q in
  mkMatch (table_id table)
          (required_weight * required_score table schema
           + optional_weight * optional_score table schema)%Q
          (matched st) unmatched_source unmatched_target.

End WithLibrary.

(** *** The score as the specification words it *)

(** The target columns a table has claimed, split by the [required] flag. *)
Definition claimed_with (flag : bool) (schema : TargetSchema)
           (claimed : gset string) : Z :=
  count (fun col => Bool.eqb (required col) flag
                    && bool_decide (name col ∈ claimed))
        (columns schema).

Definition total_with (flag : bool) (schema : TargetSchema) : Z :=
  count (fun col => Bool.eqb (required col) flag) (columns schema).

(** [0.6 x (required matched / total required)
     + 0.4 x (optional matched / total optional)], each ratio being 1
    when its denominator is zero. *)
Definition spec_score (schema : TargetSchema) (claimed : gset string) : Q :=
  ((6 # 10) * ratio_or_one (claimed_with true schema claimed) (total_with true schema)
   + (4 # 10) * ratio_or_one (claimed_with false schema claimed)
                             (total_with false schema))%Q.

(** The score of one candidate, as [best_target] computes it. *)
Definition score_of (M : MatchLib) (table : DetectedTable) (source_col : string)
           (target : string * TargetColumn) : Q :=
  _calculate_column_match_score M source_col (fst target)
    (common_source_names (snd target)) (data_type (snd target))
    (or_default (dict_get source_col (sample_values table)) []).

(** Every required column whose name is among [sources] is claimed. *)
Definition covered (schema : TargetSchema) (claimed : gset string)
           (sources : list string) : Prop :=
  forall c, In c (columns schema) -> required c = true ->
            In (name c) sources -> name c ∈ claimed.

(** No two target columns have the same normalised name. *)
Definition distinct_when_normalized (schema : TargetSchema) : Prop :=
  forall c1 c2, In c1 (columns schema) -> In c2 (columns schema) ->
                _normalize_column_name (name c1) = _normalize_column_name (name c2) ->
                name c1 = name c2.

(** The [required_columns] list has one entry per column flagged
    [required]. *)
Definition consistent (schema : TargetSchema) : Prop :=
  Z.of_nat (length (required_columns schema)) = total_with true schema.

(** The column names of the table include every required target column. *)
Definition has_required_names (table : DetectedTable) (schema : TargetSchema) : Prop :=
  forall c, In c (columns schema) -> required c = true ->
            In (name c) (column_names table).

(** What the first pass keeps true: every claimed name is the name of a
    target column, and each match claimed a new one. *)
Definition pass_invariant (schema : TargetSchema) (st : Pass) : Prop :=
  (forall k, k ∈ target_matched_set st ->
             exists c, In c (columns schema) /\ name c = k)
  /\ length (matched st) = size (target_matched_set st).

(** *** Schemas and tables for concrete runs *)

(** Two target columns with the same normalised name, the optional one
    first. *)
Definition colliding_schema : TargetSchema :=
  mkSchema "Colliding"
           [mkColumn "A B" "string" false []; mkColumn "a_b" "string" true []]
           ["a_b"].

Definition a_b_table : DetectedTable := mkTable "table_1" ["a_b"] [].

(** Two columns flagged [required], one of them listed. *)
Definition unlisted_schema : TargetSchema :=
  mkSchema "Unlisted"
           [mkColumn "a" "string" true []; mkColumn "A" "string" true []]
           ["a"].

Definition a_table : DetectedTable := mkTable "table_1" ["a"] [].

Definition contact_schema : TargetSchema :=
  mkSchema "Contact"
           [mkColumn "first_name" "string" true ["fname"; "first"];
            mkColumn "phone" "phone" false ["mobile"]]
           ["first_name"].

Definition first_name_table : DetectedTable := mkTable "table_1" ["first_name"] [].

(** A library that finds no similarity and no pattern. *)
Definition no_similarity : MatchLib :=
  mkMatchLib (fun _ _ => 0%Q) (fun _ => false) (fun _ => false) (fun _ => false).

(** *** Methods of [TargetSchema] *)

(** [TargetSchema.get_column]: the first column whose name is
    [column_name], the case of letters apart. *)
Definition get_column (schema : TargetSchema) (column_name : string)
  : option TargetColumn :=
  find (fun col => String.eqb (PyStr.lower (name col)) (PyStr.lower column_name))
       (columns schema).

(** [TargetSchema.get_required_columns] *)
Definition get_required_columns (schema : TargetSchema) : list TargetColumn :=
  List.filter required (columns schema).

(** *** The first pass as a matching *)

(** What the first pass keeps true of its three accumulators, for the
    source columns [seen] so far. *)
Definition matching_invariant (M : MatchLib) (table : DetectedTable)
           (schema : TargetSchema) (seen : list string) (st : Pass)
  : Prop :=
  NoDup (map snd (matched st))
  /\ (forall t, In t (map snd (matched st)) <-> t ∈ target_matched_set st)
  /\ (forall s, In s (map fst (matched st)) <-> s ∈ source_matched_set st)
  /\ (forall s t, In (s, t) (matched st) ->
        In s seen
        /\ exists col, In col (columns schema) /\ name col = t
             /\ (MODERATE_MATCH_THRESHOLD <= score_of M table s (t, col))%Q).

End Matcher.

(* ===================================================================== *)
(** ** Orchestrator ([src/agents/orchestrator.py]) *)
(* ===================================================================== *)

Module Orchestrator.

Import Registry Plan.
Import Engine(DataFrame).
Import Matcher(TargetSchema, schema_name, DetectedTable, table_id).

Inductive JobStatus : Type :=
| PENDING | DETECTING_TABLES | SELECTING_TABLE | ANALYZING | PLANNING
| WAITING_FOR_INPUT | EXECUTING | VALIDATING | COMPLETED | FAILED.

#[export] Instance JobStatus_eq_dec : EqDecision JobStatus.
Proof. solve_decision. Defined.

(** [status.value] *)
Definition value (s : JobStatus) : string :=
  match s with
  | PENDING => "pending"
  | DETECTING_TABLES => "detecting_tables"
  | SELECTING_TABLE => "selecting_table"
  | ANALYZING => "analyzing"
  | PLANNING => "planning"
  | WAITING_FOR_INPUT => "waiting_for_input"
  | EXECUTING => "executing"
  | VALIDATING => "validating"
  | COMPLETED => "completed"
  | FAILED => "failed"
  end.

Definition all_statuses : list JobStatus :=
  [PENDING; DETECTING_TABLES; SELECTING_TABLE; ANALYZING; PLANNING;
   WAITING_FOR_INPUT; EXECUTING; VALIDATING; COMPLETED; FAILED].

(** [JobStatus(text)]: [None] stands for [ValueError]. *)
Definition JobStatus_of (text : string) : option JobStatus :=
  find (fun s => String.eqb (value s) text) all_statuses.

(** Modelled from the spec: [src/schemas/source_schema.py] is not part of
    the sources; the fields are those the orchestrator reads and writes. *)
Record SourceSchemaAnalysis : Type := mkAnalysis {
  sa_columns : list string;
  total_rows : nat;
  total_columns : nat;
  overall_quality : string
}.

(** Modelled from the spec: [src/schemas/validation_report.py] is not part
    of the sources; quality score and status. *)
Record ValidationReport : Type := mkReport {
  quality_score : Q;
  report_status : string
}.

(** Modelled from the spec: [src/schemas/detected_table.py] is not part of
    the sources.  An analysis lists the detected tables; a matching result
    lists the tables with their scores, best first. *)
Record MultiTableAnalysis : Type := mkMulti {
  tables : list DetectedTable
}.

Record TableMatchingResult : Type := mkMatching {
  matches : list (string * Q);
  best_match_table_id : option string;
  user_prompt : option string
}.

(** Modelled from the spec: the good matches are the tables scoring at
    least 0.7. *)
Definition get_good_matches (r : TableMatchingResult) : list (string * Q) :=
  List.filter (fun m => Qle_bool (7 # 10) (snd m)) (matches r).

Definition get_table_by_id (a : MultiTableAnalysis) (id : string)
  : option DetectedTable :=
  find (fun t => String.eqb (table_id t) id) (tables a).

Record TransformationJob : Type := mkJob {
  job_id : string;
  source_file : string;
  target_schema_name : string;
  status : JobStatus;
  created_at : nat;
  updated_at : nat;
  source_analysis : option SourceSchemaAnalysis;
  transformation_plan : option TransformationPlan;
  validation_report : option ValidationReport;
  output_file : option string;
  pending_questions : list string;
  user_answers : list (string * string);
  multi_table_analysis : option MultiTableAnalysis;
  table_matching_result : option TableMatchingResult;
  selected_table_id : option string;
  error_message : option string;
  retry_count : nat;
  max_retries : nat;
  _selected_table_df : option DataFrame;
  _result_df : option DataFrame
}.

(** Attribute assignment [job.f = v], one setter per attribute the
    orchestrator assigns. *)
Definition set_status (v : JobStatus) (job : TransformationJob)
  : TransformationJob :=
  mkJob (job_id job) (source_file job) (target_schema_name job) v (created_at job)
        (updated_at job) (source_analysis job) (transformation_plan job)
        (validation_report job) (output_file job) (pending_questions job)
        (user_answers job) (multi_table_analysis job) (table_matching_result job)
        (selected_table_id job) (error_message job) (retry_count job) (max_retries
        job) (_selected_table_df job) (_result_df job).

Definition set_updated_at (v : nat) (job : TransformationJob)
  : TransformationJob :=
  mkJob (job_id job) (source_file job) (target_schema_name job) (status job)
        (created_at job) v (source_analysis job) (transformation_plan job)
        (validation_report job) (output_file job) (pending_questions job)
        (user_answers job) (multi_table_analysis job) (table_matching_result job)
        (selected_table_id job) (error_message job) (retry_count job) (max_retries
        job) (_selected_table_df job) (_result_df job).

Definition set_source_analysis (v : option SourceSchemaAnalysis) (job : TransformationJob)
  : TransformationJob :=
  mkJob (job_id job) (source_file job) (target_schema_name job) (status job)
        (created_at job) (updated_at job) v (transformation_plan job)
        (validation_report job) (output_file job) (pending_questions job)
        (user_answers job) (multi_table_analysis job) (table_matching_result job)
        (selected_table_id job) (error_message job) (retry_count job) (max_retries
        job) (_selected_table_df job) (_result_df job).

Definition set_transformation_plan (v : option TransformationPlan) (job : TransformationJob)
  : TransformationJob :=
  mkJob (job_id job) (source_file job) (target_schema_name job) (status job)
        (created_at job) (updated_at job) (source_analysis job) v
        (validation_report job) (output_file job) (pending_questions job)
        (user_answers job) (multi_table_analysis job) (table_matching_result job)
        (selected_table_id job) (error_message job) (retry_count job) (max_retries
        job) (_selected_table_df job) (_result_df job).

Definition set_validation_report (v : option ValidationReport) (job : TransformationJob)
  : TransformationJob :=
  mkJob (job_id job) (source_file job) (target_schema_name job) (status job)
        (created_at job) (updated_at job) (source_analysis job)
        (transformation_plan job) v (output_file job) (pending_questions job)
        (user_answers job) (multi_table_analysis job) (table_matching_result job)
        (selected_table_id job) (error_message job) (retry_count job) (max_retries
        job) (_selected_table_df job) (_result_df job).

Definition set_output_file (v : option string) (job : TransformationJob)
  : TransformationJob :=
  mkJob (job_id job) (source_file job) (target_schema_name job) (status job)
        (created_at job) (updated_at job) (source_analysis job)
        (transformation_plan job) (validation_report job) v (pending_questions
        job) (user_answers job) (multi_table_analysis job) (table_matching_result
        job) (selected_table_id job) (error_message job) (retry_count job)
        (max_retries job) (_selected_table_df job) (_result_df job).

Definition set_pending_questions (v : list string) (job : TransformationJob)
  : TransformationJob :=
  mkJob (job_id job) (source_file job) (target_schema_name job) (status job)
        (created_at job) (updated_at job) (source_analysis job)
        (transformation_plan job) (validation_report job) (output_file job) v
        (user_answers job) (multi_table_analysis job) (table_matching_result job)
        (selected_table_id job) (error_message job) (retry_count job) (max_retries
        job) (_selected_table_df job) (_result_df job).

Definition set_user_answers (v : list (string * string)) (job : TransformationJob)
  : TransformationJob :=
  mkJob (job_id job) (source_file job) (target_schema_name job) (status job)
        (created_at job) (updated_at job) (source_analysis job)
        (transformation_plan job) (validation_report job) (output_file job)
        (pending_questions job) v (multi_table_analysis job)
        (table_matching_result job) (selected_table_id job) (error_message job)
        (retry_count job) (max_retries job) (_selected_table_df job) (_result_df
        job).

Definition set_multi_table_analysis (v : option MultiTableAnalysis) (job : TransformationJob)
  : TransformationJob :=
  mkJob (job_id job) (source_file job) (target_schema_name job) (status job)
        (created_at job) (updated_at job) (source_analysis job)
        (transformation_plan job) (validation_report job) (output_file job)
        (pending_questions job) (user_answers job) v (table_matching_result job)
        (selected_table_id job) (error_message job) (retry_count job) (max_retries
        job) (_selected_table_df job) (_result_df job).

Definition set_table_matching_result (v : option TableMatchingResult) (job : TransformationJob)
  : TransformationJob :=
  mkJob (job_id job) (source_file job) (target_schema_name job) (status job)
        (created_at job) (updated_at job) (source_analysis job)
        (transformation_plan job) (validation_report job) (output_file job)
        (pending_questions job) (user_answers job) (multi_table_analysis job) v
        (selected_table_id job) (error_message job) (retry_count job) (max_retries
        job) (_selected_table_df job) (_result_df job).

Definition set_selected_table_id (v : option string) (job : TransformationJob)
  : TransformationJob :=
  mkJob (job_id job) (source_file job) (target_schema_name job) (status job)
        (created_at job) (updated_at job) (source_analysis job)
        (transformation_plan job) (validation_report job) (output_file job)
        (pending_questions job) (user_answers job) (multi_table_analysis job)
        (table_matching_result job) v (error_message job) (retry_count job)
        (max_retries job) (_selected_table_df job) (_result_df job).

Definition set_error_message (v : option string) (job : TransformationJob)
  : TransformationJob :=
  mkJob (job_id job) (source_file job) (target_schema_name job) (status job)
        (created_at job) (updated_at job) (source_analysis job)
        (transformation_plan job) (validation_report job) (output_file job)
        (pending_questions job) (user_answers job) (multi_table_analysis job)
        (table_matching_result job) (selected_table_id job) v (retry_count job)
        (max_retries job) (_selected_table_df job) (_result_df job).

Definition set_retry_count (v : nat) (job : TransformationJob)
  : TransformationJob :=
  mkJob (job_id job) (source_file job) (target_schema_name job) (status job)
        (created_at job) (updated_at job) (source_analysis job)
        (transformation_plan job) (validation_report job) (output_file job)
        (pending_questions job) (user_answers job) (multi_table_analysis job)
        (table_matching_result job) (selected_table_id job) (error_message job) v
        (max_retries job) (_selected_table_df job) (_result_df job).

Definition set_selected_table_df (v : option DataFrame) (job : TransformationJob)
  : TransformationJob :=
  mkJob (job_id job) (source_file job) (target_schema_name job) (status job)
        (created_at job) (updated_at job) (source_analysis job)
        (transformation_plan job) (validation_report job) (output_file job)
        (pending_questions job) (user_answers job) (multi_table_analysis job)
        (table_matching_result job) (selected_table_id job) (error_message job)
        (retry_count job) (max_retries job) v (_result_df job).

Definition set_result_df (v : option DataFrame) (job : TransformationJob)
  : TransformationJob :=
  mkJob (job_id job) (source_file job) (target_schema_name job) (status job)
        (created_at job) (updated_at job) (source_analysis job)
        (transformation_plan job) (validation_report job) (output_file job)
        (pending_questions job) (user_answers job) (multi_table_analysis job)
        (table_matching_result job) (selected_table_id job) (error_message job)
        (retry_count job) (max_retries job) (_selected_table_df job) v.

(** [TransformationJob(job_id, source_file, target_schema_name)] at time
    [now]. *)
Definition new_job (job_id source_file target_schema_name : string) (now : nat)
  : TransformationJob :=
  mkJob job_id source_file target_schema_name PENDING now now
        None None None None [] [] None None None None 0 3 None None.

(** The JSON document [to_dict] builds.  A nested model is stored as its
    [model_dump()], from which the model's constructor rebuilds it. *)
Record Snapshot : Type := mkSnapshot {
  s_job_id : string;
  s_source_file : string;
  s_target_schema_name : string;
  s_status : string;
  s_created_at : nat;
  s_updated_at : nat;
  s_source_analysis : option SourceSchemaAnalysis;
  s_transformation_plan : option TransformationPlan;
  s_validation_report : option ValidationReport;
  s_output_file : option string;
  s_pending_questions : list string;
  s_user_answers : list (string * string);
  s_error_message : option string;
  s_retry_count : nat
}.

Definition to_dict (self : TransformationJob) : Snapshot :=
  mkSnapshot (job_id self) (source_file self) (target_schema_name self)
             (value (status self)) (created_at self) (updated_at self)
             (source_analysis self) (transformation_plan self)
             (validation_report self) (output_file self)
             (pending_questions self) (user_answers self)
             (error_message self) (retry_count self).

(** [from_dict]: [None] when the status text names no [JobStatus]. *)
Definition from_dict (data : Snapshot) : option TransformationJob :=
  match JobStatus_of (s_status data) with
  | None => None
  | Some st =>
      let job := new_job (s_job_id data) (s_source_file data)
                         (s_target_schema_name data) 0 in
      let job := set_status st job in
      let job :=
        mkJob (job_id job) (source_file job) (target_schema_name job)
              (status job) (s_created_at data) (s_updated_at data)
              (source_analysis job) (transformation_plan job)
              (validation_report job) (s_output_file data)
              (s_pending_questions data) (s_user_answers data)
              (multi_table_analysis job) (table_matching_result job)
              (selected_table_id job) (s_error_message data)
              (s_retry_count data) (max_retries job)
              (_selected_table_df job) (_result_df job) in
      (* Reconstruct complex objects *)
      let job :=
        match s_validation_report data with
        | Some r => set_validation_report (Some r) job
        | None => job
        end in
      let job :=
        match s_transformation_plan data with
        | Some p => set_transformation_plan (Some p) job
        | None => job
        end in
      Some job
  end.

(** *** The world outside the orchestrator *)

Inductive Stage : Type :=
| Detect | Analyze | Planning | Execute | Validate | Fallback.

(** What a run does, in order: the stage methods it enters and the
    collaborators it calls. *)
Inductive Event : Type :=
| Entered (stage : Stage) (s : JobStatus)
| Planned (plan : TransformationPlan)
| PlanningRaised (e : string)
| EngineInvoked (plan : option TransformationPlan)
| ValidatorInvoked
| ScriptRun (returncode : Z) (stderr : string)
| ExpectedOutput (found : bool)
| Saved (job_id : string).

Record World : Type := mkWorld {
  clock : nat;
  jobs : gmap string Snapshot;          (* settings.jobs_dir *)
  trace : list Event
}.

(** The agents, the loader, the sink and the operating system.  Every call
    is made at some time, so a collaborator may answer differently from
    one call to the next. *)
Record Env : Type := mkEnv {
  get_schema : string -> option TargetSchema;
  uuid4 : nat -> string;
  table_detector_run : nat -> string -> Res MultiTableAnalysis;
  table_matcher_run : nat -> list DetectedTable -> TargetSchema
                      -> Res TableMatchingResult;
  schema_analyst_run : nat -> string -> Res SourceSchemaAnalysis;
  extract_table_from_boundary : nat -> string -> DetectedTable -> Res DataFrame;
  load_full : nat -> string -> Res DataFrame;
  planner_run : nat -> option SourceSchemaAnalysis -> TargetSchema
                -> Res TransformationPlan;
  engine_execute : nat -> DataFrame -> option TransformationPlan -> Res DataFrame;
  validator_run : nat -> DataFrame -> TargetSchema -> Res ValidationReport;
  output_generate : nat -> DataFrame -> ValidationReport -> string -> Res string;
  code_generator_run : nat -> string -> TargetSchema -> option SourceSchemaAnalysis
                       -> Res string;
  write_script : nat -> string -> string -> Res unit;
  subprocess_run : nat -> string -> Res (Z * string * string);
  path_exists : nat -> string -> bool;
  stem : string -> string;
  output_dir : string
}.

(** Computations that read the clock, call collaborators and write the job
    store. *)
Definition M (A : Type) : Type := World -> A * World.

Definition ret {A} (a : A) : M A := fun w => (a, w).

Definition bindM {A B} (m : M A) (k : A -> M B) : M B :=
  fun w => let '(a, w') := m w in k a w'.

Notation "x <~ m ; k" := (bindM m (fun x => k))
  (at level 20, m at level 100, k at level 200, only parsing).
Notation "m ;; k" := (bindM m (fun _ => k))
  (at level 100, k at level 200, right associativity, only parsing).

Definition tick (w : World) : World :=
  mkWorld (S (clock w)) (jobs w) (trace w).

(** [datetime.now().isoformat()] *)
Definition now : M nat := fun w => (clock w, tick w).

(** A call to a collaborator. *)
Definition ask {A} (f : nat -> A) : M A := fun w => (f (clock w), tick w).

Definition emit (e : Event) : M unit :=
  fun w => (tt, mkWorld (clock w) (jobs w) (trace w ++ [e])).

Definition cat (parts : list string) : string := String.concat "" parts.

(** [job.status = FAILED; job.error_message = message] *)
Definition failed (message : string) (job : TransformationJob) : TransformationJob :=
  set_error_message (Some message) (set_status FAILED job).

(** [job.status = s; job.updated_at = datetime.now().isoformat()] *)
Definition enter (stage : Stage) (s : JobStatus) (job : TransformationJob)
  : M TransformationJob :=
  emit (Entered stage s) ;;
  t <~ now ;
  ret (set_updated_at t (set_status s job)).

Definition truthy (o : option string) : option string := Engine.truthy o.

Section WithEnv.

Variable env : Env.

Definition schema_or_generic (name : string) : TargetSchema :=
  or_default (get_schema env name) Matcher.GENERIC_CUSTOMER_SCHEMA.

Definition _save_job (job : TransformationJob) : M TransformationJob :=
  t <~ now ;
  let job := set_updated_at t job in
  emit (Saved (job_id job)) ;;
  fun w => (job, mkWorld (clock w) (<[job_id job := to_dict job]> (jobs w)) (trace w)).

Definition create_job (source_file target_schema_name : string)
  : M TransformationJob :=
  id <~ ask (uuid4 env) ;
  t <~ now ;
  _save_job (new_job id source_file target_schema_name t).

Definition get_job (job_id : string) (w : World) : option TransformationJob :=
  match jobs w !! job_id with
  | None => None
  | Some data => from_dict data
  end.

Definition _stage_detect_tables (job : TransformationJob) : M TransformationJob :=
  job <~ enter Detect DETECTING_TABLES job ;
  r <~ ask (fun t => table_detector_run env t (source_file job)) ;
  match r with
  | Raise e => ret (failed (cat ["Table detection failed: "; e]) job)
  | Ok analysis =>
      let job := set_multi_table_analysis (Some analysis) job in
      match tables analysis with
      | [only] => ret (set_selected_table_id (Some (table_id only)) job)
      | tables =>
          let target_schema := schema_or_generic (target_schema_name job) in
          r <~ ask (fun t => table_matcher_run env t tables target_schema) ;
          match r with
          | Raise e => ret (failed (cat ["Table detection failed: "; e]) job)
          | Ok result =>
              let job := set_table_matching_result (Some result) job in
              match get_good_matches result with
              | [good] => ret (set_selected_table_id (Some (fst good)) job)
              | _ :: _ :: _ =>
                  let prompt :=
                    or_default (truthy (user_prompt result))
                               "Which table do you want to transform?" in
                  ret (set_pending_questions [prompt]
                         (set_status SELECTING_TABLE job))
              | [] =>
                  match truthy (best_match_table_id result) with
                  | Some best => ret (set_selected_table_id (Some best) job)
                  | None => ret (failed "No suitable tables found in file" job)
                  end
              end
          end
      end
  end.

Definition analyze_file (job : TransformationJob)
           (override : option DataFrame) : M TransformationJob :=
  r <~ ask (fun t => schema_analyst_run env t (source_file job)) ;
  match r with
  | Raise e => ret (failed (cat ["Analysis failed: "; e]) job)
  | Ok analysis =>
      let analysis :=
        match override with
        | Some table_df =>
            mkAnalysis (sa_columns analysis) (Engine.nrows table_df)
                       (length (Engine.columns table_df))
                       (overall_quality analysis)
        | None => analysis
        end in
      ret (set_source_analysis (Some analysis) job)
  end.

Definition _stage_analyze (job : TransformationJob) : M TransformationJob :=
  job <~ enter Analyze ANALYZING job ;
  match truthy (selected_table_id job), multi_table_analysis job with
  | Some id, Some analysis =>
      match get_table_by_id analysis id with
      | Some selected_table =>
          r <~ ask (fun t => extract_table_from_boundary env t (source_file job)
                                                         selected_table) ;
          match r with
          | Raise e => ret (failed (cat ["Analysis failed: "; e]) job)
          | Ok table_df =>
              analyze_file (set_selected_table_df (Some table_df) job)
                           (Some table_df)
          end
      | None => analyze_file job None
      end
  | _, _ => analyze_file job None
  end.

Definition _stage_plan (job : TransformationJob) : M TransformationJob :=
  job <~ enter Planning PLANNING job ;
  let target_schema := schema_or_generic (target_schema_name job) in
  r <~ ask (fun t => planner_run env t (source_analysis job) target_schema) ;
  match r with
  | Raise e =>
      emit (PlanningRaised e) ;;
      ret (failed (cat ["Planning failed: "; e]) job)
  | Ok plan =>
      emit (Planned plan) ;;
      let job := set_transformation_plan (Some plan) job in
      if requires_user_input plan
      then ret (set_pending_questions (user_questions plan)
                  (set_status WAITING_FOR_INPUT job))
      else ret job
  end.

(** [_stage_execute] calls itself while [retry_count < max_retries];
    [remaining] is [max_retries - retry_count]. *)
Fixpoint execute_attempts (remaining : nat) (job : TransformationJob)
  : M TransformationJob :=
  job <~ enter Execute EXECUTING job ;
  loaded <~ match _selected_table_df job with
            | Some df => ret (Ok df)
            | None => ask (fun t => load_full env t (source_file job))
            end ;
  r <~ match loaded with
       | Raise e => ret (Raise e)
       | Ok df =>
           emit (EngineInvoked (transformation_plan job)) ;;
           ask (fun t => engine_execute env t df (transformation_plan job))
       end ;
  match r with
  | Ok result_df => ret (set_result_df (Some result_df) job)
  | Raise e =>
      match remaining with
      | S remaining' =>
          execute_attempts remaining' (set_retry_count (S (retry_count job)) job)
      | O => ret (failed (cat ["Execution failed: "; e]) job)
      end
  end.

Definition _stage_execute (job : TransformationJob) : M TransformationJob :=
  execute_attempts (max_retries job - retry_count job) job.

Definition _stage_validate_and_output (job : TransformationJob)
  : M TransformationJob :=
  job <~ enter Validate VALIDATING job ;
  match _result_df job with
  | None =>
      ret (failed "Validation/Output failed: No result data to validate" job)
  | Some result_df =>
      let target_schema := schema_or_generic (target_schema_name job) in
      emit ValidatorInvoked ;;
      r <~ ask (fun t => validator_run env t result_df target_schema) ;
      match r with
      | Raise e => ret (failed (cat ["Validation/Output failed: "; e]) job)
      | Ok report =>
          let job := set_validation_report (Some report) job in
          let output_filename :=
            cat [stem env (source_file job); "_transformed_"; job_id job; ".xlsx"] in
          r <~ ask (fun t => output_generate env t result_df report output_filename) ;
          match r with
          | Raise e => ret (failed (cat ["Validation/Output failed: "; e]) job)
          | Ok output_path =>
              ret (set_status COMPLETED (set_output_file (Some output_path) job))
          end
      end
  end.

Definition script_path (job : TransformationJob) : string :=
  cat [output_dir env; "/../fallback_"; job_id job; ".py"].

Definition expected_output (target_schema : TargetSchema) : string :=
  cat [output_dir env; "/"; schema_name target_schema; "_fallback.xlsx"].

Definition fallback_failed (e : string) (job : TransformationJob)
  : TransformationJob :=
  failed (cat ["Fallback failed: "; e]) job.

Definition _stage_fallback_execution (job : TransformationJob)
  : M TransformationJob :=
  job <~ enter Fallback EXECUTING job ;
  match get_schema env (target_schema_name job) with
  | None =>
      ret (fallback_failed
             (cat ["Unknown target schema: "; target_schema_name job]) job)
  | Some target_schema =>
      analysed <~ match source_analysis job with
                  | Some _ => ret (Ok job)
                  | None =>
                      r <~ ask (fun t => schema_analyst_run env t (source_file job)) ;
                      match r with
                      | Raise e => ret (Raise e)
                      | Ok analysis => ret (Ok (set_source_analysis (Some analysis) job))
                      end
                  end ;
      match analysed with
      | Raise e => ret (fallback_failed e job)
      | Ok job =>
          r <~ ask (fun t => code_generator_run env t (source_file job) target_schema
                                                (source_analysis job)) ;
          match r with
          | Raise e => ret (fallback_failed e job)
          | Ok code =>
              r <~ ask (fun t => write_script env t (script_path job) code) ;
              match r with
              | Raise e => ret (fallback_failed e job)
              | Ok _ =>
                  r <~ ask (fun t => subprocess_run env t (script_path job)) ;
                  match r with
                  | Raise e => ret (fallback_failed e job)
                  | Ok (returncode, stdout, stderr) =>
                      emit (ScriptRun returncode stderr) ;;
                      if negb (returncode =? 0)%Z
                      then ret (fallback_failed
                                  (cat ["Script execution failed: "; stderr]) job)
                      else
                        found <~ ask (fun t => path_exists env t
                                                 (expected_output target_schema)) ;
                        emit (ExpectedOutput found) ;;
                        if found
                        then ret (set_status COMPLETED
                                    (set_output_file
                                       (Some (expected_output target_schema)) job))
                        else ret (set_error_message
                                    (Some "Script ran but output file not found at expected location")
                                    (set_status COMPLETED job))
                  end
              end
          end
      end
  end.

Definition has_status (s : JobStatus) (job : TransformationJob) : bool :=
  bool_decide (status job = s).

Definition low_confidence (job : TransformationJob) : bool :=
  match transformation_plan job with
  | Some plan => negb (Qle_bool (1 # 2) (confidence_score plan))
  | None => false
  end.

(** [run_job] from Stage 1 on. *)
Definition run_from_analysis (job : TransformationJob) : M TransformationJob :=
  job <~ _stage_analyze job ;
  if has_status FAILED job then ret job else
  job <~ _stage_plan job ;
  if has_status WAITING_FOR_INPUT job then ret job else
  if has_status FAILED job then _stage_fallback_execution job else
  if low_confidence job then _stage_fallback_execution job else
  job <~ _stage_execute job ;
  if has_status FAILED job then _stage_fallback_execution job else
  job <~ _stage_validate_and_output job ;
  _save_job job.

(** [run_job].  Every stage method catches what its collaborators raise,
    so the [except] of [run_job] is never reached; [_save_job] is the last
    statement, after the [try]. *)
Definition run_job (job : TransformationJob) : M TransformationJob :=
  match multi_table_analysis job with
  | None =>
      job <~ _stage_detect_tables job ;
      if has_status FAILED job then ret job else
      if has_status SELECTING_TABLE job then ret job else
      run_from_analysis job
  | Some _ => run_from_analysis job
  end.

(** The digits of a decimal literal whose groups of digits are joined by
    single underscores, as [int] reads it; [None] when an underscore
    comes first, last or after another, or when another character
    occurs. *)
Fixpoint digit_groups (after_digit : bool) (s : string) : option string :=
  match s with
  | EmptyString => if after_digit then Some EmptyString else None
  | String c r =>
      if PyStr.is_digit c then option_map (String c) (digit_groups true r)
      else if Ascii.eqb c "_" && after_digit then digit_groups false r
      else None
  end.

(** [int(selection)] on ASCII text: whitespace, a sign, digits in groups
    joined by underscores, whitespace; [None] stands for [ValueError].
    Digits and whitespace outside ASCII, and the limit on the number of
    digits (4300 since Python 3.11), are outside this model. *)
Definition parse_int (text : string) : option Z :=
  let text := PyStr.strip text in
  let '(neg, literal) :=
    match text with
    | String "-" r => (true, r)
    | String "+" r => (false, r)
    | _ => (false, text)
    end in
  match digit_groups false literal with
  | None => None
  | Some digits =>
      let n := Z.of_N (PyStr.digits_value 0 digits) in
      Some (if neg then (- n)%Z else n)
  end.

Definition select_table (job : TransformationJob) (selection : string)
  : M TransformationJob :=
  if negb (has_status SELECTING_TABLE job) then ret job else
  match multi_table_analysis job with
  | None => ret (failed "No tables detected for selection" job)
  | Some analysis =>
      let tables := tables analysis in
      let job :=
        match parse_int selection with
        | Some number =>
            let table_idx := (number - 1)%Z in
            if (0 <=? table_idx)%Z && (table_idx <? Z.of_nat (length tables))%Z
            then match nth_error tables (Z.to_nat table_idx) with
                 | Some table => set_selected_table_id (Some (table_id table)) job
                 | None => job
                 end
            else job
        | None =>
            if existsb (fun table => String.eqb (table_id table) selection) tables
            then set_selected_table_id (Some selection) job
            else job
        end in
      match truthy (selected_table_id job) with
      | None => ret job
      | Some _ => run_job (set_pending_questions [] job)
      end
  end.

(** [l[i]] for a Python index: a negative [i] counts from the end; [None]
    stands for [IndexError]. *)
Definition py_index {A} (l : list A) (i : Z) : option A :=
  let i := if (i <? 0)%Z then (i + Z.of_nat (length l))%Z else i in
  if (i <? 0)%Z then None else nth_error l (Z.to_nat i).

Definition answer_question (job : TransformationJob) (question_index : Z)
           (answer : string) : M (Res TransformationJob) :=
  if has_status SELECTING_TABLE job
  then (job <~ select_table job answer ; ret (Ok job)) else
  if negb (has_status WAITING_FOR_INPUT job) then ret (Ok job) else
  let answered :=
    if (question_index <? Z.of_nat (length (pending_questions job)))%Z then
      match py_index (pending_questions job) question_index with
      | Some question =>
          Ok (set_user_answers
                (Engine.assoc_set question answer (user_answers job)) job)
      | None => Raise "IndexError: list index out of range"
      end
    else Ok job in
  match answered with
  | Raise e => ret (Raise e)
  | Ok job =>
      if (length (pending_questions job) <=? length (user_answers job))%nat
      then (job <~ run_job (set_pending_questions [] job) ; ret (Ok job))
      else ret (Ok job)
  end.

End WithEnv.

(** *** Observing a run *)

(** The same world, with an empty trace: what a call then leaves in the
    trace is what that call did. *)
Definition fresh_trace (w : World) : World := mkWorld (clock w) (jobs w) [].

(** [m] adds to the trace only events that satisfy [P]. *)
Definition emits {A} (P : Event -> bool) (m : M A) : Prop :=
  forall w, exists evs, trace (snd (m w)) = trace w ++ evs /\ forallb P evs = true.

(** Events of the stages before planning. *)
Definition early (e : Event) : bool :=
  match e with
  | Entered Detect _ | Entered Analyze _ => true
  | _ => false
  end.

(** Events of the code-generation fallback, after it has been entered. *)
Definition fallback_only (e : Event) : bool :=
  match e with
  | ScriptRun _ _ | ExpectedOutput _ => true
  | _ => false
  end.

(** Events of the planner. *)
Definition planning (e : Event) : bool :=
  match e with
  | Planned _ | PlanningRaised _ => true
  | _ => false
  end.

(** Events other than the planner's. *)
Definition quiet (e : Event) : bool := negb (planning e).

(** Events of the normal path after planning: the engine, the EXECUTING
    stage that calls it, and validation. *)
Definition normal_path (e : Event) : bool :=
  match e with
  | EngineInvoked _ | ValidatorInvoked
  | Entered Execute _ | Entered Validate _ => true
  | _ => false
  end.

(** A job that has FAILED failed in the fallback. *)
Definition failed_in_fallback (job : TransformationJob) : Prop :=
  status job = FAILED ->
  exists e, error_message job = Some (cat ["Fallback failed: "; e]).

(** The planner's event [e] is followed at once by the fallback's entry into
    EXECUTING, and the run has no event of the normal path. *)
Definition fallback_after (e : Event) (evs : list Event) (job : TransformationJob)
  : Prop :=
  (exists pre post, evs = pre ++ e :: Entered Fallback EXECUTING :: post)
  /\ forallb (fun e => negb (normal_path e)) evs = true
  /\ failed_in_fallback job.

Definition fallback_triggering (evs : list Event) (job : TransformationJob) : Prop :=
  (forall plan,
      In (Planned plan) evs ->
      (confidence_score plan < 1 # 2)%Q ->
      requires_user_input plan = false ->
      fallback_after (Planned plan) evs job)
  /\ (forall e, In (PlanningRaised e) evs -> fallback_after (PlanningRaised e) evs job).

(** *** Persistence *)

(** [loaded] has the snapshot fields of [saved] that [from_dict] reads
    back, the nested plan and report among them. *)
Definition restored (loaded saved : TransformationJob) : Prop :=
  job_id loaded = job_id saved
  /\ source_file loaded = source_file saved
  /\ target_schema_name loaded = target_schema_name saved
  /\ status loaded = status saved
  /\ created_at loaded = created_at saved
  /\ updated_at loaded = updated_at saved
  /\ transformation_plan loaded = transformation_plan saved
  /\ validation_report loaded = validation_report saved
  /\ output_file loaded = output_file saved
  /\ pending_questions loaded = pending_questions saved
  /\ user_answers loaded = user_answers saved
  /\ error_message loaded = error_message saved
  /\ retry_count loaded = retry_count saved.

(** The table-selection state, which [to_dict] does not write. *)
Definition no_table_selection (job : TransformationJob) : Prop :=
  selected_table_id job = None
  /\ multi_table_analysis job = None
  /\ table_matching_result job = None.

(** A job is terminal once COMPLETED or FAILED. *)
Definition terminal (job : TransformationJob) : Prop :=
  status job = COMPLETED \/ status job = FAILED.

(** *** Scripted collaborators, for concrete runs *)

Definition sample_frame : DataFrame :=
  Engine.mkFrame 1 [("name", [VStr "Ann"])].

Definition sample_analysis : SourceSchemaAnalysis := mkAnalysis ["name"] 1 1 "good".

Definition sample_report : ValidationReport := mkReport 100 "PASSED".

(** Collaborators that answer the same at any time: the detector, the
    planner and the script are given, the output file is found or not, and
    everything else succeeds. *)
Definition scripted (detected : Res MultiTableAnalysis)
           (planned : Res TransformationPlan)
           (script : Res (Z * string * string)) (found : bool) : Env :=
  mkEnv (fun _ => Some Matcher.GENERIC_CUSTOMER_SCHEMA)
        (fun _ => "1a2b3c4d")
        (fun _ _ => detected)
        (fun _ _ _ => Ok (mkMatching [] None None))
        (fun _ _ => Ok sample_analysis)
        (fun _ _ _ => Ok sample_frame)
        (fun _ _ => Ok sample_frame)
        (fun _ _ _ => planned)
        (fun _ df _ => Ok df)
        (fun _ _ _ => Ok sample_report)
        (fun _ _ _ filename => Ok (cat ["output/"; filename]))
        (fun _ _ _ _ => Ok "import pandas as pd")
        (fun _ _ _ => Ok tt)
        (fun _ _ => script)
        (fun _ _ => found)
        (fun path => path)
        "output".

Definition one_table : MultiTableAnalysis :=
  mkMulti [Matcher.mkTable "table_1" ["name"] []].

Definition good_plan : TransformationPlan :=
  mkPlan (9 # 10) [mkMapping "name" "first_name" Direct None] [] [] [] false [].

Definition asking_plan : TransformationPlan :=
  mkPlan (9 # 10) [] [] [] [] true ["Which column holds the name?"].

Definition low_plan : TransformationPlan :=
  mkPlan (3 # 10) [mkMapping "name" "first_name" Direct None] [] []
         ["AI planning failed"] false [].

Definition empty_world : World := mkWorld 0 ∅ [].

(** A job after table selection, and a job that has completed. *)
Definition selected_job : TransformationJob :=
  set_selected_table_id (Some "table_1")
    (set_multi_table_analysis (Some one_table)
       (new_job "1a2b3c4d" "data.xlsx" "generic_customer" 0)).

Definition completed_job : TransformationJob :=
  set_output_file (Some "output/data_transformed_1a2b3c4d.xlsx")
    (set_status COMPLETED selected_job).

(** *** Outcomes of a run *)

(** A stage method leaves the job store alone and keeps the job's id; the
    job it returns has one of the statuses [allowed]. *)
Definition stage_ends_in (allowed : list JobStatus)
           (m : M TransformationJob) (id : string) : Prop :=
  forall w,
    jobs (snd (m w)) = jobs w
    /\ job_id (fst (m w)) = id
    /\ In (status (fst (m w))) allowed.

(** The statuses in which [run_job] hands a job back. *)
Definition resting : list JobStatus :=
  [SELECTING_TABLE; WAITING_FOR_INPUT; COMPLETED; FAILED].

(** What [run_job] leaves behind: the job it returns and the store. *)
Definition run_outcome (job : TransformationJob) (w : World)
           (r : TransformationJob * World) : Prop :=
  job_id (fst r) = job_id job
  /\ In (status (fst r)) resting
  /\ (jobs (snd r) = jobs w
      \/ (terminal (fst r)
          /\ jobs (snd r) = <[job_id job := to_dict (fst r)]> (jobs w))).



(** The number of times the EXECUTING stage was entered. *)
Definition attempts (evs : list Event) : nat :=
  length (List.filter
            (fun e => match e with
                      | Entered Execute _ => true
                      | _ => false
                      end) evs).

(** A snapshot without its answers. *)
Definition forget_answers (s : Snapshot) : Snapshot :=
  mkSnapshot (s_job_id s) (s_source_file s) (s_target_schema_name s) (s_status s)
             (s_created_at s) (s_updated_at s) (s_source_analysis s)
             (s_transformation_plan s) (s_validation_report s) (s_output_file s)
             (s_pending_questions s) [] (s_error_message s) (s_retry_count s).

(** [r'] is [r] but for the answers of the job: the job returned, the
    clock, the trace and, answers apart, the store. *)
Definition same_but_answers (answers : list (string * string))
           (r r' : TransformationJob * World) : Prop :=
  fst r' = set_user_answers answers (fst r)
  /\ clock (snd r') = clock (snd r)
  /\ trace (snd r') = trace (snd r)
  /\ forget_answers <$> jobs (snd r') = forget_answers <$> jobs (snd r).

(** A stage method that does not read the answers. *)
Definition ignores_answers (f : TransformationJob -> M TransformationJob) : Prop :=
  forall answers job w,
    f (set_user_answers answers job) w
    = (set_user_answers answers (fst (f job w)), snd (f job w)).

End Orchestrator.

(* ===================================================================== *)
(** ** Table Matcher: [run] ([src/agents/table_matching_agent.py]) *)
(* ===================================================================== *)

Module Matching.

Import Registry Matcher.

(** [TableMatchingResult], as [run] constructs it. *)
Record TableMatchingResult : Type := mkResult {
  target_schema_name : string;
  matches : list TableMatch;
  best_match_table_id : option string;
  requires_user_selection : bool;
  user_prompt : option string
}.

(** [matches.sort(key=lambda m: m.match_score, reverse=True)]: the sort is
    stable, so [m] goes before the later matches that score no more. *)
Fixpoint insert_match (m : TableMatch) (sorted : list TableMatch) : list TableMatch :=
  match sorted with
  | [] => [m]
  | x :: rest =>
      if Qle_bool (match_score x) (match_score m) then m :: x :: rest
      else x :: insert_match m rest
  end.

Definition sort_matches (l : list TableMatch) : list TableMatch :=
  fold_right insert_match [] l.

(** [m.match_score >= HIGH_MATCH_THRESHOLD] *)
Definition good (m : TableMatch) : bool :=
  Qle_bool HIGH_MATCH_THRESHOLD (match_score m).

Section WithLibrary.

Variable M : MatchLib.

(** [_generate_selection_prompt]: the text shown to the user. *)
Variable _generate_selection_prompt : list TableMatch -> list DetectedTable -> string.

Definition run (detected_tables : list DetectedTable)
           (target_schema : option TargetSchema) : TableMatchingResult :=
  let target_schema := or_default target_schema GENERIC_CUSTOMER_SCHEMA in
  let matches :=
    sort_matches
      (map (fun table => _match_table_to_schema M table target_schema)
           detected_tables) in
  let good_matches := List.filter good matches in
  let best_match_id :=
    match matches with
    | m :: _ => Some (m_table_id m)
    | [] => None
    end in
  let requires_selection := (1 <? length good_matches)%nat in
  mkResult (schema_name target_schema) matches best_match_id requires_selection
           (if requires_selection
            then Some (_generate_selection_prompt good_matches detected_tables)
            else None).

End WithLibrary.

(** Scores from the highest to the lowest. *)
Fixpoint descending (l : list TableMatch) : Prop :=
  match l with
  | [] => True
  | m :: rest =>
      (forall m', In m' rest -> (match_score m' <= match_score m)%Q)
      /\ descending rest
  end.

End Matching.

(* ===================================================================== *)
(** ** Validation Agent ([src/agents/validation_agent.py]) *)
(* ===================================================================== *)

Module Validation.

Import Registry.
Import Engine(DataFrame, nrows, has_column, column, truthy, truthy_list).

(** [TargetColumn] of [src/schemas/target_schema.py]: the fields the
    validation agent reads. *)
Record TargetColumn : Type := mkRule {
  name : string;
  data_type : string;
  pattern : option string;
  required : bool;
  allowed_values : option (list string)
}.

(** [ValidationError], [ColumnValidation] and [ValidationReport]:
    [src/schemas/validation_report.py] is not part of the sources; the
    records have the fields that the agent passes to their constructors. *)
Record ValidationError : Type := mkError {
  row_index : nat;
  column_of : string;
  issue : string;
  value_of : option string;
  severity : string;
  suggested_fix : option string
}.

Record ColumnValidation : Type := mkColumnValidation {
  column_name : string;
  valid_count : nat;
  invalid_count : nat;
  null_count : nat;
  validation_rate : Q
}.

(** The report as [run] constructs it.  Its quality score, status and
    summary are derived from these fields afterwards, by methods of the
    report. *)
Record ValidationReport : Type := mkReport {
  total_rows : nat;
  successful_rows : Z;
  failed_rows : nat;
  warning_rows : nat;
  errors : list ValidationError;
  column_validations : list ColumnValidation
}.

(** [float(value)]: [ValueError], a NaN, an infinity or a finite number. *)
Inductive FloatParse : Type := NotFloat | Nan | Inf | Finite.

(** Library calls of the agent: [float], [re.match] with the pattern of
    the schema ([Raise]: the exception it raises), [pd.to_datetime] ([false]: any
    exception) and the [repr] of a list of strings. *)
Record ValidateLib : Type := mkValidateLib {
  float_of : string -> FloatParse;
  re_match : string -> string -> Res bool;
  to_datetime : string -> bool;
  repr_list : list string -> string
}.

(** The columns of [GENERIC_CUSTOMER_SCHEMA]. *)
Definition GENERIC_CUSTOMER_SCHEMA : list TargetColumn :=
  [mkRule "first_name" "string" None true None;
   mkRule "last_name" "string" None false None;
   mkRule "email" "email"
          (Some "^[a-zA-Z0-9_.+-]+@[a-zA-Z0-9-]+\.[a-zA-Z0-9-.]+$") false None;
   mkRule "phone" "phone" None false None;
   mkRule "address" "string" None false None;
   mkRule "city" "string" None false None;
   mkRule "state" "string" None false None;
   mkRule "pincode" "string" (Some "^\d{6}$") false None;
   mkRule "country" "string" None false None;
   mkRule "gstin" "string"
          (Some "^\d{2}[A-Z]{5}\d{4}[A-Z]{1}[A-Z\d]{1}[Z]{1}[A-Z\d]{1}$") false None].

(** [re.match(r'^[a-zA-Z0-9_.+-]+@[a-zA-Z0-9-]+\.[a-zA-Z0-9-.]+$', value)];
    the value comes stripped. *)
Definition _validate_email (value : string) : bool := email_match value.

(** [_validate_phone]: the digits (ASCII) that are left once blanks,
    dashes, parentheses and plus signs are removed. *)
Definition _validate_phone (value : string) : bool :=
  let cleaned :=
    Matcher.filter_chars
      (fun c => negb (PyStr.is_space c || one_of "-()+" c)) value in
  let digits := Matcher.filter_chars PyStr.is_digit cleaned in
  (8 <=? String.length digits)%nat && (String.length digits <=? 15)%nat.

Section WithLibrary.

Variable L : PyLib.
Variable V : ValidateLib.

(** [_validate_numeric]: [int(float(value))] or [float(value)]; only
    [ValueError] is caught, so the [OverflowError] of [int] on an
    infinity escapes. *)
Definition _validate_numeric (value num_type : string) : Res bool :=
  match float_of V value with
  | NotFloat => Ok false
  | Finite => Ok true
  | Nan => Ok (negb (String.eqb num_type "integer"))
  | Inf =>
      if String.eqb num_type "integer"
      then Raise "OverflowError: cannot convert float infinity to integer"
      else Ok true
  end.

Definition _validate_date (value : string) : bool := to_datetime V value.

(** [pd.isna(value) or value is None or str(value).strip() == ""] *)
Definition is_null (value : Value) : bool :=
  isna value || PyStr.is_empty (PyStr.strip (py_str L value)).

(** The type-specific check of one value: the errors it appends and
    [is_valid]. *)
Definition check_type (idx : nat) (column_name data_type value_str : string)
  : Res (list ValidationError * bool) :=
  if String.eqb data_type "email" then
    if negb (_validate_email value_str)
    then Ok ([mkError idx column_name "Invalid email format" (Some value_str)
                      "error" (Some "Check email format (user@domain.com)")],
             false)
    else Ok ([], true)
  else if String.eqb data_type "phone" then
    if negb (_validate_phone value_str)
    then Ok ([mkError idx column_name "Invalid phone number" (Some value_str)
                      "warning" (Some "Ensure valid phone number format")],
             true)
    else Ok ([], true)
  else if String.eqb data_type "integer" || String.eqb data_type "float" then
    let! ok := _validate_numeric value_str data_type in
    if negb ok
    then Ok ([mkError idx column_name
                      (String.concat "" ["Invalid "; data_type; " value"])
                      (Some value_str) "error" None],
             false)
    else Ok ([], true)
  else if String.eqb data_type "date" then
    if negb (_validate_date value_str)
    then Ok ([mkError idx column_name "Invalid date format" (Some value_str)
                      "warning" None],
             true)
    else Ok ([], true)
  else Ok ([], true).

(** [if pattern and is_valid:] *)
Definition check_pattern (idx : nat) (column_name value_str : string)
           (pattern : option string) (is_valid : bool)
  : Res (list ValidationError * bool) :=
  match truthy pattern with
  | Some pattern =>
      if is_valid then
        let! found := re_match V pattern value_str in
        if negb found
        then Ok ([mkError idx column_name "Value doesn't match required pattern"
                          (Some value_str) "error" None],
                 false)
        else Ok ([], is_valid)
      else Ok ([], is_valid)
  | None => Ok ([], is_valid)
  end.

(** [if allowed_values and is_valid:] *)
Definition check_allowed (idx : nat) (column_name value_str : string)
           (allowed_values : option (list string)) (is_valid : bool)
  : list ValidationError * bool :=
  match truthy_list allowed_values with
  | Some allowed =>
      if is_valid && negb (Engine.mem value_str allowed)
      then ([mkError idx column_name
                     (String.concat "" ["Value not in allowed list: ";
                                        repr_list V (firstn 5 allowed)])
                     (Some value_str) "error" None],
            false)
      else ([], is_valid)
  | None => ([], is_valid)
  end.

(** The counters of [_validate_column]. *)
Record Tally : Type := mkTally {
  t_errors : list ValidationError;
  t_valid : nat;
  t_invalid : nat;
  t_null : nat
}.

(** One turn of the loop over [enumerate(series)]. *)
Definition check_value (column_name data_type : string) (pattern : option string)
           (required : bool) (allowed_values : option (list string))
           (acc : Tally) (idx : nat) (value : Value) : Res Tally :=
  if is_null value then
    if required then
      Ok (mkTally
            (t_errors acc
             ++ [mkError idx column_name "Required field is empty"
                         (if isna value then None else Some (py_str L value))
                         "error" None])
            (t_valid acc) (S (t_invalid acc)) (S (t_null acc)))
    else Ok (mkTally (t_errors acc) (S (t_valid acc)) (t_invalid acc)
                     (S (t_null acc)))
  else
    let value_str := PyStr.strip (py_str L value) in
    let! typed := check_type idx column_name data_type value_str in
    let '(errs1, is_valid) := typed in
    let! matched := check_pattern idx column_name value_str pattern is_valid in
    let '(errs2, is_valid) := matched in
    let '(errs3, is_valid) :=
      check_allowed idx column_name value_str allowed_values is_valid in
    let errors := t_errors acc ++ errs1 ++ errs2 ++ errs3 in
    if is_valid
    then Ok (mkTally errors (S (t_valid acc)) (t_invalid acc) (t_null acc))
    else Ok (mkTally errors (t_valid acc) (S (t_invalid acc)) (t_null acc)).

Fixpoint check_values (column_name data_type : string) (pattern : option string)
         (required : bool) (allowed_values : option (list string))
         (acc : Tally) (idx : nat) (series : list Value) : Res Tally :=
  match series with
  | [] => Ok acc
  | value :: rest =>
      let! acc := check_value column_name data_type pattern required
                              allowed_values acc idx value in
      check_values column_name data_type pattern required allowed_values
                   acc (S idx) rest
  end.

Definition _validate_column (series : list Value) (column_name data_type : string)
           (pattern : option string) (required : bool)
           (allowed_values : option (list string))
  : Res (list ValidationError * ColumnValidation) :=
  let! tally := check_values column_name data_type pattern required allowed_values
                             (mkTally [] 0 0 0) 0 series in
  let total := length series in
  let validation_rate :=
    if (0 <? total)%nat
    then (inject_Z (Z.of_nat (t_valid tally)) / inject_Z (Z.of_nat total))%Q
    else 0%Q in
  Ok (t_errors tally,
      mkColumnValidation column_name (t_valid tally) (t_invalid tally)
                         (t_null tally) validation_rate).

(** The errors of a required column that the frame does not have: one
    for every row. *)
Definition missing_column (df : DataFrame) (column_name : string)
  : list ValidationError :=
  map (fun idx =>
         mkError idx column_name
                 (String.concat "" ["Required column '"; column_name; "' is missing"])
                 None "error" None)
      (seq 0 (nrows df)).

(** One turn of the loop over [target_schema.columns]. *)
Definition validate_target (df : DataFrame)
           (acc : list ValidationError * list ColumnValidation)
           (target_col : TargetColumn)
  : Res (list ValidationError * list ColumnValidation) :=
  let '(errors, column_validations) := acc in
  if negb (has_column (name target_col) df) then
    if required target_col
    then Ok (errors ++ missing_column df (name target_col), column_validations)
    else Ok acc
  else
    let! validated :=
      _validate_column (column (name target_col) df) (name target_col)
                       (data_type target_col) (pattern target_col)
                       (required target_col) (allowed_values target_col) in
    let '(col_errors, col_validation) := validated in
    Ok (errors ++ col_errors, column_validations ++ [col_validation]).

Fixpoint validate_targets (df : DataFrame)
         (acc : list ValidationError * list ColumnValidation)
         (target_cols : list TargetColumn)
  : Res (list ValidationError * list ColumnValidation) :=
  match target_cols with
  | [] => Ok acc
  | target_col :: rest =>
      let! acc := validate_target df acc target_col in
      validate_targets df acc rest
  end.

(** [set(e.row_index for e in errors if e.severity == s)] *)
Definition rows_with (s : string) (errors : list ValidationError) : gset nat :=
  list_to_set (map row_index (List.filter (fun e => String.eqb (severity e) s) errors)).

(** [run(df, target_schema)], up to the construction of the report;
    [target_schema] is given by its columns. *)
Definition run (df : DataFrame) (target_schema : option (list TargetColumn))
  : Res ValidationReport :=
  let target_schema := or_default target_schema GENERIC_CUSTOMER_SCHEMA in
  let! validated := validate_targets df ([], []) target_schema in
  let '(errors, column_validations) := validated in
  let total_rows := nrows df in
  let error_rows := rows_with "error" errors in
  let warning_rows := rows_with "warning" errors ∖ error_rows in
  Ok (mkReport total_rows
               (Z.of_nat total_rows - Z.of_nat (size error_rows))
               (size error_rows) (size warning_rows)
               errors column_validations).

End WithLibrary.

(** The entries of severity "error" among [errors]. *)
Definition count_errors (errors : list ValidationError) : nat :=
  length (List.filter (fun e => String.eqb (severity e) "error") errors).

(** Every entry is about row [idx] of column [column_name], and is an
    error or a warning. *)
Definition about (idx : nat) (column_name : string) (errors : list ValidationError)
  : Prop :=
  Forall (fun e => row_index e = idx /\ column_of e = column_name
                   /\ (severity e = "error" \/ severity e = "warning")) errors.


(** A library for concrete runs: nothing parses as a number or a date,
    and every pattern matches. *)
Definition lenient : ValidateLib :=
  mkValidateLib (fun _ => NotFloat) (fun _ _ => Ok true) (fun _ => false) (fun _ => "[]").

End Validation.

(* ===================================================================== *)
(** ** Transformation Planner: the fallback plan
       ([src/agents/transformation_planner.py]) *)
(* ===================================================================== *)

Module Planner.

Import Plan.
Import Matcher(TargetSchema, TargetColumn, columns, name, common_source_names).
Import Orchestrator(SourceSchemaAnalysis, sa_columns).

(** [s.lower().replace("_", "")] *)
Definition squash (s : string) : string := PyStr.replace "_" "" (PyStr.lower s).

(** The test of the inner loop of [_create_fallback_plan]. *)
Definition names_match (source_col : string) (target_col : TargetColumn) : bool :=
  let source_name := PyStr.replace " " "" (squash source_col) in
  let target_name := squash (name target_col) in
  String.eqb source_name target_name
  || Engine.mem source_name (map squash (common_source_names target_col)).

(** One turn of the outer loop: the first target column that matches,
    if any ([break]). *)
Definition fallback_mapping (target_schema : TargetSchema) (source_col : string)
  : list ColumnMapping :=
  match find (names_match source_col) (columns target_schema) with
  | Some target_col => [mkMapping source_col (name target_col) Direct None]
  | None => []
  end.

(** [_create_fallback_plan].  The call sets [confidence_score],
    [column_mappings] and [warnings]; the other fields are left to the
    defaults of [TransformationPlan], given here as [_parse_plan] gives
    them for a key that is absent. *)
Definition _create_fallback_plan (source_schema : SourceSchemaAnalysis)
           (target_schema : TargetSchema) : TransformationPlan :=
  mkPlan (3 # 10)
         (flat_map (fallback_mapping target_schema) (sa_columns source_schema))
         [] [] ["AI planning failed - using basic name matching"] false [].

End Planner.

(* ===================================================================== *)
(** * Properties *)
(* ===================================================================== *)

(** ** Python string methods: sanity checks *)

Example strip_example : PyStr.strip "  Hello   World  " = "Hello   World".
Proof. reflexivity. Qed.

Example replace_example : PyStr.replace "Rs" "" "Rs.25,000" = ".25,000".
Proof. reflexivity. Qed.

Example split_example : PyStr.split "," "a,b,,c" = Some ["a"; "b"; ""; "c"].
Proof. reflexivity. Qed.

Example float_example : PyStr.float "15000.50" = Some (30001 # 2).
Proof. reflexivity. Qed.

(** ** Function Registry *)

Section RegistryProperties.

Import Registry.

(** Every registered name resolves to its function, whatever its case. *)
Lemma get_registered (f : Fn) : get (fn_name f) = Some f.
Proof. destruct f; reflexivity. Qed.

Example execute_unknown (L : PyLib) :
  execute L "NOPE" VNone no_params no_kwargs = Raise "Unknown function: NOPE".
Proof. reflexivity. Qed.

(** The tests of [tests/test_function_registry.py] that need no library. *)
Example test_split_full_name_three_parts (L : PyLib) :
  execute L "SPLIT_FULL_NAME" (VStr "John William Doe") no_params no_kwargs
  = Ok (name_dict "John" "William" "Doe").
Proof. reflexivity. Qed.

Example test_validate_gstin_valid (L : PyLib) :
  execute L "VALIDATE_GSTIN" (VStr "27AAAAA0000A1Z5") no_params no_kwargs
  = Ok (gstin_result true "27" "AAAAA0000A" "").
Proof. reflexivity. Qed.

Example test_normalize_currency_plain (L : PyLib) :
  execute L "NORMALIZE_CURRENCY" (VStr "1,00,000") no_params no_kwargs
  = Ok (VFloat 100000).
Proof. reflexivity. Qed.

(** The three examples the specification gives for null and empty input. *)
Example null_examples (L : PyLib) :
  execute L "NORMALIZE_CURRENCY" VNone no_params no_kwargs = Ok VNone
  /\ execute L "UPPERCASE" VNone no_params no_kwargs = Ok (VStr "")
  /\ execute L "SPLIT_FULL_NAME" (VStr "") no_params no_kwargs
     = Ok (name_dict "" "" "").
Proof. repeat split; reflexivity. Qed.

(** C5, as stated, fails.  On the empty string the pincode lookup answers
    with the default of an unknown pincode, whose country is "India", and
    not with its all-empty dictionary.  [REGEX_EXTRACT] raises
    [IndexError] when its pattern matches the empty string and the group
    index is negative, and it returns [None] for a group that took no
    part in the match.  [MAP_VALUES] returns the configured default, or
    what the mapping has for the empty string; [CONDITIONAL_FILL] returns
    the configured default or the fallback cell of the row; [CONCATENATE]
    joins the values of its context. *)
Lemma null_input_claim_fails :
  ~ null_input_claim
  /\ execute empty_matches "LOOKUP_PINCODE" (VStr "") no_params no_kwargs
     = Ok (place "" "" "India")
  /\ execute empty_matches "REGEX_EXTRACT" (VStr "") (with_pattern "x*" (-1)) no_kwargs
     = Raise "IndexError: no such group"
  /\ execute empty_matches "REGEX_EXTRACT" (VStr "") (with_pattern "(x)?" 1) no_kwargs
     = Ok VNone
  /\ execute empty_matches "MAP_VALUES" VNone (with_default (VStr "N/A")) no_kwargs
     = Ok (VStr "N/A")
  /\ execute empty_matches "MAP_VALUES" (VStr "") (with_mapping [("", "unknown")])
             no_kwargs
     = Ok (VStr "unknown")
  /\ execute empty_matches "CONDITIONAL_FILL" VNone (with_default (VStr "N/A"))
             no_kwargs
     = Ok (VStr "N/A")
  /\ execute empty_matches "CONDITIONAL_FILL" VNone (with_fallback_col "alt")
             (mkKwargs (Some [("alt", VStr "x")]) None)
     = Ok (VStr "x")
  /\ execute empty_matches "CONCATENATE" VNone no_params
             (mkKwargs None (Some [VStr "a"; VStr "b"]))
     = Ok (VStr "a b").
Proof.
  split; [| repeat split; reflexivity].
  intros H.
  destruct (H empty_matches REGEX_EXTRACT (VStr "") (with_pattern "x*" (-1)) no_kwargs)
    as (r & Hr & _).
  - right; right; reflexivity.
  - discriminate Hr.
Qed.

Lemma conditional_fill_returns (L : PyLib) (v : Value) (p : Params) (kw : Kwargs) :
  exists r, conditional_fill L v p kw = Ok r.
Proof.
  unfold conditional_fill.
  destruct (isna v || _); [| by eexists].
  destruct (kw_row kw) as [row |], (p_fallback_col p) as [c |]; try (by eexists).
  destruct (PyStr.is_empty c); [by eexists |].
  destruct (dict_get c row); by eexists.
Qed.

Lemma map_values_returns (L : PyLib) (v : Value) (p : Params) (kw : Kwargs) :
  exists r, map_values L v p kw = Ok r.
Proof.
  unfold map_values. destruct (isna v); [by eexists |].
  destruct (lookup_ci _ _); by eexists.
Qed.

(** On null input only [REGEX_EXTRACT] can raise. *)
Lemma null_input_returns (L : PyLib) (f : Fn) (v : Value) (p : Params) (kw : Kwargs) :
  null_or_empty v -> f <> REGEX_EXTRACT ->
  exists r, body L f v p kw = Ok r.
Proof.
  intros Hv Hf.
  destruct f; try (exfalso; apply Hf; reflexivity); clear Hf; cbn [body];
    try apply conditional_fill_returns; try apply map_values_returns;
    destruct Hv as [-> | [-> | ->]]; eexists; reflexivity.
Qed.

(** [regex_extract] raises in the situations of [regex_raises], and in no
    other. *)
Lemma regex_extract_raises (L : PyLib) (v : Value) (p : Params) (kw : Kwargs) :
  (exists e, regex_extract L v p kw = Raise e) <-> regex_raises L v p.
Proof.
  unfold regex_extract, regex_raises. cbv zeta.
  set (pattern := or_default (p_pattern p) "").
  set (group_index := or_default (p_group_index p) 0%Z).
  destruct (isna v).
  { split; [intros [e He]; discriminate He | intros [H _]; discriminate H]. }
  destruct (PyStr.is_empty pattern) eqn:Hp.
  { destruct pattern; [| discriminate Hp].
    split; [intros [e He]; discriminate He | intros (_ & H & _); congruence]. }
  assert (Hne : pattern <> "") by (intros E; rewrite E in Hp; discriminate Hp).
  destruct (re_search L pattern (py_str L v)) as [| e | | whole groups].
  - split; [intros [e He]; discriminate He |].
    intros (_ & _ & [[e He] | [(w & g & He) _]]); discriminate He.
  - split; [intros _ | intros _; by exists e].
    split; [reflexivity |]. split; [exact Hne |]. left. by exists e.
  - split; [intros [e He]; discriminate He |].
    intros (_ & _ & [[e He] | [(w & g & He) _]]); discriminate He.
  - pose proof (Nat2Z.is_nonneg (length groups)) as Hlen.
    destruct (group_index =? 0)%Z eqn:H0.
    { apply Z.eqb_eq in H0. split; [intros [e He]; discriminate He |].
      intros (_ & _ & [[e He] | [_ Hneg]]); [discriminate He | lia]. }
    destruct (group_index <=? Z.of_nat (length groups))%Z eqn:Hle.
    + destruct (group_index <? 0)%Z eqn:Hneg.
      * apply Z.ltb_lt in Hneg. split; [intros _ | intros _; eauto].
        split; [reflexivity |]. split; [exact Hne |]. right.
        split; [by exists whole, groups | exact Hneg].
      * apply Z.ltb_ge in Hneg. split; [intros [e He]; discriminate He |].
        intros (_ & _ & [[e He] | [_ Hlt]]); [discriminate He | lia].
    + apply Z.leb_gt in Hle. split; [intros [e He]; discriminate He |].
      intros (_ & _ & [[e He] | [_ Hlt]]); [discriminate He | lia].
Qed.

(** The four functions whose result on null input the params or the
    context can configure, without such a configuration. *)
Lemma regex_extract_unconfigured (L : PyLib) (v : Value) (p : Params) (kw : Kwargs) :
  null_or_empty v -> isna v = true \/ or_default (p_pattern p) "" = "" ->
  regex_extract L v p kw = Ok (VStr "").
Proof.
  intros Hv Hun. unfold regex_extract.
  destruct Hv as [-> | [-> | ->]]; try reflexivity.
  destruct Hun as [Hun | Hun]; [discriminate Hun |].
  cbn [isna]. by rewrite Hun.
Qed.

Lemma map_values_unconfigured (L : PyLib) (v : Value) (p : Params) (kw : Kwargs) :
  null_or_empty v ->
  p_default p = None /\ (isna v = true \/ p_mapping_dict p = None) ->
  map_values L v p kw = Ok (VStr "").
Proof.
  intros Hv [Hd Hm]. unfold map_values. rewrite Hd.
  destruct Hv as [-> | [-> | ->]]; try reflexivity.
  destruct Hm as [Hm | Hm]; [discriminate Hm |].
  cbn [isna]. by rewrite Hm.
Qed.

Lemma conditional_fill_unconfigured (L : PyLib) (v : Value) (p : Params)
      (kw : Kwargs) :
  null_or_empty v ->
  p_default p = None /\ (kw_row kw = None \/ p_fallback_col p = None) ->
  conditional_fill L v p kw = Ok (VStr "").
Proof.
  intros Hv [Hd Hf]. unfold conditional_fill. rewrite Hd.
  assert (Hblank : isna v || PyStr.is_empty (PyStr.strip (py_str L v)) = true)
    by (destruct Hv as [-> | [-> | ->]]; reflexivity).
  rewrite Hblank.
  destruct Hf as [-> | ->]; [reflexivity |].
  by destruct (kw_row kw).
Qed.

Lemma concatenate_unconfigured (L : PyLib) (v : Value) (p : Params) (kw : Kwargs) :
  null_or_empty v -> kw_values kw = None ->
  concatenate L v p kw = Ok (VStr "").
Proof.
  intros Hv Hk. unfold concatenate. rewrite Hk.
  destruct Hv as [-> | [-> | ->]]; reflexivity.
Qed.

(** C5 (amended): every registered function, called by name with [None],
    [NaN] or the empty string, whatever the params and the context,
    returns without raising; nothing is said of [REGEX_EXTRACT] where
    [re.search] raises something other than [re.error], or finds a match
    of which a group of negative index is asked.  What the function
    returns is its empty sentinel unless the params or the context
    configure the result (a pattern, a default or a mapping, a fallback
    cell, a list of values); the one exception is [LOOKUP_PINCODE] on the
    empty string, which answers with the default of an unknown pincode. *)
Theorem registry_total_on_null_input (L : PyLib) (f : Fn) (v : Value)
        (p : Params) (kw : Kwargs) :
  null_or_empty v ->
  ((f = REGEX_EXTRACT -> ~ regex_raises L v p) ->
   exists r, execute L (fn_name f) v p kw = Ok r)
  /\ (unconfigured f v p kw -> ~ (f = LOOKUP_PINCODE /\ v = VStr "") ->
      exists r, execute L (fn_name f) v p kw = Ok r /\ empty_sentinel f r)
  /\ (f = LOOKUP_PINCODE -> v = VStr "" ->
      execute L (fn_name f) v p kw = Ok (place "" "" "India")).
Proof.
  intros Hv. unfold execute. rewrite get_registered.
  split; [| split].
  - intros Hno.
    assert (Hf : f = REGEX_EXTRACT \/ f <> REGEX_EXTRACT)
      by (destruct f; (by left) || (by right)).
    destruct Hf as [-> | Hf]; [| by apply null_input_returns].
    cbn [body]. destruct (regex_extract L v p kw) as [r | e] eqn:E; [by exists r |].
    exfalso. apply (Hno eq_refl), (regex_extract_raises L v p kw). by exists e.
  - intros Hun Hne.
    destruct f; cbn [unconfigured body] in *;
      try (exists (VStr ""); split; [| reflexivity];
           first [ by apply regex_extract_unconfigured
                 | by apply map_values_unconfigured
                 | by apply conditional_fill_unconfigured
                 | by apply concatenate_unconfigured ]);
      destruct Hv as [-> | [-> | ->]];
      try (eexists; split; [reflexivity | reflexivity]);
      try (eexists; split; [reflexivity |]; eexists; split; [| reflexivity];
           discriminate).
    exfalso. apply Hne. split; reflexivity.
  - intros -> ->. reflexivity.
Qed.

Lemma registry_total_on_null_input_witness :
  null_or_empty (VStr "")
  /\ exists r,
       execute no_library (fn_name VALIDATE_GSTIN) (VStr "") no_params no_kwargs = Ok r
       /\ empty_sentinel VALIDATE_GSTIN r.
Proof.
  assert (H : null_or_empty (VStr "")) by (right; right; reflexivity).
  split; [exact H |].
  destruct (registry_total_on_null_input no_library VALIDATE_GSTIN (VStr "")
              no_params no_kwargs H) as (_ & Hsentinel & _).
  apply Hsentinel; [exact I | intros [Hf _]; discriminate Hf].
Defined.

(** What [LOOKUP_PINCODE] does return on the empty string. *)
Example lookup_pincode_empty_string (L : PyLib) :
  execute L "LOOKUP_PINCODE" (VStr "") no_params no_kwargs
  = Ok (place "" "" "India").
Proof. reflexivity. Qed.

(** C6: the first and the third example of the specification hold; on
    "Rs.25,000" the symbol "Rs" is removed before "Rs." is looked
    for, the dot stays, and the result is 0.25 instead of 25000.0. *)
Theorem normalize_currency_examples (L : PyLib) :
  execute L "NORMALIZE_CURRENCY" (VStr "₹ 15,000.50") no_params no_kwargs
  = Ok (VFloat (30001 # 2))
  /\ execute L "NORMALIZE_CURRENCY" (VStr "(500)") no_params no_kwargs
     = Ok (VFloat (-500))
  /\ execute L "NORMALIZE_CURRENCY" (VStr "Rs.25,000") no_params no_kwargs
     = Ok (VFloat (1 # 4)).
Proof. repeat split; reflexivity. Qed.

(** The step at which the dot survives. *)
Example strip_symbols_rs_dot : strip_symbols "Rs.25,000" = ".25,000".
Proof. reflexivity. Qed.

End RegistryProperties.

(** ** Execution Engine *)

Section EngineProperties.

Import Registry Plan Engine.

Variable L : PyLib.

Lemma frames_write_frame_ne (l l' : nat) (df : DataFrame) (st : State) :
  l <> l' -> frames (write_frame l df st) !! l' = frames st !! l'.
Proof. intros Hne. unfold write_frame; simpl. by rewrite lookup_insert_ne. Qed.

Lemma frame_at_write_frame (l : nat) (df : DataFrame) (st : State) :
  frame_at l (write_frame l df st) = df.
Proof. unfold frame_at, write_frame; simpl. by rewrite lookup_total_insert_eq. Qed.

(** A new object is no object of the store. *)
Lemma alloc_is_new (df : DataFrame) (st : State) (l' : nat) :
  is_Some (frames st !! l') -> fst (alloc df st) <> l'.
Proof.
  intros Hsome Heq. unfold alloc in Heq; simpl in Heq.
  apply elem_of_dom in Hsome. rewrite <- Heq in Hsome.
  by apply is_fresh in Hsome.
Qed.

Lemma alloc_keeps (df : DataFrame) (st : State) (l' : nat) :
  is_Some (frames st !! l') ->
  frames (snd (alloc df st)) !! l' = frames st !! l'.
Proof.
  intros Hsome. unfold alloc; simpl.
  apply lookup_insert_ne. by apply (alloc_is_new df).
Qed.

Lemma transformation_step_keeps (l l' : nat) (st : State) (t : Transformation) :
  l <> l' -> frames (transformation_step L l st t) !! l' = frames st !! l'.
Proof.
  intros Hne. unfold transformation_step.
  destruct (_apply_single_transformation L (frame_at l st) t); simpl.
  - by rewrite lookup_insert_ne.
  - reflexivity.
Qed.

Lemma enrichment_step_keeps (l l' : nat) (st : State) (e : Enrichment) :
  l <> l' -> frames (enrichment_step L l st e) !! l' = frames st !! l'.
Proof.
  intros Hne. unfold enrichment_step.
  destruct (_apply_single_enrichment L (frame_at l st) e); simpl.
  - by rewrite lookup_insert_ne.
  - reflexivity.
Qed.

Lemma _apply_transformations_keeps (l l' : nat) (plan : TransformationPlan)
      (st : State) :
  l <> l' -> frames (_apply_transformations L l plan st) !! l' = frames st !! l'.
Proof.
  intros Hne. unfold _apply_transformations.
  generalize dependent st.
  induction (transformations plan) as [| t ts IH]; intros st; simpl.
  - reflexivity.
  - rewrite IH. by apply transformation_step_keeps.
Qed.

Lemma _apply_enrichments_keeps (l l' : nat) (plan : TransformationPlan)
      (st : State) :
  l <> l' -> frames (_apply_enrichments L l plan st) !! l' = frames st !! l'.
Proof.
  intros Hne. unfold _apply_enrichments.
  generalize dependent st.
  induction (enrichments plan) as [| e es IH]; intros st; simpl.
  - reflexivity.
  - rewrite IH. by apply enrichment_step_keeps.
Qed.

Lemma _apply_column_mappings_keeps (l l' : nat) (plan : TransformationPlan)
      (st : State) :
  is_Some (frames st !! l') ->
  frames (snd (_apply_column_mappings l plan st)) !! l' = frames st !! l'.
Proof.
  intros Hsome. unfold _apply_column_mappings.
  destruct (projection (frame_at l st) plan) as [target_df | e]; [| reflexivity].
  destruct (alloc target_df st) as [target st'] eqn:Ha.
  simpl. change st' with (snd (target, st')). rewrite <- Ha.
  by apply alloc_keeps.
Qed.

(** Every frame of the store is, after [execute], what it was before. *)
Lemma execute_keeps_store (l l' : nat) (plan : TransformationPlan) (st : State) :
  is_Some (frames st !! l') ->
  frames (snd (execute L l plan st)) !! l' = frames st !! l'.
Proof.
  intros Hsome. unfold execute.
  set (st0 := mkState (frames st) []).
  destruct (alloc (frame_at l st0) st0) as [copy st1] eqn:Ha.
  assert (Hcopy : copy <> l').
  { change copy with (fst (copy, st1)). rewrite <- Ha. by apply alloc_is_new. }
  assert (H1 : frames st1 !! l' = frames st !! l').
  { change st1 with (snd (copy, st1)). rewrite <- Ha.
    by apply (alloc_keeps (frame_at l st0) st0). }
  rewrite _apply_column_mappings_keeps.
  - rewrite _apply_enrichments_keeps, _apply_transformations_keeps by done. exact H1.
  - rewrite _apply_enrichments_keeps, _apply_transformations_keeps by done.
    by rewrite H1.
Qed.

(** C10: [execute] works on a copy; the caller's frame has, afterwards, the
    columns and the values it had before, whatever the plan contains. *)
Theorem execute_leaves_input_unchanged (l : nat) (plan : TransformationPlan)
        (st : State) (df : DataFrame) :
  frames st !! l = Some df ->
  frames (snd (execute L l plan st)) !! l = Some df.
Proof.
  intros Hdf. rewrite execute_keeps_store; [exact Hdf | by rewrite Hdf].
Qed.

(** *** Columns of a frame *)

Lemma mem_true_iff (c : string) (l : list string) : mem c l = true <-> In c l.
Proof.
  unfold mem. rewrite existsb_exists. split.
  - intros (x & Hin & Heq). apply String.eqb_eq in Heq. by subst.
  - intros Hin. exists c. split; [done | apply String.eqb_refl].
Qed.

Lemma dict_get_assoc_set_eq {A} (k : string) (v : A) (d : list (string * A)) :
  dict_get k (assoc_set k v d) = Some v.
Proof.
  induction d as [| [k' v'] d IH]; simpl.
  - by rewrite String.eqb_refl.
  - destruct (String.eqb k k') eqn:E; simpl; rewrite ?String.eqb_refl, ?E; done.
Qed.

Lemma dict_get_assoc_set_ne {A} (k k' : string) (v : A) (d : list (string * A)) :
  k <> k' -> dict_get k' (assoc_set k v d) = dict_get k' d.
Proof.
  intros Hne. induction d as [| [k0 v0] d IH]; simpl.
  - apply String.eqb_neq in Hne. rewrite String.eqb_sym in Hne. by rewrite Hne.
  - destruct (String.eqb k k0) eqn:E; simpl.
    + apply String.eqb_eq in E. subst k0.
      apply String.eqb_neq in Hne. rewrite String.eqb_sym in Hne. by rewrite Hne.
    + by rewrite IH.
Qed.

Lemma keys_assoc_set {A} (c k : string) (v : A) (d : list (string * A)) :
  mem c (map fst (assoc_set k v d)) = String.eqb c k || mem c (map fst d).
Proof.
  unfold mem. induction d as [| [k0 v0] d IH]; simpl.
  - reflexivity.
  - destruct (String.eqb k k0) eqn:E; simpl.
    + apply String.eqb_eq in E. subst k0. by destruct (String.eqb c k).
    + rewrite IH. destruct (String.eqb c k), (String.eqb c k0); reflexivity.
Qed.

Lemma column_set_column_eq (c : string) (s : list Value) (df : DataFrame) :
  column c (set_column c s df) = s.
Proof. unfold column, set_column; simpl. by rewrite dict_get_assoc_set_eq. Qed.

Lemma column_set_column_ne (c c' : string) (s : list Value) (df : DataFrame) :
  c <> c' -> column c' (set_column c s df) = column c' df.
Proof.
  intros Hne. unfold column, set_column; simpl. by rewrite dict_get_assoc_set_ne.
Qed.

Lemma has_column_set_column (c c' : string) (s : list Value) (df : DataFrame) :
  has_column c' (set_column c s df) = String.eqb c' c || has_column c' df.
Proof. unfold has_column, columns, set_column; simpl. apply keys_assoc_set. Qed.

(** Assigning columns other than [c] leaves [c] as it is. *)
Lemma fold_set_column_other (c : string) (f : string -> list Value)
      (out : list string) (df : DataFrame) :
  ~ In c out ->
  let df' := fold_left (fun df col => set_column col (f col) df) out df in
  column c df' = column c df /\ has_column c df' = has_column c df.
Proof.
  revert df. induction out as [| o out IH]; intros df Hnot; simpl.
  - done.
  - assert (Hne : o <> c) by (intros ->; apply Hnot; by left).
    destruct (IH (set_column o (f o) df)) as [Hc Hh].
    { intros Hin. apply Hnot. by right. }
    simpl in Hc, Hh. rewrite Hc, Hh. split.
    + by apply column_set_column_ne.
    + rewrite has_column_set_column.
      assert (String.eqb c o = false) as ->; [| done].
      apply String.eqb_neq. congruence.
Qed.

(** *** Phases 1 and 2 touch only what they write *)

Lemma untouched_refl (c : string) (df : DataFrame) : untouched c df df.
Proof. by split. Qed.

Lemma untouched_trans (c : string) (df1 df2 df3 : DataFrame) :
  untouched c df1 df2 -> untouched c df2 df3 -> untouched c df1 df3.
Proof. intros [H1 H2] [H3 H4]. split; congruence. Qed.

Lemma untouched_set_column (c o : string) (s : list Value) (df : DataFrame) :
  o <> c -> untouched c df (set_column o s df).
Proof.
  intros Hne. split.
  - by apply column_set_column_ne.
  - rewrite has_column_set_column.
    assert (String.eqb c o = false) as ->; [| done].
    apply String.eqb_neq. congruence.
Qed.

Lemma multi_column_untouched (df df' : DataFrame) (t : Transformation) (c : string) :
  multi_column L df t = Ok df' -> ~ In c (written_by t) -> untouched c df df'.
Proof.
  unfold multi_column, written_by. intros Hrun Hnot.
  destruct (truthy_list (input_cols t)) as [ins |]; [| injection Hrun as <-; apply untouched_refl].
  destruct (truthy (output_col t)) as [out |] eqn:Eout;
    [| injection Hrun as <-; apply untouched_refl].
  destruct (map_res _ (rows df)) as [series | e]; simpl in Hrun; [| discriminate].
  injection Hrun as <-. apply untouched_set_column.
  intros ->. apply Hnot. apply in_or_app. right. by left.
Qed.

Lemma transformation_untouched (df df' : DataFrame) (t : Transformation) (c : string) :
  _apply_single_transformation L df t = Ok df' ->
  ~ In c (written_by t) -> untouched c df df'.
Proof.
  unfold _apply_single_transformation. intros Hrun Hnot.
  destruct (truthy (input_col t)) as [inp |] eqn:Einp;
    [| by apply (multi_column_untouched df df' t)].
  destruct (has_column inp df); [| by apply (multi_column_untouched df df' t)].
  unfold written_by in Hnot. rewrite Einp in Hnot.
  destruct (mem (t_function t) dict_functions).
  - destruct (map_res _ (column inp df)) as [results | e]; simpl in Hrun; [| discriminate].
    destruct (truthy_list (output_cols t)) as [out |].
    + injection Hrun as <-.
      apply (fold_set_column_other c (fun col => map (dict_field col) results)).
      intros Hin. apply Hnot. apply in_or_app. by left.
    + destruct (truthy (output_col t)) as [o |].
      * destruct (map_res first_value results) as [firsts | e]; simpl in Hrun;
          [| discriminate].
        injection Hrun as <-. apply untouched_set_column.
        intros ->. apply Hnot. simpl. by left.
      * injection Hrun as <-. apply untouched_refl.
  - assert (Hout : or_default (truthy (output_col t)) inp <> c).
    { intros <-. apply Hnot. apply in_or_app. right.
      destruct (truthy (output_col t)); simpl; by left. }
    destruct (String.eqb (t_function t) "CONDITIONAL_FILL").
    + destruct (map_res _ (rows df)) as [series | e]; simpl in Hrun; [| discriminate].
      injection Hrun as <-. by apply untouched_set_column.
    + destruct (map_res _ (column inp df)) as [series | e]; simpl in Hrun;
        [| discriminate].
      injection Hrun as <-. by apply untouched_set_column.
Qed.

Lemma enrichment_untouched (df df' : DataFrame) (e : Enrichment) (c : string) :
  _apply_single_enrichment L df e = Ok df' ->
  ~ In c (target_cols e) -> untouched c df df'.
Proof.
  unfold _apply_single_enrichment. intros Hrun Hnot.
  destruct (has_column (trigger_col e) df); simpl in Hrun;
    [| injection Hrun as <-; apply untouched_refl].
  destruct (map_res _ (column (trigger_col e) df)) as [results | err];
    simpl in Hrun; [| discriminate].
  injection Hrun as <-.
  by apply (fold_set_column_other c (fun col => map (enrich_field col) results)).
Qed.

(** A column no transformation and no enrichment writes is, in the working
    frame, the column of the caller's frame. *)
Lemma working_untouched (df : DataFrame) (plan : TransformationPlan) (c : string) :
  ~ In c (written plan) -> untouched c df (working L df plan).
Proof.
  unfold written, working. intros Hnot.
  assert (H1 : ~ In c (flat_map written_by (transformations plan)))
    by (intros H; apply Hnot, in_or_app; by left).
  assert (H2 : ~ In c (flat_map target_cols (enrichments plan)))
    by (intros H; apply Hnot, in_or_app; by right).
  clear Hnot.
  apply untouched_trans with
    (df2 := fold_left (fun df t => keep_on_raise df (_apply_single_transformation L df t))
                      (transformations plan) df).
  - revert df. induction (transformations plan) as [| t ts IH]; intros df; simpl.
    + apply untouched_refl.
    + simpl in H1.
      apply untouched_trans with
        (df2 := keep_on_raise df (_apply_single_transformation L df t)).
      * destruct (_apply_single_transformation L df t) eqn:E; simpl.
        -- apply (transformation_untouched df _ t); [done |].
           intros H. apply H1, in_or_app. by left.
        -- apply untouched_refl.
      * apply IH. intros H. apply H1, in_or_app. by right.
  - generalize (fold_left (fun df t => keep_on_raise df (_apply_single_transformation L df t))
                          (transformations plan) df).
    induction (enrichments plan) as [| e es IH]; intros d; simpl.
    + apply untouched_refl.
    + simpl in H2.
      apply untouched_trans with
        (df2 := keep_on_raise d (_apply_single_enrichment L d e)).
      * destruct (_apply_single_enrichment L d e) eqn:E; simpl.
        -- apply (enrichment_untouched d _ e); [done |].
           intros H. apply H2, in_or_app. by left.
        -- apply untouched_refl.
      * apply IH. intros H. apply H2, in_or_app. by right.
Qed.

(** *** Phases 1 and 2 keep the frame rectangular *)

Lemma map_res_length {A B} (f : A -> Res B) (l : list A) (r : list B) :
  map_res f l = Ok r -> length r = length l.
Proof.
  revert r. induction l as [| a l IH]; intros r; simpl.
  - intros [= <-]. reflexivity.
  - destruct (f a); [| discriminate].
    destruct (map_res f l); [| discriminate].
    intros [= <-]. simpl. f_equal. by apply IH.
Qed.

Lemma rows_length (df : DataFrame) : length (rows df) = nrows df.
Proof. unfold rows. by rewrite length_map, length_seq. Qed.

Lemma column_length (c : string) (df : DataFrame) :
  well_formed df -> has_column c df = true -> length (column c df) = nrows df.
Proof.
  unfold well_formed, has_column, columns, column, mem.
  destruct df as [n cs]; simpl.
  induction cs as [| [k v] cs IH]; simpl; intros Hwf Hc.
  - discriminate.
  - apply Forall_cons in Hwf as [Hv Hrest]. simpl in Hv.
    destruct (String.eqb c k); simpl in *; [done |]. by apply IH.
Qed.

Lemma set_column_rectangular (c : string) (s : list Value) (df : DataFrame) :
  well_formed df -> length s = nrows df -> rectangular df (set_column c s df).
Proof.
  intros Hwf Hlen. assert (Hn : nrows (set_column c s df) = nrows df).
  { unfold set_column; simpl. destruct (cols df), (nrows df); simpl; congruence. }
  split; [| exact Hn]. unfold well_formed. rewrite Hn.
  unfold well_formed in Hwf. unfold set_column; simpl.
  induction Hwf as [| [k v] cs Hv Hrest IH]; simpl.
  - by constructor.
  - destruct (String.eqb c k); constructor; simpl; done.
Qed.

Lemma fold_set_column_rectangular (f : string -> list Value) (out : list string)
      (df : DataFrame) :
  well_formed df -> (forall col, length (f col) = nrows df) ->
  rectangular df (fold_left (fun df col => set_column col (f col) df) out df).
Proof.
  revert df. induction out as [| o out IH]; intros df Hwf Hlen; simpl.
  - by split.
  - destruct (set_column_rectangular o (f o) df Hwf (Hlen o)) as [Hwf' Hn'].
    destruct (IH (set_column o (f o) df) Hwf') as [Hwf'' Hn''].
    + intros col. by rewrite Hn'.
    + split; [done | congruence].
Qed.

Lemma multi_column_rectangular (df df' : DataFrame) (t : Transformation) :
  multi_column L df t = Ok df' -> well_formed df -> rectangular df df'.
Proof.
  unfold multi_column. intros Hrun Hwf.
  destruct (truthy_list (input_cols t)) as [ins |]; [| injection Hrun as <-; by split].
  destruct (truthy (output_col t)) as [out |]; [| injection Hrun as <-; by split].
  destruct (map_res _ (rows df)) as [series | e] eqn:E; simpl in Hrun; [| discriminate].
  injection Hrun as <-. apply set_column_rectangular; [done |].
  apply map_res_length in E. by rewrite E, rows_length.
Qed.

Lemma transformation_rectangular (df df' : DataFrame) (t : Transformation) :
  _apply_single_transformation L df t = Ok df' -> well_formed df ->
  rectangular df df'.
Proof.
  unfold _apply_single_transformation. intros Hrun Hwf.
  destruct (truthy (input_col t)) as [inp |];
    [| by apply (multi_column_rectangular df df' t)].
  destruct (has_column inp df) eqn:Hinp;
    [| by apply (multi_column_rectangular df df' t)].
  pose proof (column_length inp df Hwf Hinp) as Hlen.
  destruct (mem (t_function t) dict_functions).
  - destruct (map_res _ (column inp df)) as [results | e] eqn:E; simpl in Hrun;
      [| discriminate].
    apply map_res_length in E.
    destruct (truthy_list (output_cols t)) as [out |].
    + injection Hrun as <-.
      apply (fold_set_column_rectangular (fun col => map (dict_field col) results));
        [done |].
      intros col. rewrite length_map. congruence.
    + destruct (truthy (output_col t)) as [o |].
      * destruct (map_res first_value results) as [firsts | e] eqn:E2;
          simpl in Hrun; [| discriminate].
        injection Hrun as <-. apply map_res_length in E2.
        apply set_column_rectangular; [done | congruence].
      * injection Hrun as <-. by split.
  - destruct (String.eqb (t_function t) "CONDITIONAL_FILL").
    + destruct (map_res _ (rows df)) as [series | e] eqn:E; simpl in Hrun;
        [| discriminate].
      injection Hrun as <-. apply map_res_length in E.
      apply set_column_rectangular; [done |]. by rewrite E, rows_length.
    + destruct (map_res _ (column inp df)) as [series | e] eqn:E; simpl in Hrun;
        [| discriminate].
      injection Hrun as <-. apply map_res_length in E.
      apply set_column_rectangular; [done | congruence].
Qed.

Lemma enrichment_rectangular (df df' : DataFrame) (e : Enrichment) :
  _apply_single_enrichment L df e = Ok df' -> well_formed df -> rectangular df df'.
Proof.
  unfold _apply_single_enrichment. intros Hrun Hwf.
  destruct (has_column (trigger_col e) df) eqn:Htrig; simpl in Hrun;
    [| injection Hrun as <-; by split].
  pose proof (column_length _ df Hwf Htrig) as Hlen.
  destruct (map_res _ (column (trigger_col e) df)) as [results | err] eqn:E;
    simpl in Hrun; [| discriminate].
  injection Hrun as <-. apply map_res_length in E.
  apply (fold_set_column_rectangular (fun col => map (enrich_field col) results));
    [done |].
  intros col. rewrite length_map. congruence.
Qed.

Lemma working_rectangular (df : DataFrame) (plan : TransformationPlan) :
  well_formed df -> rectangular df (working L df plan).
Proof.
  unfold working. intros Hwf.
  assert (H1 : rectangular df
                 (fold_left (fun df t => keep_on_raise df (_apply_single_transformation L df t))
                            (transformations plan) df)).
  { revert df Hwf. induction (transformations plan) as [| t ts IH]; intros df Hwf; simpl.
    - by split.
    - assert (Hstep : rectangular df (keep_on_raise df (_apply_single_transformation L df t))).
      { destruct (_apply_single_transformation L df t) eqn:E; simpl.
        - by apply (transformation_rectangular df _ t).
        - by split. }
      destruct Hstep as [Hwf' Hn']. destruct (IH _ Hwf') as [Hwf'' Hn''].
      split; [done | congruence]. }
  assert (H2 : forall d, well_formed d ->
                 rectangular d
                   (fold_left (fun df e => keep_on_raise df (_apply_single_enrichment L df e))
                              (enrichments plan) d)).
  { induction (enrichments plan) as [| e es IH]; intros d Hd; simpl.
    - by split.
    - assert (Hstep : rectangular d (keep_on_raise d (_apply_single_enrichment L d e))).
      { destruct (_apply_single_enrichment L d e) eqn:E; simpl.
        - by apply (enrichment_rectangular d _ e).
        - by split. }
      destruct Hstep as [Hwf' Hn']. destruct (IH _ Hwf') as [Hwf'' Hn''].
      split; [done | congruence]. }
  destruct H1 as [Hwf1 Hn1]. destruct (H2 _ Hwf1) as [Hwf2 Hn2].
  split; [done | congruence].
Qed.

(** *** Frames with distinct labels *)

Lemma filter_absent (c : string) (l : list string) :
  ~ In c l -> List.filter (String.eqb c) l = [].
Proof.
  induction l as [| x l IH]; intros H; simpl; [reflexivity |].
  destruct (String.eqb c x) eqn:E.
  - apply String.eqb_eq in E. subst x. exfalso. apply H. by left.
  - apply IH. intros Hin. apply H. by right.
Qed.

Lemma not_repeated (c : string) (df : DataFrame) :
  distinct_labels df -> repeated c df = false.
Proof.
  unfold distinct_labels, repeated. intros Hnd. apply Nat.ltb_ge.
  induction (columns df) as [| x l IH]; simpl; [lia |].
  apply NoDup_cons in Hnd as [Hx Hnd].
  destruct (String.eqb c x) eqn:E; [| by apply IH].
  apply String.eqb_eq in E. subst x.
  rewrite filter_absent; [simpl; lia |].
  intros Hin. apply Hx. by apply list_elem_of_In.
Qed.

Lemma set_column_distinct (c : string) (s : list Value) (df : DataFrame) :
  distinct_labels df -> distinct_labels (set_column c s df).
Proof.
  unfold distinct_labels, columns, set_column; simpl.
  induction (cols df) as [| [k v] d IH]; simpl; intros Hnd.
  - apply NoDup_singleton.
  - apply NoDup_cons in Hnd as [Hk Hnd].
    destruct (String.eqb c k) eqn:E; simpl.
    + apply String.eqb_eq in E. subst k. apply NoDup_cons. by split.
    + apply NoDup_cons. split; [| by apply IH].
      intros Hin. apply list_elem_of_In, mem_true_iff in Hin.
      rewrite keys_assoc_set in Hin. apply orb_true_iff in Hin as [Hin | Hin].
      * apply String.eqb_eq in Hin. subst k. by rewrite String.eqb_refl in E.
      * apply Hk. by apply list_elem_of_In, mem_true_iff.
Qed.

(** What every assignment keeps, phases 1 and 2 keep. *)
Section Preserved.

Variable P : DataFrame -> Prop.
Hypothesis P_set_column : forall c s df, P df -> P (set_column c s df).

Lemma fold_set_column_preserves (f : string -> list Value) (out : list string)
      (df : DataFrame) :
  P df -> P (fold_left (fun df col => set_column col (f col) df) out df).
Proof.
  revert df. induction out as [| o out IH]; intros df H; simpl; [exact H |].
  apply IH, P_set_column, H.
Qed.

Lemma multi_column_preserves (df df' : DataFrame) (t : Transformation) :
  multi_column L df t = Ok df' -> P df -> P df'.
Proof.
  unfold multi_column. intros Hrun H.
  destruct (truthy_list (input_cols t)) as [ins |]; [| by injection Hrun as <-].
  destruct (truthy (output_col t)) as [out |]; [| by injection Hrun as <-].
  destruct (map_res _ (rows df)) as [series | e]; simpl in Hrun; [| discriminate].
  injection Hrun as <-. by apply P_set_column.
Qed.

Lemma transformation_preserves (df df' : DataFrame) (t : Transformation) :
  _apply_single_transformation L df t = Ok df' -> P df -> P df'.
Proof.
  unfold _apply_single_transformation. intros Hrun H.
  destruct (truthy (input_col t)) as [inp |];
    [| by apply (multi_column_preserves df df' t)].
  destruct (has_column inp df); [| by apply (multi_column_preserves df df' t)].
  destruct (mem (t_function t) dict_functions).
  - destruct (map_res _ (column inp df)) as [results | e]; simpl in Hrun;
      [| discriminate].
    destruct (truthy_list (output_cols t)) as [out |].
    + injection Hrun as <-.
      by apply (fold_set_column_preserves (fun col => map (dict_field col) results)).
    + destruct (truthy (output_col t)) as [o |]; [| by injection Hrun as <-].
      destruct (map_res first_value results) as [firsts | e]; simpl in Hrun;
        [| discriminate].
      injection Hrun as <-. by apply P_set_column.
  - destruct (String.eqb (t_function t) "CONDITIONAL_FILL").
    + destruct (map_res _ (rows df)) as [series | e]; simpl in Hrun; [| discriminate].
      injection Hrun as <-. by apply P_set_column.
    + destruct (map_res _ (column inp df)) as [series | e]; simpl in Hrun;
        [| discriminate].
      injection Hrun as <-. by apply P_set_column.
Qed.

Lemma enrichment_preserves (df df' : DataFrame) (e : Enrichment) :
  _apply_single_enrichment L df e = Ok df' -> P df -> P df'.
Proof.
  unfold _apply_single_enrichment. intros Hrun H.
  destruct (has_column (trigger_col e) df); simpl in Hrun;
    [| by injection Hrun as <-].
  destruct (map_res _ (column (trigger_col e) df)) as [results | err];
    simpl in Hrun; [| discriminate].
  injection Hrun as <-.
  by apply (fold_set_column_preserves (fun col => map (enrich_field col) results)).
Qed.

Lemma working_preserves (df : DataFrame) (plan : TransformationPlan) :
  P df -> P (working L df plan).
Proof.
  unfold working. intros H.
  assert (H1 : P (fold_left
                    (fun df t => keep_on_raise df (_apply_single_transformation L df t))
                    (transformations plan) df)).
  { revert df H. induction (transformations plan) as [| t ts IH]; intros df H; simpl;
      [exact H |].
    apply IH. destruct (_apply_single_transformation L df t) eqn:E; simpl;
      [by apply (transformation_preserves df _ t) | exact H]. }
  revert H1.
  generalize (fold_left
                (fun df t => keep_on_raise df (_apply_single_transformation L df t))
                (transformations plan) df).
  induction (enrichments plan) as [| e es IH]; intros d Hd; simpl; [exact Hd |].
  apply IH. destruct (_apply_single_enrichment L d e) eqn:E; simpl;
    [by apply (enrichment_preserves d _ e) | exact Hd].
Qed.

End Preserved.

Lemma working_distinct (df : DataFrame) (plan : TransformationPlan) :
  distinct_labels df -> distinct_labels (working L df plan).
Proof. apply working_preserves, set_column_distinct. Qed.

(** *** Phase 3 does not raise on distinct labels *)

Lemma fold_res_ok {A B} (f : A -> B -> Res A) (g : A -> B -> A) (l : list B) (a : A) :
  (forall a b, f a b = Ok (g a b)) -> fold_res f l a = Ok (fold_left g l a).
Proof.
  intros H. revert a. induction l as [| b l IH]; intros a; simpl; [reflexivity |].
  rewrite H. simpl. apply IH.
Qed.

Lemma assign_ok (target c : string) (df target_df : DataFrame) :
  distinct_labels df ->
  assign target c df target_df = Ok (set_column target (column c df) target_df).
Proof. intros Hnd. unfold assign. by rewrite not_repeated. Qed.

Lemma mapping_step_mapped (df target_df : DataFrame) (m : ColumnMapping) :
  distinct_labels df -> mapping_step df target_df m = Ok (mapped df target_df m).
Proof.
  intros Hnd. unfold mapping_step, mapped.
  destruct (action m); [| | reflexivity];
    repeat match goal with
           | |- context [if has_column ?c df then _ else _] => destruct (has_column c df)
           end; try reflexivity; by apply assign_ok.
Qed.

Lemma enrichment_column_step_kept (df : DataFrame) (plan : TransformationPlan)
      (target_df : DataFrame) (col : string) :
  distinct_labels df ->
  enrichment_column_step df plan target_df col = Ok (kept df plan target_df col).
Proof.
  intros Hnd. unfold enrichment_column_step, kept.
  destruct (_ && _); [by apply assign_ok | reflexivity].
Qed.

Lemma projection_projected (df : DataFrame) (plan : TransformationPlan) :
  distinct_labels df -> projection df plan = Ok (projected df plan).
Proof.
  intros Hnd. unfold projection, projected.
  rewrite (fold_res_ok (mapping_step df) (mapped df))
    by (intros; by apply mapping_step_mapped).
  simpl. apply fold_res_ok. intros. by apply enrichment_column_step_kept.
Qed.

(** *** [execute] computes [result_frame] *)

Lemma frame_at_warn (l : nat) (w : string) (st : State) :
  frame_at l (warn w st) = frame_at l st.
Proof. reflexivity. Qed.

Lemma frame_at_lookup (l : nat) (st : State) (df : DataFrame) :
  frames st !! l = Some df -> frame_at l st = df.
Proof. intros H. unfold frame_at. by rewrite lookup_total_alt, H. Qed.

Lemma _apply_transformations_frame (l : nat) (plan : TransformationPlan) (st : State) :
  is_Some (frames st !! l) ->
  is_Some (frames (_apply_transformations L l plan st) !! l)
  /\ frame_at l (_apply_transformations L l plan st)
     = fold_left (fun df t => keep_on_raise df (_apply_single_transformation L df t))
                 (transformations plan) (frame_at l st).
Proof.
  unfold _apply_transformations. revert st.
  induction (transformations plan) as [| t ts IH]; intros st Hsome; simpl.
  - done.
  - assert (Hstep : is_Some (frames (transformation_step L l st t) !! l)
                    /\ frame_at l (transformation_step L l st t)
                       = keep_on_raise (frame_at l st)
                           (_apply_single_transformation L (frame_at l st) t)).
    { unfold transformation_step.
      destruct (_apply_single_transformation L (frame_at l st) t); simpl.
      - split; [by rewrite lookup_insert_eq | apply frame_at_write_frame].
      - done. }
    destruct Hstep as [Hsome' Heq]. destruct (IH _ Hsome') as [H1 H2].
    split; [done |]. by rewrite H2, Heq.
Qed.

Lemma _apply_enrichments_frame (l : nat) (plan : TransformationPlan) (st : State) :
  is_Some (frames st !! l) ->
  is_Some (frames (_apply_enrichments L l plan st) !! l)
  /\ frame_at l (_apply_enrichments L l plan st)
     = fold_left (fun df e => keep_on_raise df (_apply_single_enrichment L df e))
                 (enrichments plan) (frame_at l st).
Proof.
  unfold _apply_enrichments. revert st.
  induction (enrichments plan) as [| e es IH]; intros st Hsome; simpl.
  - done.
  - assert (Hstep : is_Some (frames (enrichment_step L l st e) !! l)
                    /\ frame_at l (enrichment_step L l st e)
                       = keep_on_raise (frame_at l st)
                           (_apply_single_enrichment L (frame_at l st) e)).
    { unfold enrichment_step.
      destruct (_apply_single_enrichment L (frame_at l st) e); simpl.
      - split; [by rewrite lookup_insert_eq | apply frame_at_write_frame].
      - done. }
    destruct Hstep as [Hsome' Heq]. destruct (IH _ Hsome') as [H1 H2].
    split; [done |]. by rewrite H2, Heq.
Qed.

Lemma _apply_column_mappings_frame (l : nat) (plan : TransformationPlan) (st : State) :
  is_Some (frames st !! l) ->
  let r := _apply_column_mappings l plan st in
  match projection (frame_at l st) plan with
  | Ok target_df =>
      exists result,
        fst r = Ok result
        /\ frame_at result (snd r)
           = if empty target_df then frame_at l st else target_df
  | Raise e => fst r = Raise e
  end.
Proof.
  intros Hsome. unfold _apply_column_mappings.
  destruct (projection (frame_at l st) plan) as [target_df | e]; [| reflexivity].
  pose proof (alloc_is_new target_df st l Hsome) as Hnew.
  unfold alloc in *. simpl in *.
  set (target := fresh (dom (frames st))) in *.
  rewrite frame_at_write_frame.
  eexists. split; [reflexivity |].
  destruct (empty target_df); simpl.
  - unfold frame_at, write_frame; simpl.
    by rewrite lookup_total_insert_ne.
  - apply frame_at_write_frame.
Qed.

Lemma execute_unfold (l : nat) (plan : TransformationPlan) (st : State) :
  execute L l plan st
  = let st0 := mkState (frames st) [] in
    let copy := fresh (dom (frames st0)) in
    _apply_column_mappings copy plan
      (_apply_enrichments L copy plan
         (_apply_transformations L copy plan
            (write_frame copy (frame_at l st0) st0))).
Proof. reflexivity. Qed.

(** What [execute] hands back, as a function of the caller's frame:
    phase 3 runs on the working frame. *)
Lemma execute_outcome (l : nat) (plan : TransformationPlan) (st : State)
      (df : DataFrame) :
  frames st !! l = Some df ->
  output L l plan st
  = match projection (working L df plan) plan with
    | Ok target_df => Ok (if empty target_df then working L df plan else target_df)
    | Raise e => Raise e
    end.
Proof.
  intros Hdf. unfold output. rewrite execute_unfold. unfold working.
  set (st0 := mkState (frames st) []).
  assert (H0 : frame_at l st0 = df) by (by apply frame_at_lookup).
  rewrite H0. cbv zeta.
  set (copy := fresh (dom (frames st0))).
  set (st1 := write_frame copy df st0).
  assert (Hsome1 : is_Some (frames st1 !! copy))
    by (unfold st1, write_frame; simpl; by rewrite lookup_insert_eq).
  assert (Hst1 : frame_at copy st1 = df) by apply frame_at_write_frame.
  destruct (_apply_transformations_frame copy plan st1 Hsome1) as [Hsome2 Heq2].
  destruct (_apply_enrichments_frame copy plan _ Hsome2) as [Hsome3 Heq3].
  pose proof (_apply_column_mappings_frame copy plan _ Hsome3) as Hmap.
  cbv zeta in Hmap. rewrite Heq3, Heq2, Hst1 in Hmap.
  destruct (projection _ plan) as [target_df | e].
  - destruct Hmap as (result & -> & ->). reflexivity.
  - by rewrite Hmap.
Qed.

Lemma execute_frame (l : nat) (plan : TransformationPlan) (st : State)
      (df : DataFrame) :
  frames st !! l = Some df -> distinct_labels df ->
  output L l plan st = Ok (result_frame L df plan).
Proof.
  intros Hdf Hnd. rewrite (execute_outcome l plan st df Hdf).
  by rewrite projection_projected by (by apply working_distinct).
Qed.

(** *** Phase 3 *)

Lemma mapped_keeps (c : string) (df target_df : DataFrame) (m : ColumnMapping) :
  action m = Skip \/ target_col m <> c ->
  untouched c target_df (mapped df target_df m).
Proof.
  intros H. unfold mapped.
  destruct (action m) eqn:Ha.
  - destruct H as [H | H]; [discriminate |].
    destruct (has_column (source_col m) df); [by apply untouched_set_column |].
    destruct (has_column (target_col m) df);
      [by apply untouched_set_column | apply untouched_refl].
  - destruct H as [H | H]; [discriminate |].
    destruct (has_column (target_col m) df); [by apply untouched_set_column |].
    destruct (has_column (source_col m) df);
      [by apply untouched_set_column | apply untouched_refl].
  - apply untouched_refl.
Qed.

Lemma mappings_keep (c : string) (df : DataFrame) (ms : list ColumnMapping)
      (target_df : DataFrame) :
  (forall m, In m ms -> action m = Skip \/ target_col m <> c) ->
  untouched c target_df (fold_left (mapped df) ms target_df).
Proof.
  revert target_df. induction ms as [| m ms IH]; intros target_df H; simpl.
  - apply untouched_refl.
  - apply untouched_trans with (df2 := mapped df target_df m).
    + apply mapped_keeps, H. by left.
    + apply IH. intros m' Hin. apply H. by right.
Qed.

Lemma enrichment_columns_keep (c : string) (df : DataFrame)
      (plan : TransformationPlan) (cs : list string) (target_df : DataFrame) :
  has_column c target_df = true ->
  untouched c target_df (fold_left (kept df plan) cs target_df).
Proof.
  revert target_df. induction cs as [| col cs IH]; intros target_df Hc; simpl.
  - apply untouched_refl.
  - assert (Hstep : untouched c target_df (kept df plan target_df col)).
    { unfold kept.
      destruct (negb (mem col (map target_col (column_mappings plan)))); simpl;
        [| apply untouched_refl].
      destruct (has_column col target_df) eqn:Hcol; simpl; [apply untouched_refl |].
      destruct (existsb _ (enrichments plan)); [| apply untouched_refl].
      apply untouched_set_column. intros ->. congruence. }
    apply untouched_trans with (1 := Hstep). apply IH.
    destruct Hstep as [_ ->]. exact Hc.
Qed.

Lemma set_column_sized (c x : string) (df target_df : DataFrame) :
  well_formed df -> has_column x df = true -> sized df target_df ->
  sized df (set_column c (column x df) target_df).
Proof.
  intros Hwf Hx Hs. right. unfold set_column; simpl.
  rewrite (column_length x df Hwf Hx).
  destruct Hs as [[-> ->] | Hn]; [done |].
  destruct (cols target_df), (nrows target_df); simpl; congruence.
Qed.

Lemma mappings_sized (df : DataFrame) (ms : list ColumnMapping) (target_df : DataFrame) :
  well_formed df -> sized df target_df ->
  sized df (fold_left (mapped df) ms target_df).
Proof.
  intros Hwf. revert target_df.
  induction ms as [| m ms IH]; intros target_df Hs; simpl; [done |].
  apply IH. unfold mapped.
  destruct (action m); [| | done].
  - destruct (has_column (source_col m) df) eqn:E1; [by apply set_column_sized |].
    destruct (has_column (target_col m) df) eqn:E2; [by apply set_column_sized | done].
  - destruct (has_column (target_col m) df) eqn:E1; [by apply set_column_sized |].
    destruct (has_column (source_col m) df) eqn:E2; [by apply set_column_sized | done].
Qed.

Lemma enrichment_columns_sized (df : DataFrame) (plan : TransformationPlan)
      (cs : list string) (target_df : DataFrame) :
  well_formed df -> (forall col, In col cs -> has_column col df = true) ->
  sized df target_df ->
  sized df (fold_left (kept df plan) cs target_df).
Proof.
  intros Hwf. revert target_df.
  induction cs as [| col cs IH]; intros target_df Hcs Hs; simpl; [done |].
  apply IH; [intros c Hin; apply Hcs; by right |].
  unfold kept.
  destruct (_ && _); [| done].
  apply set_column_sized; [done | | done]. apply Hcs. by left.
Qed.

Lemma projected_sized (df : DataFrame) (plan : TransformationPlan) :
  well_formed df -> sized df (projected df plan).
Proof.
  intros Hwf. unfold projected.
  apply enrichment_columns_sized; [done | |].
  - intros col Hin. unfold has_column. by apply mem_true_iff.
  - apply mappings_sized; [done |]. by left.
Qed.

(** A projected frame that has a column is not empty when the frame it is
    projected from has rows. *)
Lemma projected_not_empty (df : DataFrame) (plan : TransformationPlan) (c : string) :
  well_formed df -> 0 < nrows df -> has_column c (projected df plan) = true ->
  empty (projected df plan) = false.
Proof.
  intros Hwf Hrows Hc. unfold empty.
  destruct (projected_sized df plan Hwf) as [[Hnil _] | Hn].
  - unfold has_column, columns in Hc. rewrite Hnil in Hc. discriminate.
  - rewrite Hn. destruct (cols (projected df plan)) eqn:E.
    + unfold has_column, columns in Hc. rewrite E in Hc. discriminate.
    + destruct (nrows df); [lia | done].
Qed.

(** Where the columns of the projected frame come from. *)
Lemma mappings_columns (c : string) (df : DataFrame) (ms : list ColumnMapping)
      (target_df : DataFrame) :
  has_column c (fold_left (mapped df) ms target_df) = true ->
  has_column c target_df = true
  \/ exists m, In m ms /\ action m <> Skip /\ target_col m = c.
Proof.
  revert target_df. induction ms as [| m ms IH]; intros target_df; simpl; [by left |].
  intros H. destruct (IH _ H) as [Hstep | (m' & Hin & Ha & Ht)];
    [| right; exists m'; split; [by right | done]].
  unfold mapped in Hstep.
  assert (Hset : forall s, has_column c (set_column (target_col m) s target_df) = true ->
                           action m <> Skip ->
                           has_column c target_df = true
                           \/ exists m0, (m = m0 \/ In m0 ms)
                                         /\ action m0 <> Skip /\ target_col m0 = c).
  { intros s Hs Ha. rewrite has_column_set_column in Hs.
    apply orb_true_iff in Hs as [Heq | Hold]; [| by left].
    apply String.eqb_eq in Heq. right. exists m. split; [by left | done]. }
  destruct (action m) eqn:Ha; [| | by left].
  - destruct (has_column (source_col m) df); [eapply Hset; eauto; congruence |].
    destruct (has_column (target_col m) df); [eapply Hset; eauto; congruence | by left].
  - destruct (has_column (target_col m) df); [eapply Hset; eauto; congruence |].
    destruct (has_column (source_col m) df); [eapply Hset; eauto; congruence | by left].
Qed.

Lemma enrichment_columns_columns (c : string) (df : DataFrame)
      (plan : TransformationPlan) (cs : list string) (target_df : DataFrame) :
  has_column c (fold_left (kept df plan) cs target_df) = true ->
  has_column c target_df = true
  \/ mem c (map target_col (column_mappings plan)) = false.
Proof.
  revert target_df. induction cs as [| col cs IH]; intros target_df; simpl; [by left |].
  intros H. destruct (IH _ H) as [Hstep | Hno]; [| by right].
  unfold kept in Hstep.
  destruct (mem col (map target_col (column_mappings plan))) eqn:Hm; simpl in Hstep;
    [by left |].
  destruct (negb (has_column col target_df) && _); [| by left].
  rewrite has_column_set_column in Hstep.
  apply orb_true_iff in Hstep as [Heq | Hold]; [| by left].
  apply String.eqb_eq in Heq. subst. by right.
Qed.

(** *** Column mappings *)

Lemma direct_mapping_projected (df : DataFrame) (plan : TransformationPlan)
      (pre post : list ColumnMapping) (m : ColumnMapping) :
  column_mappings plan = pre ++ m :: post ->
  action m = Direct ->
  has_column (source_col m) df = true ->
  (forall m', In m' post -> action m' = Skip \/ target_col m' <> target_col m) ->
  has_column (target_col m) (projected df plan) = true
  /\ column (target_col m) (projected df plan) = column (source_col m) df.
Proof.
  intros Hsplit Ha Hsrc Hpost. unfold projected. rewrite Hsplit.
  rewrite fold_left_app. simpl.
  set (before := fold_left (mapped df) pre empty_frame).
  assert (Hm : mapped df before m
               = set_column (target_col m) (column (source_col m) df) before).
  { unfold mapped. by rewrite Ha, Hsrc. }
  rewrite Hm.
  set (at_m := set_column (target_col m) (column (source_col m) df) before).
  assert (H0 : has_column (target_col m) at_m = true
               /\ column (target_col m) at_m = column (source_col m) df).
  { unfold at_m. rewrite has_column_set_column, String.eqb_refl.
    split; [done | apply column_set_column_eq]. }
  destruct (mappings_keep (target_col m) df post at_m Hpost) as [Hc1 Hh1].
  destruct H0 as [Hh0 Hc0].
  destruct (enrichment_columns_keep (target_col m) df plan (columns df)
              (fold_left (mapped df) post at_m)) as [Hc2 Hh2].
  { by rewrite Hh1. }
  split; congruence.
Qed.

Lemma skipped_not_projected (df : DataFrame) (plan : TransformationPlan)
      (m : ColumnMapping) :
  In m (column_mappings plan) ->
  (forall m', In m' (column_mappings plan) -> action m' <> Skip ->
              target_col m' <> target_col m) ->
  has_column (target_col m) (projected df plan) = false.
Proof.
  intros Hin Hothers.
  destruct (has_column (target_col m) (projected df plan)) eqn:E; [| done].
  exfalso. unfold projected in E.
  apply enrichment_columns_columns in E as [E | E].
  - apply mappings_columns in E as [E | (m' & Hin' & Ha & Ht)].
    + discriminate.
    + by apply (Hothers m').
  - assert (mem (target_col m) (map target_col (column_mappings plan)) = true);
      [| congruence].
    apply mem_true_iff, in_map_iff. by exists m.
Qed.

End EngineProperties.

Section ColumnMappingCompleteness.

Import Registry Plan Engine.

Lemma distinct_one_name : distinct_labels one_name.
Proof. apply (bool_decide_unpack _). vm_compute. exact I. Qed.

Lemma distinct_two_columns : distinct_labels two_columns.
Proof. apply (bool_decide_unpack _). vm_compute. exact I. Qed.

(** C4, as stated, fails three times: a transformation without
    [output_col] rewrites its input column before the mapping copies it;
    a plan whose projection is empty hands back the whole working frame,
    skipped columns included; and on a table in which the label of the
    source column is repeated the assignment of phase 3 raises, so that
    no table is handed back at all. *)
Lemma column_mapping_claims_fail :
  (forall L, ~ direct_claim L) /\ (forall L, ~ skip_claim L)
  /\ (forall L, exists e, output L 0 copy_id (store_of twice_id) = Raise e).
Proof.
  split; [| split]; intros L0.
  - intros H.
    destruct (H 0 upper_then_copy (store_of one_name) one_name
                (mkMapping "name" "Name" Direct None)) as (out & Hout & _ & Hval);
      [reflexivity | by left | reflexivity | reflexivity |].
    rewrite (execute_frame L0 0 upper_then_copy (store_of one_name) one_name
               eq_refl distinct_one_name) in Hout.
    injection Hout as Hout. rewrite <- Hout in Hval.
    vm_compute in Hval. discriminate Hval.
  - intros H.
    destruct (H 0 skip_only (store_of one_name) one_name
                (mkMapping "name" "name" Skip None)) as (out & Hout & Hval);
      [reflexivity | by left | reflexivity |].
    rewrite (execute_frame L0 0 skip_only (store_of one_name) one_name
               eq_refl distinct_one_name) in Hout.
    injection Hout as Hout. rewrite <- Hout in Hval.
    vm_compute in Hval. discriminate Hval.
  - eexists.
    rewrite (execute_outcome L0 0 copy_id (store_of twice_id) twice_id eq_refl).
    reflexivity.
Qed.

(** C4 (amended), for a table whose column labels are distinct: the
    engine hands back a table.  [direct]: when the input is rectangular
    with at least one row, no transformation or enrichment writes the
    source column and no later mapping other than a [skip] has the same
    target, the output has the target column, with the values the source
    column has in the input.  [skip]: when the projected frame is not
    empty and no other mapping produces the same target, the output has
    no column named after the target. *)
Theorem column_mapping_completeness (L0 : PyLib) (l : nat)
        (plan : TransformationPlan) (st : State) (df : DataFrame) :
  frames st !! l = Some df ->
  distinct_labels df ->
  exists out,
    output L0 l plan st = Ok out
    /\ (forall pre m post,
           column_mappings plan = pre ++ m :: post ->
           action m = Direct ->
           well_formed df -> 0 < nrows df ->
           has_column (source_col m) df = true ->
           ~ In (source_col m) (written plan) ->
           (forall m', In m' post -> action m' = Skip \/ target_col m' <> target_col m) ->
           has_column (target_col m) out = true
           /\ column (target_col m) out = column (source_col m) df)
    /\ (forall m,
           In m (column_mappings plan) ->
           action m = Skip ->
           empty (projected (working L0 df plan) plan) = false ->
           (forall m', In m' (column_mappings plan) -> action m' <> Skip ->
                       target_col m' <> target_col m) ->
           has_column (target_col m) out = false).
Proof.
  intros Hdf Hnd. exists (result_frame L0 df plan).
  split; [by apply execute_frame |].
  unfold result_frame. split.
  - intros pre m post Hsplit Ha Hwf Hrows Hsrc Hnot Hpost.
    destruct (working_untouched L0 df plan (source_col m) Hnot) as [Hcol Hhas].
    destruct (working_rectangular L0 df plan Hwf) as [Hwf' Hn'].
    rewrite Hsrc in Hhas.
    destruct (direct_mapping_projected (working L0 df plan) plan pre post m
                Hsplit Ha Hhas Hpost) as [Hh Hc].
    rewrite (projected_not_empty (working L0 df plan) plan (target_col m));
      [| done | lia | done].
    split; congruence.
  - intros m Hin Ha Hne Hothers. rewrite Hne.
    by apply skipped_not_projected.
Qed.

Lemma column_mapping_completeness_witness :
  frames (store_of two_columns) !! 0 = Some two_columns
  /\ distinct_labels two_columns
  /\ exists out,
       output no_library 0 copy_and_skip (store_of two_columns) = Ok out
       /\ (has_column "customer_id" out = true
           /\ column "customer_id" out = [VStr "1"; VStr "2"])
       /\ has_column "remarks" out = false.
Proof.
  split; [reflexivity |]. split; [exact distinct_two_columns |].
  destruct (column_mapping_completeness no_library 0 copy_and_skip
              (store_of two_columns) two_columns eq_refl distinct_two_columns)
    as (out & Hout & Hdirect & Hskip).
  exists out. split; [exact Hout |]. split.
  - apply (Hdirect [] (mkMapping "id" "customer_id" Direct None)
                   [mkMapping "note" "remarks" Skip None]).
    + reflexivity.
    + reflexivity.
    + repeat constructor.
    + simpl. lia.
    + reflexivity.
    + intros H. vm_compute in H. destruct H as [H | H]; [discriminate H | exact H].
    + intros m' [<- | []]. left. reflexivity.
  - apply (Hskip (mkMapping "note" "remarks" Skip None)).
    + right. left. reflexivity.
    + reflexivity.
    + reflexivity.
    + intros m' [<- | [<- | []]] Ha; [discriminate | by elim Ha].
Defined.

Lemma execute_leaves_input_unchanged_witness :
  frames (store_of two_columns) !! 0 = Some two_columns
  /\ frames (snd (execute no_library 0 copy_and_skip (store_of two_columns))) !! 0
     = Some two_columns.
Proof.
  split; [reflexivity |].
  apply execute_leaves_input_unchanged. reflexivity.
Defined.

End ColumnMappingCompleteness.

(** ** Orchestrator *)

Section OrchestratorProperties.

Import Registry Plan Orchestrator.

Lemma JobStatus_of_value (s : JobStatus) : JobStatus_of (value s) = Some s.
Proof. destruct s; reflexivity. Qed.

(** [int] reads digits in groups joined by single underscores, with a
    sign and surrounding whitespace. *)
Example parse_int_examples :
  parse_int "2" = Some 2%Z /\ parse_int " +7 " = Some 7%Z
  /\ parse_int "-3" = Some (-3)%Z /\ parse_int "0_1" = Some 1%Z
  /\ parse_int "1__2" = None /\ parse_int "_1" = None /\ parse_int "1_" = None
  /\ parse_int "+ 7" = None /\ parse_int "" = None /\ parse_int "table_1" = None.
Proof. repeat split; reflexivity. Qed.

(** [from_dict] undoes [to_dict] on the fields of the snapshot, the source
    analysis apart. *)
Lemma from_dict_to_dict (job : TransformationJob) :
  exists loaded,
    from_dict (to_dict job) = Some loaded
    /\ restored loaded job /\ no_table_selection loaded.
Proof.
  unfold from_dict. simpl. rewrite JobStatus_of_value.
  eexists. split; [reflexivity |].
  destruct job as [? ? ? ? ? ? ? plan report ? ? ? ? ? ? ? ? ? ? ?]; simpl.
  destruct plan, report; simpl; unfold restored, no_table_selection; simpl;
    repeat split; reflexivity.
Qed.

(** C7, as stated, fails: the table selection of a job is lost when the
    job is saved and loaded back. *)
Lemma get_job_loses_table_selection :
  let saved := _save_job selected_job empty_world in
  exists loaded,
    get_job "1a2b3c4d" (snd saved) = Some loaded
    /\ selected_table_id (fst saved) = Some "table_1"
    /\ selected_table_id loaded = None
    /\ loaded <> fst saved.
Proof.
  eexists. split; [reflexivity |]. split; [reflexivity |]. split; [reflexivity |].
  intros H. apply (f_equal selected_table_id) in H. discriminate H.
Qed.

(** C7 (amended): a job saved by [_save_job] and loaded back by [get_job]
    has the identity, status, timestamps, output file, questions, answers,
    error message, retry count, transformation plan and validation report
    of the saved job; its table-selection state is unset. *)
Theorem get_job_after_save (job : TransformationJob) (w : World) :
  let saved := _save_job job w in
  exists loaded,
    get_job (job_id job) (snd saved) = Some loaded
    /\ restored loaded (fst saved)
    /\ no_table_selection loaded.
Proof.
  unfold _save_job, get_job, bindM, now, emit, tick. simpl.
  rewrite lookup_insert_eq.
  apply (from_dict_to_dict (set_updated_at (clock w) job)).
Qed.

(** C9, as stated, fails: [run_job] has no guard on the status and runs the
    pipeline again on a COMPLETED job. *)
Lemma run_job_reruns_completed_job :
  let env := scripted (Ok one_table) (Ok asking_plan) (Ok (0%Z, "", "")) true in
  let job := fst (run_job env completed_job empty_world) in
  status completed_job = COMPLETED
  /\ status job = WAITING_FOR_INPUT
  /\ pending_questions job = ["Which column holds the name?"]
  /\ job <> completed_job.
Proof.
  split; [reflexivity |]. split; [reflexivity |]. split; [reflexivity |].
  intros H. apply (f_equal status) in H. discriminate H.
Qed.

(** C9 (amended): on a COMPLETED or FAILED job, [answer_question] and
    [select_table] return the job as it is and leave the world as it is. *)
Theorem terminal_job_is_read_only (env : Env) (job : TransformationJob) (w : World) :
  terminal job ->
  (forall question_index answer,
      answer_question env job question_index answer w = (Ok job, w))
  /\ (forall selection, select_table env job selection w = (job, w)).
Proof.
  intros Hterm.
  assert (H1 : has_status SELECTING_TABLE job = false)
    by (unfold has_status; destruct Hterm as [-> | ->]; reflexivity).
  assert (H2 : has_status WAITING_FOR_INPUT job = false)
    by (unfold has_status; destruct Hterm as [-> | ->]; reflexivity).
  split.
  - intros i a. unfold answer_question. rewrite H1, H2. reflexivity.
  - intros sel. unfold select_table. rewrite H1. reflexivity.
Qed.

Lemma terminal_job_is_read_only_witness :
  terminal completed_job
  /\ answer_question (scripted (Ok one_table) (Ok good_plan) (Ok (0%Z, "", "")) true)
                     completed_job 0 "yes" empty_world
     = (Ok completed_job, empty_world).
Proof.
  split; [left; reflexivity |].
  apply (terminal_job_is_read_only
           (scripted (Ok one_table) (Ok good_plan) (Ok (0%Z, "", "")) true)
           completed_job empty_world).
  left. reflexivity.
Defined.

(** C2: the code breaks the claim.  The planner asks a question, [run_job]
    returns the job in WAITING_FOR_INPUT through an early [return], and
    the job store still holds the snapshot [create_job] wrote, in status
    PENDING. *)
Theorem run_job_returns_unsaved_job :
  let env := scripted (Ok one_table) (Ok asking_plan) (Ok (0%Z, "", "")) true in
  let created := create_job env "data.xlsx" "generic_customer" empty_world in
  let ran := run_job env (fst created) (snd created) in
  status (fst ran) = WAITING_FOR_INPUT
  /\ jobs (snd ran) = jobs (snd created)
  /\ option_map status (get_job (job_id (fst ran)) (snd ran)) = Some PENDING
  /\ jobs (snd ran) !! job_id (fst ran) <> Some (to_dict (fst ran)).
Proof.
  split; [vm_compute; reflexivity |]. split; [vm_compute; reflexivity |].
  split; [vm_compute; reflexivity |].
  intros H. vm_compute in H. discriminate H.
Qed.

(** The same early [return] after the fallback: the job is COMPLETED in
    memory and PENDING in the store. *)
Example run_job_returns_unsaved_fallback_job :
  let env := scripted (Ok one_table) (Ok low_plan) (Ok (0%Z, "", "")) true in
  let created := create_job env "data.xlsx" "generic_customer" empty_world in
  let ran := run_job env (fst created) (snd created) in
  status (fst ran) = COMPLETED
  /\ option_map status (get_job (job_id (fst ran)) (snd ran)) = Some PENDING.
Proof. split; vm_compute; reflexivity. Qed.

(** The path that reaches the end of [run_job] does persist the job. *)
Example run_job_saves_validated_job :
  let env := scripted (Ok one_table) (Ok good_plan) (Ok (0%Z, "", "")) true in
  let created := create_job env "data.xlsx" "generic_customer" empty_world in
  let ran := run_job env (fst created) (snd created) in
  status (fst ran) = COMPLETED
  /\ jobs (snd ran) !! job_id (fst ran) = Some (to_dict (fst ran)).
Proof. split; vm_compute; reflexivity. Qed.

(** *** The code-generation fallback *)

Ltac run_m :=
  unfold bindM, ret, ask, emit, now, enter, tick, fresh_trace in *; simpl in *.

Ltac break_inner :=
  match goal with
  | |- context [match ?x with _ => _ end] =>
      lazymatch x with
      | context [match _ with _ => _ end] => fail
      | _ => destruct x eqn:?
      end
  end.

(** C1, as stated, fails: the script exits with 0, the expected output
    file is not there, and the job is COMPLETED. *)
Lemma fallback_completes_without_output :
  let env := scripted (Ok one_table) (Ok low_plan) (Ok (0%Z, "", "")) false in
  let r := _stage_fallback_execution env selected_job empty_world in
  trace (snd r) = [Entered Fallback EXECUTING; ScriptRun 0 ""; ExpectedOutput false]
  /\ status (fst r) = COMPLETED
  /\ status (fst r) <> FAILED.
Proof. split; [reflexivity |]. split; [reflexivity | discriminate]. Qed.

(** C1 (amended): when the generated script exits non-zero, the job ends
    FAILED and its error message is "Fallback failed: Script execution
    failed: " followed by the captured stderr; when the script exits with
    0 and the expected output file is missing, the job ends COMPLETED, its
    error message says that the output file was not found, and its output
    file is left as it was. *)
Theorem fallback_script_outcomes (env : Env) (job : TransformationJob) (w : World) :
  let r := _stage_fallback_execution env job (fresh_trace w) in
  (forall returncode stderr,
      In (ScriptRun returncode stderr) (trace (snd r)) ->
      returncode <> 0%Z ->
      status (fst r) = FAILED
      /\ error_message (fst r)
         = Some (cat ["Fallback failed: "; "Script execution failed: "; stderr]))
  /\ (In (ExpectedOutput false) (trace (snd r)) ->
      status (fst r) = COMPLETED
      /\ error_message (fst r)
         = Some "Script ran but output file not found at expected location"
      /\ output_file (fst r) = output_file job).
Proof.
  unfold _stage_fallback_execution. run_m.
  repeat (break_inner; run_m);
    (split;
     [ intros rc err Hin Hrc; simpl in Hin;
       repeat (destruct Hin as [Hin | Hin]; try discriminate Hin; try contradiction);
       try (injection Hin as <- <-);
       try (split; reflexivity);
       try (exfalso; apply Hrc;
            match goal with
            | H : negb (_ =? 0)%Z = false |- _ =>
                apply negb_false_iff, Z.eqb_eq in H; exact H
            end)
     | intros Hin; simpl in Hin;
       repeat (destruct Hin as [Hin | Hin]; try discriminate Hin; try contradiction);
       try (repeat split; reflexivity) ]).
Qed.

Lemma fallback_script_outcomes_witness :
  let env := scripted (Ok one_table) (Ok low_plan) (Ok (1%Z, "", "Traceback")) false in
  let r := _stage_fallback_execution env selected_job (fresh_trace empty_world) in
  status (fst r) = FAILED
  /\ error_message (fst r)
     = Some "Fallback failed: Script execution failed: Traceback".
Proof.
  apply (proj1 (fallback_script_outcomes
                  (scripted (Ok one_table) (Ok low_plan) (Ok (1%Z, "", "Traceback")) false)
                  selected_job empty_world) 1%Z "Traceback").
  - right. left. reflexivity.
  - discriminate.
Defined.

(** *** What each stage adds to the trace *)

Lemma emits_ret {A} (P : Event -> bool) (a : A) : emits P (ret a).
Proof. intros w. exists []. split; [by rewrite app_nil_r | done]. Qed.

Lemma emits_bind {A B} (P : Event -> bool) (m : M A) (k : A -> M B) :
  emits P m -> (forall a, emits P (k a)) -> emits P (bindM m k).
Proof.
  intros Hm Hk w. unfold bindM.
  destruct (Hm w) as (evs1 & Ht1 & Hp1). destruct (m w) as [a w1]. simpl in Ht1.
  destruct (Hk a w1) as (evs2 & Ht2 & Hp2).
  exists (evs1 ++ evs2). split.
  - by rewrite Ht2, Ht1, app_assoc.
  - by rewrite forallb_app, Hp1, Hp2.
Qed.

Lemma emits_now (P : Event -> bool) : emits P now.
Proof. intros w. exists []. split; [by rewrite app_nil_r | done]. Qed.

Lemma emits_ask {A} (P : Event -> bool) (f : nat -> A) : emits P (ask f).
Proof. intros w. exists []. split; [by rewrite app_nil_r | done]. Qed.

Lemma emits_emit (P : Event -> bool) (e : Event) : P e = true -> emits P (emit e).
Proof. intros He w. exists [e]. split; [done | by simpl; rewrite He]. Qed.

Lemma emits_enter (P : Event -> bool) (stage : Stage) (s : JobStatus)
      (job : TransformationJob) :
  P (Entered stage s) = true -> emits P (enter stage s job).
Proof.
  intros He. unfold enter.
  apply emits_bind; [by apply emits_emit | intros _].
  apply emits_bind; [apply emits_now | intros t]. apply emits_ret.
Qed.

Ltac emits_step :=
  first
    [ apply emits_ret
    | apply emits_now
    | apply emits_ask
    | apply emits_emit; reflexivity
    | apply emits_enter; reflexivity
    | apply emits_bind; [| intros ?]
    | match goal with
      | |- emits _ (match ?x with _ => _ end) => destruct x
      | |- emits _ (if ?x then _ else _) => destruct x
      | |- emits _ (let '(_, _) := ?x in _) => destruct x
      end ].

Lemma detect_early (env : Env) (job : TransformationJob) :
  emits early (_stage_detect_tables env job).
Proof. unfold _stage_detect_tables. repeat emits_step. Qed.

Lemma analyze_file_early (env : Env) (job : TransformationJob)
      (override : option Engine.DataFrame) :
  emits early (analyze_file env job override).
Proof. unfold analyze_file. repeat emits_step. Qed.

Lemma analyze_early (env : Env) (job : TransformationJob) :
  emits early (_stage_analyze env job).
Proof.
  unfold _stage_analyze. repeat (first [apply analyze_file_early | emits_step]).
Qed.

Lemma execute_attempts_quiet (env : Env) (remaining : nat) (job : TransformationJob) :
  emits quiet (execute_attempts env remaining job).
Proof.
  revert job. induction remaining as [| n IH]; intros job; simpl;
    repeat (first [apply IH | emits_step]).
Qed.

Lemma validate_quiet (env : Env) (job : TransformationJob) :
  emits quiet (_stage_validate_and_output env job).
Proof. unfold _stage_validate_and_output. repeat emits_step. Qed.

Lemma save_quiet (job : TransformationJob) : emits quiet (_save_job job).
Proof.
  unfold _save_job. apply emits_bind; [apply emits_now | intros t].
  apply emits_bind; [by apply emits_emit | intros _].
  intros w. exists []. split; [by rewrite app_nil_r | done].
Qed.

Lemma fallback_trace (env : Env) (job : TransformationJob) (w : World) :
  let r := _stage_fallback_execution env job w in
  exists rest,
    trace (snd r) = trace w ++ Entered Fallback EXECUTING :: rest
    /\ forallb fallback_only rest = true
    /\ failed_in_fallback (fst r).
Proof.
  unfold _stage_fallback_execution, failed_in_fallback, fallback_failed, failed.
  run_m.
  repeat (break_inner; run_m);
    (eexists; split; [rewrite <- ?app_assoc; simpl; reflexivity |];
     split; [reflexivity |];
     intros Hst; first [discriminate Hst | eexists; reflexivity]).
Qed.

Lemma plan_outcomes (env : Env) (job : TransformationJob) (w : World) :
  let r := _stage_plan env job w in
  (exists plan,
      trace (snd r) = trace w ++ [Entered Planning PLANNING; Planned plan]
      /\ transformation_plan (fst r) = Some plan
      /\ status (fst r)
         = if requires_user_input plan then WAITING_FOR_INPUT else PLANNING)
  \/ (exists e,
         trace (snd r) = trace w ++ [Entered Planning PLANNING; PlanningRaised e]
         /\ status (fst r) = FAILED).
Proof.
  unfold _stage_plan. run_m.
  destruct (planner_run env _ _ _) as [plan | e]; run_m.
  - left. exists plan. rewrite <- app_assoc. simpl.
    destruct (requires_user_input plan); simpl; done.
  - right. exists e. rewrite <- app_assoc. simpl. done.
Qed.

(** Events that are [early], or [quiet], or the fallback's, are none of the
    planner's. *)
Lemma no_planning_in (P : Event -> bool) (evs : list Event) (e : Event) :
  (forall e, P e = true -> planning e = false) ->
  forallb P evs = true -> planning e = true -> ~ In e evs.
Proof.
  intros HP Hall He Hin. rewrite forallb_forall in Hall.
  specialize (Hall e Hin). apply HP in Hall. congruence.
Qed.

Lemma early_not_planning (e : Event) : early e = true -> planning e = false.
Proof. by destruct e as [[] ?| | | | | | |]. Qed.

Lemma quiet_not_planning (e : Event) : quiet e = true -> planning e = false.
Proof. unfold quiet. by destruct (planning e). Qed.

Lemma fallback_only_not_planning (e : Event) :
  fallback_only e = true -> planning e = false.
Proof. by destruct e. Qed.

Lemma early_off_normal_path (evs : list Event) :
  forallb early evs = true -> forallb (fun e => negb (normal_path e)) evs = true.
Proof.
  rewrite !forallb_forall. intros H e Hin. specialize (H e Hin).
  by destruct e as [[] ?| | | | | | |].
Qed.

Lemma fallback_only_off_normal_path (evs : list Event) :
  forallb fallback_only evs = true ->
  forallb (fun e => negb (normal_path e)) evs = true.
Proof.
  rewrite !forallb_forall. intros H e Hin. specialize (H e Hin). by destruct e.
Qed.

Lemma fallback_quiet (env : Env) (job : TransformationJob) :
  emits quiet (_stage_fallback_execution env job).
Proof. unfold _stage_fallback_execution. repeat emits_step. Qed.

(** What [run_job] does after a plan of sufficient confidence. *)
Lemma normal_path_quiet (env : Env) (job : TransformationJob) :
  emits quiet
    (bindM (_stage_execute env job)
       (fun job =>
          if has_status FAILED job then _stage_fallback_execution env job
          else bindM (_stage_validate_and_output env job) (fun job => _save_job job))).
Proof.
  apply emits_bind; [apply execute_attempts_quiet | intros job3].
  destruct (has_status FAILED job3); [apply fallback_quiet |].
  apply emits_bind; [apply validate_quiet | intros job4]. apply save_quiet.
Qed.

(** The planner's event is the only one of its kind in a run. *)
Lemma only_planner_event (P : Event -> bool) (evs1 later : list Event) (pe e : Event) :
  (forall e, P e = true -> planning e = false) ->
  forallb early evs1 = true -> forallb P later = true ->
  planning e = true ->
  In e (evs1 ++ [Entered Planning PLANNING; pe] ++ later) -> e = pe.
Proof.
  intros HP H1 H2 He Hin.
  apply in_app_or in Hin as [Hin | Hin].
  { exfalso. by apply (no_planning_in early evs1 e early_not_planning). }
  apply in_app_or in Hin as [Hin | Hin].
  - destruct Hin as [<- | [<- | []]]; [discriminate He | reflexivity].
  - exfalso. by apply (no_planning_in P later e HP).
Qed.

Lemma fallback_branch (evs1 rest : list Event) (pe : Event)
      (job : TransformationJob) :
  forallb early evs1 = true -> normal_path pe = false ->
  forallb fallback_only rest = true -> failed_in_fallback job ->
  fallback_after pe
    (evs1 ++ [Entered Planning PLANNING; pe] ++ Entered Fallback EXECUTING :: rest)
    job.
Proof.
  intros H1 Hpe H2 Hfail. split; [| split; [| exact Hfail]].
  - exists (evs1 ++ [Entered Planning PLANNING]), rest.
    by rewrite <- app_assoc.
  - rewrite !forallb_app. simpl. rewrite Hpe. simpl.
    by rewrite early_off_normal_path, fallback_only_off_normal_path.
Qed.

Lemma quiet_fallback_events (rest : list Event) :
  forallb fallback_only rest = true ->
  forallb quiet (Entered Fallback EXECUTING :: rest) = true.
Proof.
  intros H. simpl. rewrite forallb_forall in H |- *. intros x Hx.
  specialize (H x Hx). by destruct x.
Qed.

Lemma run_from_analysis_trace (env : Env) (job job' : TransformationJob)
      (w w' : World) :
  run_from_analysis env job w = (job', w') ->
  exists evs, trace w' = trace w ++ evs /\ fallback_triggering evs job'.
Proof.
  unfold run_from_analysis. unfold bindM at 1. intros Hrun.
  destruct (analyze_early env job w) as (evs1 & Ht1 & He1).
  destruct (_stage_analyze env job w) as [job1 w1]. simpl in Ht1.
  destruct (has_status FAILED job1).
  { injection Hrun as <- <-. exists evs1. split; [exact Ht1 |].
    split; intros; exfalso;
      eapply (no_planning_in early evs1); eauto using early_not_planning;
      reflexivity. }
  unfold bindM at 1 in Hrun.
  pose proof (plan_outcomes env job1 w1) as Hplan.
  destruct (_stage_plan env job1 w1) as [job2 w2]. simpl in Hplan.
  destruct Hplan as [(plan & Ht2 & Hp2 & Hs2) | (e & Ht2 & Hs2)].
  - destruct (requires_user_input plan) eqn:Hinput.
    + unfold has_status at 1 in Hrun. rewrite Hs2 in Hrun. simpl in Hrun.
      injection Hrun as <- <-.
      exists (evs1 ++ [Entered Planning PLANNING; Planned plan] ++ []).
      split; [by rewrite Ht2, Ht1, app_nil_r, app_assoc |].
      split.
      * intros p Hin Hconf Hreq.
        apply (only_planner_event early evs1 [] (Planned plan)) in Hin;
          [| apply early_not_planning | done | done | done].
        injection Hin as ->. congruence.
      * intros e Hin.
        apply (only_planner_event early evs1 [] (Planned plan)) in Hin;
          [discriminate Hin | apply early_not_planning | done | done | done].
    + unfold has_status at 1 2 in Hrun. rewrite Hs2 in Hrun. simpl in Hrun.
      unfold low_confidence in Hrun. rewrite Hp2 in Hrun.
      destruct (Qle_bool (1 # 2) (confidence_score plan)) eqn:Hq; simpl in Hrun.
      * destruct (normal_path_quiet env job2 w2) as (later & Ht3 & He3).
        rewrite Hrun in Ht3. simpl in Ht3.
        exists (evs1 ++ [Entered Planning PLANNING; Planned plan] ++ later).
        split; [by rewrite Ht3, Ht2, Ht1, <- !app_assoc |].
        split.
        -- intros p Hin Hconf Hreq.
           apply (only_planner_event quiet evs1 later (Planned plan)) in Hin;
             [| apply quiet_not_planning | done | done | done].
           injection Hin as ->. apply Qle_bool_iff in Hq.
           exfalso. by apply (Qlt_not_le _ _ Hconf).
        -- intros e Hin.
           apply (only_planner_event quiet evs1 later (Planned plan)) in Hin;
             [discriminate Hin | apply quiet_not_planning | done | done | done].
      * destruct (fallback_trace env job2 w2) as (rest & Ht3 & He3 & Hfail).
        rewrite Hrun in Ht3, Hfail. simpl in Ht3, Hfail.
        pose proof (quiet_fallback_events rest He3) as Hrest.
        exists (evs1 ++ [Entered Planning PLANNING; Planned plan]
                     ++ Entered Fallback EXECUTING :: rest).
        split; [by rewrite Ht3, Ht2, Ht1, <- !app_assoc |].
        split.
        -- intros p Hin Hconf Hreq.
           apply (only_planner_event quiet evs1 (Entered Fallback EXECUTING :: rest)
                                     (Planned plan)) in Hin;
             [| apply quiet_not_planning | done | done | done].
           rewrite Hin. by apply fallback_branch.
        -- intros e Hin.
           apply (only_planner_event quiet evs1 (Entered Fallback EXECUTING :: rest)
                                     (Planned plan)) in Hin;
             [discriminate Hin | apply quiet_not_planning | done | done | done].
  - unfold has_status at 1 2 in Hrun. rewrite Hs2 in Hrun. simpl in Hrun.
    destruct (fallback_trace env job2 w2) as (rest & Ht3 & He3 & Hfail).
    rewrite Hrun in Ht3, Hfail. simpl in Ht3, Hfail.
    pose proof (quiet_fallback_events rest He3) as Hrest.
    exists (evs1 ++ [Entered Planning PLANNING; PlanningRaised e]
                 ++ Entered Fallback EXECUTING :: rest).
    split; [by rewrite Ht3, Ht2, Ht1, <- !app_assoc |].
    split.
    + intros p Hin Hconf Hreq.
      apply (only_planner_event quiet evs1 (Entered Fallback EXECUTING :: rest)
                                (PlanningRaised e)) in Hin;
        [discriminate Hin | apply quiet_not_planning | done | done | done].
    + intros e' Hin.
      apply (only_planner_event quiet evs1 (Entered Fallback EXECUTING :: rest)
                                (PlanningRaised e)) in Hin;
        [| apply quiet_not_planning | done | done | done].
      rewrite Hin. by apply fallback_branch.
Qed.

Lemma fallback_after_prefix (evs0 evs : list Event) (pe : Event)
      (job : TransformationJob) :
  forallb early evs0 = true ->
  fallback_after pe evs job -> fallback_after pe (evs0 ++ evs) job.
Proof.
  intros H0 ((pre & post & ->) & Hoff & Hfail). split; [| split; [| exact Hfail]].
  - exists (evs0 ++ pre), post. by rewrite app_assoc.
  - rewrite forallb_app. by rewrite early_off_normal_path.
Qed.

Lemma fallback_triggering_prefix (evs0 evs : list Event) (job : TransformationJob) :
  forallb early evs0 = true ->
  fallback_triggering evs job -> fallback_triggering (evs0 ++ evs) job.
Proof.
  intros H0 [Hlow Hraised]. split.
  - intros plan Hin Hconf Hreq. apply fallback_after_prefix; [done |].
    apply Hlow; [| done | done].
    apply in_app_or in Hin as [Hin | Hin]; [| done].
    exfalso. by apply (no_planning_in early evs0 (Planned plan) early_not_planning).
  - intros e Hin. apply fallback_after_prefix; [done |].
    apply Hraised.
    apply in_app_or in Hin as [Hin | Hin]; [| done].
    exfalso. by apply (no_planning_in early evs0 (PlanningRaised e) early_not_planning).
Qed.

Lemma fallback_triggering_early (evs0 : list Event) (job : TransformationJob) :
  forallb early evs0 = true -> fallback_triggering evs0 job.
Proof.
  intros H0. split; intros; exfalso;
    eapply (no_planning_in early evs0); eauto using early_not_planning; reflexivity.
Qed.

Lemma run_job_trace (env : Env) (job job' : TransformationJob) (w w' : World) :
  run_job env job w = (job', w') ->
  exists evs, trace w' = trace w ++ evs /\ fallback_triggering evs job'.
Proof.
  unfold run_job. intros Hrun.
  destruct (multi_table_analysis job); [by apply (run_from_analysis_trace env job) |].
  unfold bindM at 1 in Hrun.
  destruct (detect_early env job w) as (evs0 & Ht0 & He0).
  destruct (_stage_detect_tables env job w) as [job0 w0]. simpl in Ht0.
  destruct (has_status FAILED job0).
  { injection Hrun as <- <-. exists evs0. split; [done |].
    by apply fallback_triggering_early. }
  destruct (has_status SELECTING_TABLE job0).
  { injection Hrun as <- <-. exists evs0. split; [done |].
    by apply fallback_triggering_early. }
  destruct (run_from_analysis_trace env job0 job' w0 w' Hrun) as (evs & Ht & Htrig).
  exists (evs0 ++ evs). split; [by rewrite Ht, Ht0, app_assoc |].
  by apply fallback_triggering_prefix.
Qed.

(** C3: in every run of [run_job], a plan of confidence below 0.5 that asks
    for no user input is followed at once by the fallback's entry into
    EXECUTING, and the run neither enters the normal EXECUTING stage, nor
    invokes the Execution Engine, nor validates; a planning exception is
    followed by the fallback in the same way; and if the job is then FAILED,
    it is the fallback that failed. *)
Theorem low_confidence_goes_to_fallback (env : Env) (job : TransformationJob)
        (w : World) :
  let r := run_job env job (fresh_trace w) in
  fallback_triggering (trace (snd r)) (fst r).
Proof.
  simpl. destruct (run_job env job (fresh_trace w)) as [job' w'] eqn:Hrun.
  destruct (run_job_trace env job job' (fresh_trace w) w' Hrun) as (evs & Ht & Htrig).
  simpl in *. by rewrite Ht.
Qed.

(** A run in which the planner returns a plan of confidence 0.3. *)
Lemma low_confidence_goes_to_fallback_witness :
  let env := scripted (Ok one_table) (Ok low_plan) (Ok (0%Z, "", "")) true in
  let r := run_job env (new_job "1a2b3c4d" "data.xlsx" "generic_customer" 0)
                   (fresh_trace empty_world) in
  In (Planned low_plan) (trace (snd r))
  /\ (confidence_score low_plan < 1 # 2)%Q
  /\ fallback_after (Planned low_plan) (trace (snd r)) (fst r).
Proof.
  split; [vm_compute; tauto |]. split; [reflexivity |].
  apply (proj1 (low_confidence_goes_to_fallback
                  (scripted (Ok one_table) (Ok low_plan) (Ok (0%Z, "", "")) true)
                  (new_job "1a2b3c4d" "data.xlsx" "generic_customer" 0)
                  empty_world) low_plan).
  - vm_compute. tauto.
  - reflexivity.
  - reflexivity.
Defined.

End OrchestratorProperties.

(** ** Table Matcher *)

Section MatcherProperties.

Import Registry Matcher.

Variable M : MatchLib.

(** [SequenceMatcher.ratio] is at most 1. *)
Hypothesis ratio_le_1 : forall a b, (ratio M a b <= 1)%Q.

Lemma Qmax_lub (a b c : Q) : (a <= c)%Q -> (b <= c)%Q -> (Qmax a b <= c)%Q.
Proof. intros Ha Hb. unfold Qmax. by destruct (Qle_bool a b). Qed.

Lemma Qgtb_true (a b : Q) : Qgtb a b = true -> (b < a)%Q.
Proof.
  unfold Qgtb. intros H. apply negb_true_iff in H.
  apply Qnot_le_lt. intros Hle. apply Qle_bool_iff in Hle. congruence.
Qed.

Lemma Qgtb_false (a b : Q) : Qgtb a b = false -> (a <= b)%Q.
Proof.
  unfold Qgtb. intros H. apply negb_false_iff in H. by apply Qle_bool_iff.
Qed.

Lemma common_names_loop_bound (source_norm : string) (common : list string) (score : Q) :
  (score <= 8 # 10)%Q ->
  match common_names_loop source_norm common score with
  | inl s => s = (95 # 100)%Q
  | inr s => (s <= 8 # 10)%Q
  end.
Proof.
  revert score. induction common as [| c cs IH]; intros score Hs; simpl; [done |].
  destruct (String.eqb source_norm (_normalize_column_name c)); [done |].
  apply IH. destruct (_ || _); [| done].
  apply Qmax_lub; [done | apply Qle_refl].
Qed.

(** The overlap of two keyword sets is at most 1. *)
Lemma keyword_overlap_le_1 (A B : gset string) :
  A ∩ B <> ∅ ->
  (inject_Z (Z.of_nat (size (A ∩ B)))
   / inject_Z (Z.of_nat (Nat.max (size A) (size B))) <= 1)%Q.
Proof.
  intros Hne.
  assert (Hle : size (A ∩ B) <= size A)
    by apply subseteq_size, intersection_subseteq_l.
  assert (Hpos : 0 < size (A ∩ B)).
  { assert (size (A ∩ B) <> 0); [| lia].
    apply size_non_empty_iff. intros Heq. apply Hne. by apply leibniz_equiv. }
  apply Qle_shift_div_r.
  - change 0%Q with (inject_Z 0). rewrite <- Zlt_Qlt. lia.
  - rewrite Qmult_1_l. rewrite <- Zle_Qle. lia.
Qed.

(** Only equal normalised names score 1. *)
Lemma score_below_1 (source_col target_col : string) (common : list string)
      (target_type : string) (samples : list string) :
  _normalize_column_name source_col <> _normalize_column_name target_col ->
  (_calculate_column_match_score M source_col target_col common target_type samples
   < 1)%Q.
Proof.
  intros Hne. unfold _calculate_column_match_score.
  apply String.eqb_neq in Hne. rewrite Hne.
  pose proof (common_names_loop_bound (_normalize_column_name source_col) common 0) as Hloop.
  destruct (common_names_loop _ common 0) as [s | s].
  { rewrite Hloop; [reflexivity | done]. }
  assert (Hs : (s <= 8 # 10)%Q) by (by apply Hloop).
  apply Qle_lt_trans with (y := (9 # 10)%Q); [| reflexivity].
  set (s1 := Qmax s _).
  assert (H1 : (s1 <= 9 # 10)%Q).
  { apply Qmax_lub; [lra |].
    pose proof (ratio_le_1 (_normalize_column_name source_col)
                           (_normalize_column_name target_col)). lra. }
  set (s2 := match samples with [] => s1 | _ => _ end).
  assert (H2 : (s2 <= 9 # 10)%Q).
  { unfold s2. destruct samples; [done |].
    destruct (String.eqb _ target_type); [apply Qmax_lub; [done | lra] |].
    destruct (_types_compatible _ _); [apply Qmax_lub; [done | lra] | done]. }
  destruct (bool_decide _) eqn:Hcommon; [done |].
  apply bool_decide_eq_false in Hcommon.
  apply Qmax_lub; [done |].
  pose proof (keyword_overlap_le_1 _ _ Hcommon). lra.
Qed.

Lemma score_exact (source_col target_col : string) (common : list string)
      (target_type : string) (samples : list string) :
  _normalize_column_name source_col = _normalize_column_name target_col ->
  _calculate_column_match_score M source_col target_col common target_type samples
  = 1%Q.
Proof.
  intros Heq. unfold _calculate_column_match_score.
  by rewrite Heq, String.eqb_refl.
Qed.

(** *** The dictionary of target columns *)

Lemma assoc_set_in {A} (k k' : string) (v v' : A) (d : list (string * A)) :
  In (k', v') (Engine.assoc_set k v d) -> (k' = k /\ v' = v) \/ In (k', v') d.
Proof.
  induction d as [| [k0 v0] d IH]; simpl.
  - intros [[= <- <-] | []]. by left.
  - destruct (String.eqb k k0); simpl.
    + intros [[= <- <-] | Hin]; [by left | right; by right].
    + intros [Heq | Hin]; [right; by left |].
      destruct (IH Hin) as [? | ?]; [by left | right; by right].
Qed.

Lemma assoc_set_has {A} (k k' : string) (v : A) (d : list (string * A)) :
  k' = k \/ (exists v', In (k', v') d) ->
  exists v', In (k', v') (Engine.assoc_set k v d).
Proof.
  induction d as [| [k0 v0] d IH]; simpl.
  - intros [-> | [v' []]]. exists v. by left.
  - destruct (String.eqb k k0) eqn:E; simpl.
    + apply String.eqb_eq in E. subst k0.
      intros [-> | [v' [[= -> ->] | Hin]]].
      * exists v. by left.
      * exists v. by left.
      * exists v'. by right.
    + intros [-> | [v' [[= -> ->] | Hin]]].
      * destruct IH as [v' Hv']; [by left |]. exists v'. by right.
      * exists v'. by left.
      * destruct IH as [v'' Hv'']; [right; by exists v' |]. exists v''. by right.
Qed.

Lemma target_dict_in (schema : TargetSchema) (k : string) (col : TargetColumn) :
  In (k, col) (target_dict schema) -> In col (columns schema) /\ name col = k.
Proof.
  unfold target_dict.
  assert (H : forall cols d,
             In (k, col) (fold_left (fun d c => Engine.assoc_set (name c) c d) cols d) ->
             In (k, col) d \/ (In col cols /\ name col = k)).
  { induction cols as [| c cs IH]; intros d; simpl; [by left |].
    intros Hin. destruct (IH _ Hin) as [Hd | [Hc Hn]].
    - apply assoc_set_in in Hd as [[-> ->] | Hd]; [right; split; [by left | done] | by left].
    - right. split; [by right | done]. }
  intros Hin. destruct (H _ _ Hin) as [[] | ?]. done.
Qed.

Lemma target_dict_has (schema : TargetSchema) (c : TargetColumn) :
  In c (columns schema) -> exists col, In (name c, col) (target_dict schema).
Proof.
  unfold target_dict.
  assert (H : forall cols d,
             In c cols \/ (exists v, In (name c, v) d) ->
             exists col, In (name c, col)
                            (fold_left (fun d c => Engine.assoc_set (name c) c d) cols d)).
  { induction cols as [| c0 cs IH]; intros d; simpl.
    - intros [[] | ?]. done.
    - intros [[-> | Hin] | Hd].
      + apply IH. right. apply assoc_set_has. by left.
      + apply IH. by left.
      + apply IH. right. apply assoc_set_has. by right. }
  intros Hin. apply H. by left.
Qed.

(** *** The inner loop *)

Lemma best_target_fold (table : DetectedTable) (source_col : string)
      (claimed : gset string) (targets : list (string * TargetColumn))
      (acc : option string * Q) :
  let res := fold_left (target_step M table source_col claimed) targets acc in
  (snd acc <= snd res)%Q
  /\ (forall t, In t targets -> (fst t ∉ claimed) ->
                (score_of M table source_col t <= snd res)%Q)
  /\ (res = acc
      \/ exists t, In t targets /\ (fst t ∉ claimed)
                   /\ res = (Some (fst t), score_of M table source_col t)).
Proof.
  revert acc. induction targets as [| [k col] ts IH]; intros [bm bs];
    cbn [fold_left].
  - split; [apply Qle_refl |]. split; [intros t [] | by left].
  - set (acc' := target_step M table source_col claimed (bm, bs) (k, col)).
    cbv zeta. cbn [snd].
    destruct (IH acc') as (Hle & Hall & Hres).
    assert (Hacc : (bs <= snd acc')%Q
                   /\ ((k ∉ claimed) ->
                       (score_of M table source_col (k, col) <= snd acc')%Q)
                   /\ (acc' = (bm, bs)
                       \/ ((k ∉ claimed)
                           /\ acc' = (Some k, score_of M table source_col (k, col))))).
    { unfold acc', target_step. destruct (bool_decide (k ∈ claimed)) eqn:Hk.
      - apply bool_decide_eq_true in Hk.
        split; [apply Qle_refl |]. split; [done | by left].
      - apply bool_decide_eq_false in Hk.
        fold (score_of M table source_col (k, col)).
        destruct (Qgtb _ bs) eqn:Hgt.
        + apply Qgtb_true in Hgt. split; [by apply Qlt_le_weak |].
          split; [intros _; apply Qle_refl | right; done].
        + apply Qgtb_false in Hgt. split; [apply Qle_refl |].
          split; [done | by left]. }
    destruct Hacc as (Hle' & Hk' & Hacc').
    split; [by apply Qle_trans with (y := snd acc') |].
    split.
    + intros t [<- | Hin] Ht.
      * apply Qle_trans with (y := snd acc'); [by apply Hk' | done].
      * by apply Hall.
    + destruct Hres as [-> | (t & Hin & Ht & ->)].
      * destruct Hacc' as [-> | [Hk ->]]; [by left |].
        right. exists (k, col). split; [by left | done].
      * right. exists t. split; [by right | done].
Qed.

Lemma best_target_spec (table : DetectedTable) (source_col : string)
      (targets : list (string * TargetColumn)) (claimed : gset string) :
  let res := best_target M table source_col targets claimed in
  (forall t, In t targets -> (fst t ∉ claimed) ->
             (score_of M table source_col t <= snd res)%Q)
  /\ match fst res with
     | None => snd res = 0%Q
     | Some b => exists t, In t targets /\ fst t = b /\ (b ∉ claimed)
                           /\ snd res = score_of M table source_col t
     end.
Proof.
  unfold best_target.
  destruct (best_target_fold table source_col claimed targets (None, 0%Q))
    as (_ & Hall & Hres).
  simpl in *. split; [exact Hall |].
  destruct Hres as [-> | (t & Hin & Ht & ->)]; simpl; [done |].
  exists t. done.
Qed.

(** *** The first pass *)

Lemma pass_step_cases (table : DetectedTable) (targets : list (string * TargetColumn))
      (st : Pass) (source_col : string) :
  pass_step M table targets st source_col = st
  \/ exists b,
       fst (best_target M table source_col targets (target_matched_set st)) = Some b
       /\ b <> ""
       /\ (MODERATE_MATCH_THRESHOLD
           <= snd (best_target M table source_col targets (target_matched_set st)))%Q
       /\ pass_step M table targets st source_col
          = mkPass (matched st ++ [(source_col, b)])
                   ({[source_col]} ∪ source_matched_set st)
                   ({[b]} ∪ target_matched_set st).
Proof.
  unfold pass_step.
  destruct (best_target M table source_col targets (target_matched_set st))
    as [[b |] score]; [| by left].
  destruct (PyStr.is_empty b) eqn:Hb; simpl; [by left |].
  destruct (Qle_bool MODERATE_MATCH_THRESHOLD score) eqn:Hs; [| by left].
  right. exists b. split; [done |]. split; [by intros -> |].
  split; [by apply Qle_bool_iff | done].
Qed.

Lemma pass_step_grows (table : DetectedTable) (targets : list (string * TargetColumn))
      (st : Pass) (source_col : string) (k : string) :
  k ∈ target_matched_set st ->
  k ∈ target_matched_set (pass_step M table targets st source_col).
Proof.
  intros Hk. destruct (pass_step_cases table targets st source_col)
    as [-> | (b & _ & _ & _ & ->)]; [done |].
  simpl. set_solver.
Qed.

Lemma pass_step_invariant (schema : TargetSchema) (table : DetectedTable)
      (st : Pass) (source_col : string) :
  pass_invariant schema st ->
  pass_invariant schema (pass_step M table (target_dict schema) st source_col).
Proof.
  intros [Hnames Hlen].
  destruct (pass_step_cases table (target_dict schema) st source_col)
    as [-> | (b & Hb & _ & _ & ->)]; [done |].
  pose proof (best_target_spec table source_col (target_dict schema)
                               (target_matched_set st)) as [_ Hbest].
  rewrite Hb in Hbest. destruct Hbest as ([k col] & Hin & Hk & Hnew & _).
  simpl in Hk. subst k. apply target_dict_in in Hin as [Hcol Hname].
  split; simpl.
  - intros k Hk. apply elem_of_union in Hk as [Hk | Hk]; [| by apply Hnames].
    apply elem_of_singleton in Hk. subst k. by exists col.
  - rewrite length_app, size_union, size_singleton by set_solver.
    simpl. lia.
Qed.

Lemma first_pass_invariant (schema : TargetSchema) (table : DetectedTable) :
  pass_invariant schema (first_pass M table schema).
Proof.
  unfold first_pass.
  assert (H : forall l st, pass_invariant schema st ->
                           pass_invariant schema
                             (fold_left (pass_step M table (target_dict schema)) l st)).
  { induction l as [| x l IH]; intros st Hst; simpl; [done |].
    by apply IH, pass_step_invariant. }
  apply H. split; simpl; [set_solver | reflexivity].
Qed.

Lemma pass_step_covers (schema : TargetSchema) (table : DetectedTable)
      (st : Pass) (seen : list string) (source_col : string) :
  distinct_when_normalized schema ->
  (forall c, In c (columns schema) -> required c = true -> name c <> "") ->
  covered schema (target_matched_set st) seen ->
  covered schema
    (target_matched_set (pass_step M table (target_dict schema) st source_col))
    (seen ++ [source_col]).
Proof.
  intros Hdistinct Hnonempty Hcov c Hc Hreq Hin.
  apply in_app_or in Hin as [Hin | [Heq | []]].
  { apply pass_step_grows. by apply Hcov. }
  subst source_col.
  destruct (decide (name c ∈ target_matched_set st)) as [Hclaimed | Hfree].
  { by apply pass_step_grows. }
  pose proof (best_target_spec table (name c) (target_dict schema)
                               (target_matched_set st)) as [Hall Hbest].
  destruct (target_dict_has schema c Hc) as [col Hcol].
  specialize (Hall (name c, col) Hcol Hfree).
  unfold score_of in Hall. simpl in Hall.
  rewrite score_exact in Hall by reflexivity.
  destruct (best_target M table (name c) (target_dict schema) (target_matched_set st))
    as [[b |] score] eqn:Hbt; simpl in Hall, Hbest.
  - destruct Hbest as ([k colb] & Hinb & Hk & Hnew & Hscore). simpl in Hk. subst k.
    assert (Hnorm : _normalize_column_name (name c) = _normalize_column_name b).
    { destruct (string_dec (_normalize_column_name (name c))
                           (_normalize_column_name b)) as [? | Hne]; [done |].
      exfalso. unfold score_of in Hscore. simpl in Hscore.
      pose proof (score_below_1 (name c) b (common_source_names colb) (data_type colb)
                    (or_default (dict_get (name c) (sample_values table)) []) Hne)
        as Hlt.
      rewrite <- Hscore in Hlt. by apply (Qlt_not_le _ _ Hlt). }
    apply target_dict_in in Hinb as [Hcolb Hnameb].
    assert (Hb : b = name c).
    { rewrite <- Hnameb. symmetry. apply Hdistinct; [done | done |]. by rewrite Hnameb. }
    unfold pass_step. rewrite Hbt, Hb.
    assert (PyStr.is_empty (name c) = false) as ->.
    { specialize (Hnonempty c Hc Hreq). by destruct (name c). }
    assert (Qle_bool MODERATE_MATCH_THRESHOLD score = true) as ->.
    { apply Qle_bool_iff. unfold MODERATE_MATCH_THRESHOLD. lra. }
    simpl. set_solver.
  - exfalso. rewrite Hbest in Hall. by apply (Qlt_not_le 0 1).
Qed.

Lemma first_pass_covers (schema : TargetSchema) (table : DetectedTable) :
  distinct_when_normalized schema ->
  (forall c, In c (columns schema) -> required c = true -> name c <> "") ->
  covered schema (target_matched_set (first_pass M table schema))
          (column_names table).
Proof.
  intros Hdistinct Hnonempty. unfold first_pass.
  assert (H : forall l st seen,
             covered schema (target_matched_set st) seen ->
             covered schema
               (target_matched_set
                  (fold_left (pass_step M table (target_dict schema)) l st))
               (seen ++ l)).
  { induction l as [| x l IH]; intros st seen Hcov; simpl.
    - by rewrite app_nil_r.
    - replace (seen ++ x :: l) with ((seen ++ [x]) ++ l) by (by rewrite <- app_assoc).
      by apply IH, pass_step_covers. }
  apply (H (column_names table) (mkPass [] ∅ ∅) []).
  intros c _ _ [].
Qed.

(** *** Counting claimed columns *)

Lemma filter_length_ext {A} (p q : A -> bool) (l : list A) :
  (forall x, In x l -> p x = q x) ->
  length (List.filter p l) = length (List.filter q l).
Proof.
  induction l as [| x l IH]; intros H; simpl; [done |].
  rewrite (H x) by (by left).
  assert (Hl : length (List.filter p l) = length (List.filter q l))
    by (apply IH; intros y Hy; apply H; by right).
  destruct (q x); simpl; congruence.
Qed.

Lemma filter_length_split {A} (p q : A -> bool) (l : list A) :
  length (List.filter p l)
  = length (List.filter (fun x => q x && p x) l)
    + length (List.filter (fun x => negb (q x) && p x) l).
Proof.
  induction l as [| x l IH]; simpl; [done |].
  destruct (q x), (p x); simpl; lia.
Qed.

Lemma count_claimed (cols : list TargetColumn) (claimed : gset string) :
  NoDup (map name cols) ->
  (forall k, k ∈ claimed -> exists c, In c cols /\ name c = k) ->
  length (List.filter (fun c => bool_decide (name c ∈ claimed)) cols) = size claimed.
Proof.
  revert claimed. induction cols as [| c cs IH]; intros claimed Hnodup Hnames.
  - simpl. symmetry. apply size_empty_iff, elem_of_equiv_empty. intros k Hk.
    destruct (Hnames k Hk) as (c & [] & _).
  - apply NoDup_cons in Hnodup as [Hfresh Hnodup]. simpl.
    destruct (bool_decide (name c ∈ claimed)) eqn:Hc.
    + apply bool_decide_eq_true in Hc. simpl.
      rewrite (filter_length_ext _ (fun c' => bool_decide (name c' ∈ claimed ∖ {[name c]}))).
      * rewrite IH; [| done |].
        -- rewrite size_difference by set_solver. rewrite size_singleton.
           assert (0 < size claimed); [| lia].
           assert (size claimed <> 0); [| lia].
           apply size_non_empty_iff. set_solver.
        -- intros k Hk. apply elem_of_difference in Hk as [Hk Hne].
           destruct (Hnames k Hk) as (c' & [<- | Hin] & Hn); [set_solver | by exists c'].
      * intros c' Hin. apply bool_decide_ext.
        assert (Hne : name c' <> name c).
        { intros Heq. apply Hfresh. rewrite <- Heq. apply list_elem_of_In.
          by apply in_map. }
        rewrite elem_of_difference, elem_of_singleton. tauto.
    + apply bool_decide_eq_false in Hc. apply IH; [done |].
      intros k Hk. destruct (Hnames k Hk) as (c' & [<- | Hin] & Hn);
        [congruence | by exists c'].
Qed.

Lemma flag_eqb_true (b : bool) : Bool.eqb b true = b.
Proof. by destruct b. Qed.

Lemma flag_eqb_false (b : bool) : Bool.eqb b false = negb b.
Proof. by destruct b. Qed.

(** With distinct names, the matches split into required and optional
    ones. *)
Lemma claimed_split (schema : TargetSchema) (st : Pass) :
  NoDup (map name (columns schema)) -> pass_invariant schema st ->
  Z.of_nat (length (matched st))
  = (claimed_with true schema (target_matched_set st)
     + claimed_with false schema (target_matched_set st))%Z.
Proof.
  intros Hnodup [Hnames Hlen]. rewrite Hlen.
  rewrite <- (count_claimed (columns schema) (target_matched_set st) Hnodup Hnames).
  rewrite (filter_length_split _ required). unfold claimed_with, count.
  rewrite Nat2Z.inj_add. f_equal; f_equal; apply filter_length_ext; intros c _;
    by rewrite ?flag_eqb_true, ?flag_eqb_false.
Qed.

Lemma total_split (schema : TargetSchema) :
  Z.of_nat (length (columns schema))
  = (total_with true schema + total_with false schema)%Z.
Proof.
  unfold total_with, count. rewrite <- Nat2Z.inj_add. f_equal.
  induction (columns schema) as [| c cs IH]; simpl; [done |].
  destruct (required c); simpl; lia.
Qed.

Lemma required_matched_claimed (schema : TargetSchema) (claimed : gset string) :
  required_matched schema claimed = claimed_with true schema claimed.
Proof.
  unfold required_matched, claimed_with, count. f_equal.
  apply filter_length_ext. intros c _. by rewrite flag_eqb_true.
Qed.

(** The score the code computes is the score of the specification. *)
Lemma match_score_spec (schema : TargetSchema) (table : DetectedTable) :
  NoDup (map name (columns schema)) -> consistent schema ->
  match_score (_match_table_to_schema M table schema)
  = spec_score schema (target_matched_set (first_pass M table schema)).
Proof.
  intros Hnodup Hcons. unfold _match_table_to_schema, spec_score. simpl.
  unfold required_score, optional_score.
  pose proof (claimed_split schema (first_pass M table schema) Hnodup
                            (first_pass_invariant schema table)) as Hsplit.
  pose proof (total_split schema) as Htotal.
  unfold consistent in Hcons.
  rewrite required_matched_claimed, Hcons.
  f_equal. f_equal. f_equal; lia.
Qed.

Lemma ratio_or_one_same (n : Z) : (ratio_or_one n n == 1)%Q.
Proof.
  unfold ratio_or_one. destruct (0 <? n)%Z eqn:Hn; [| reflexivity].
  apply Z.ltb_lt in Hn. apply Qmult_inv_r.
  intros H. unfold Qeq in H. simpl in H. lia.
Qed.

Lemma ratio_or_one_nonneg (a b : Z) : (0 <= a)%Z -> (0 <= ratio_or_one a b)%Q.
Proof.
  intros Ha. unfold ratio_or_one. destruct (0 <? b)%Z eqn:Hb; [| discriminate].
  apply Z.ltb_lt in Hb. apply Qle_shift_div_l.
  - change 0%Q with (inject_Z 0). by rewrite <- Zlt_Qlt.
  - rewrite Qmult_0_l. change 0%Q with (inject_Z 0). by rewrite <- Zle_Qle.
Qed.

Lemma claimed_with_nonneg (flag : bool) (schema : TargetSchema) (claimed : gset string) :
  (0 <= claimed_with flag schema claimed)%Z.
Proof. unfold claimed_with, count. lia. Qed.

(** A table that has every required name claims every required column. *)
Lemma required_score_full (schema : TargetSchema) (table : DetectedTable) :
  consistent schema -> distinct_when_normalized schema ->
  (forall c, In c (columns schema) -> required c = true -> name c <> "") ->
  has_required_names table schema ->
  (required_score M table schema == 1)%Q.
Proof.
  intros Hcons Hdistinct Hnonempty Hhas. unfold required_score.
  pose proof (first_pass_covers schema table Hdistinct Hnonempty) as Hcov.
  assert (Hall : required_matched schema (target_matched_set (first_pass M table schema))
                 = total_with true schema).
  { unfold required_matched, total_with, count. f_equal.
    apply filter_length_ext. intros c Hc. rewrite flag_eqb_true.
    destruct (required c) eqn:Hreq; [| done]. simpl.
    apply bool_decide_eq_true. apply Hcov; [done | done | by apply Hhas]. }
  rewrite Hall. unfold consistent in Hcons. rewrite Hcons.
  apply ratio_or_one_same.
Qed.

End MatcherProperties.

Section TableMatchScore.

Import Registry Matcher.

(** C8, as stated, fails twice.  A table named exactly after the one
    required column claims an optional column of the same normalised name
    that comes first in the schema, and its required score is 0.  And the
    matched required columns are counted by the [required] flag while their
    total is the length of [required_columns], so that a schema with a
    flagged column that is not listed has a score other than that of the
    formula. *)
Lemma matcher_claims_fail :
  (forall M,
      has_required_names a_b_table colliding_schema
      /\ (required_score M a_b_table colliding_schema == 0)%Q
      /\ (match_score (_match_table_to_schema M a_b_table colliding_schema)
          < 6 # 10)%Q)
  /\ (forall M,
         ~ (match_score (_match_table_to_schema M a_table unlisted_schema)
            == spec_score unlisted_schema
                 (target_matched_set (first_pass M a_table unlisted_schema)))%Q).
Proof.
  split; intros M.
  - split; [| split].
    + intros c [<- | [<- | []]] Hreq; [discriminate Hreq | by left].
    + vm_compute. reflexivity.
    + vm_compute. reflexivity.
  - vm_compute. discriminate.
Qed.

(** C8 (amended).  For a schema whose column names are distinct and whose
    [required_columns] list has one entry per column flagged [required],
    the score of a table is 0.6 x (required columns claimed / required
    columns) + 0.4 x (optional columns claimed / optional columns), a
    ratio being 1 when its denominator is zero.  If moreover no two
    target columns have the same normalised name and no required column
    has an empty name, a table whose column names include every required
    name has a required score of 1 and a match score of at least 0.6. *)
Theorem table_match_score (M : MatchLib) (schema : TargetSchema)
        (table : DetectedTable) :
  (forall a b, (ratio M a b <= 1)%Q) ->
  NoDup (map name (columns schema)) ->
  consistent schema ->
  match_score (_match_table_to_schema M table schema)
  = spec_score schema (target_matched_set (first_pass M table schema))
  /\ (distinct_when_normalized schema ->
      (forall c, In c (columns schema) -> required c = true -> name c <> "") ->
      has_required_names table schema ->
      (required_score M table schema == 1)%Q
      /\ (6 # 10 <= match_score (_match_table_to_schema M table schema))%Q).
Proof.
  intros Hratio Hnodup Hcons.
  split; [by apply match_score_spec |].
  intros Hdistinct Hnonempty Hhas.
  pose proof (required_score_full M Hratio schema table Hcons Hdistinct Hnonempty Hhas)
    as Hreq.
  split; [exact Hreq |].
  assert (Hopt : (0 <= optional_score M table schema)%Q).
  { unfold optional_score.
    pose proof (claimed_split M Hratio schema (first_pass M table schema) Hnodup
                              (first_pass_invariant M Hratio schema table)) as Hsplit.
    rewrite required_matched_claimed. apply ratio_or_one_nonneg.
    pose proof (claimed_with_nonneg false schema
                  (target_matched_set (first_pass M table schema))).
    lia. }
  unfold _match_table_to_schema. simpl. lra.
Qed.

Lemma table_match_score_witness :
  (forall a b, (ratio no_similarity a b <= 1)%Q)
  /\ NoDup (map name (columns contact_schema))
  /\ consistent contact_schema
  /\ (required_score no_similarity first_name_table contact_schema == 1)%Q
  /\ (6 # 10 <= match_score (_match_table_to_schema no_similarity first_name_table
                                                     contact_schema))%Q.
Proof.
  assert (H1 : forall a b, (ratio no_similarity a b <= 1)%Q)
    by (intros a b; discriminate).
  assert (H2 : NoDup (map name (columns contact_schema)))
    by (apply (bool_decide_unpack _); vm_compute; exact I).
  assert (H3 : consistent contact_schema) by reflexivity.
  split; [exact H1 |]. split; [exact H2 |]. split; [exact H3 |].
  apply (table_match_score no_similarity contact_schema first_name_table H1 H2 H3).
  - intros c1 c2 [<- | [<- | []]] [<- | [<- | []]] H;
      first [reflexivity | vm_compute in H; discriminate H].
  - intros c [<- | [<- | []]] Hreq; discriminate.
  - intros c [<- | [<- | []]] Hreq; [by left | discriminate Hreq].
Defined.

End TableMatchScore.

(** ** Further properties of the code *)

(** *** Python string methods *)

Section StringFacts.

Import PyStr.

Lemma lstrip_length (s : string) : String.length (lstrip s) <= String.length s.
Proof.
  induction s as [| c r IH]; simpl; [lia |].
  destruct (is_space c); simpl; lia.
Qed.

(** A string that [lstrip] leaves alone does not start with whitespace. *)
Lemma lstrip_fixed_head (c : ascii) (r : string) :
  lstrip (String c r) = String c r -> is_space c = false.
Proof.
  simpl. destruct (is_space c); [| reflexivity].
  intros H. pose proof (lstrip_length r) as Hl. rewrite H in Hl. simpl in Hl. lia.
Qed.

Lemma lstrip_idempotent (s : string) : lstrip (lstrip s) = lstrip s.
Proof.
  induction s as [| c r IH]; simpl; [reflexivity |].
  destruct (is_space c) eqn:Hc; [exact IH |].
  simpl. by rewrite Hc.
Qed.

Lemma rstrip_cons (c : ascii) (r : string) :
  rstrip (String c r)
  = match rstrip r with
    | EmptyString => if is_space c then EmptyString else String c EmptyString
    | r' => String c r'
    end.
Proof. reflexivity. Qed.

Lemma rstrip_idempotent (s : string) : rstrip (rstrip s) = rstrip s.
Proof.
  induction s as [| c r IH]; [reflexivity |].
  rewrite rstrip_cons.
  destruct (rstrip r) as [| c' r'] eqn:Hr.
  - destruct (is_space c) eqn:Hc; [reflexivity |].
    rewrite rstrip_cons. simpl. by rewrite Hc.
  - rewrite rstrip_cons, IH. reflexivity.
Qed.

Lemma lstrip_rstrip (s : string) : lstrip s = s -> lstrip (rstrip s) = rstrip s.
Proof.
  destruct s as [| c r]; [reflexivity |].
  intros H. apply lstrip_fixed_head in H.
  rewrite rstrip_cons. destruct (rstrip r); [rewrite H |]; simpl; by rewrite H.
Qed.

Lemma strip_lstrip (s : string) : lstrip (strip s) = strip s.
Proof. unfold strip. apply lstrip_rstrip, lstrip_idempotent. Qed.

Lemma strip_idempotent (s : string) : strip (strip s) = strip s.
Proof.
  unfold strip at 1. rewrite strip_lstrip. unfold strip. apply rstrip_idempotent.
Qed.

End StringFacts.

Section CharFacts.

Import PyStr.

Lemma ascii_cases (P : ascii -> bool) :
  forallb (fun n => P (ascii_of_nat n)) (seq 0 256) = true -> forall c, P c = true.
Proof.
  intros H c. rewrite forallb_forall in H.
  specialize (H (nat_of_ascii c)). rewrite ascii_nat_embedding in H.
  apply H, in_seq. pose proof (nat_ascii_bounded c). lia.
Qed.

Lemma ascii_eqb_true (a b : ascii) : Ascii.eqb a b = true -> a = b.
Proof. apply Ascii.eqb_eq. Qed.

Lemma is_space_to_upper (c : ascii) : is_space (to_upper c) = is_space c.
Proof.
  apply Bool.eqb_prop.
  apply (ascii_cases (fun c => Bool.eqb (is_space (to_upper c)) (is_space c))).
  vm_compute. reflexivity.
Qed.

Lemma is_space_to_lower (c : ascii) : is_space (to_lower c) = is_space c.
Proof.
  apply Bool.eqb_prop.
  apply (ascii_cases (fun c => Bool.eqb (is_space (to_lower c)) (is_space c))).
  vm_compute. reflexivity.
Qed.

Lemma to_upper_idempotent (c : ascii) : to_upper (to_upper c) = to_upper c.
Proof.
  apply ascii_eqb_true.
  apply (ascii_cases (fun c => Ascii.eqb (to_upper (to_upper c)) (to_upper c))).
  vm_compute. reflexivity.
Qed.

Lemma to_lower_idempotent (c : ascii) : to_lower (to_lower c) = to_lower c.
Proof.
  apply ascii_eqb_true.
  apply (ascii_cases (fun c => Ascii.eqb (to_lower (to_lower c)) (to_lower c))).
  vm_compute. reflexivity.
Qed.

Lemma to_upper_to_lower (c : ascii) : to_upper (to_lower c) = to_upper c.
Proof.
  apply ascii_eqb_true.
  apply (ascii_cases (fun c => Ascii.eqb (to_upper (to_lower c)) (to_upper c))).
  vm_compute. reflexivity.
Qed.

Lemma map_chars_compose (f g h : ascii -> ascii) (s : string) :
  (forall c, f (g c) = h c) -> map_chars f (map_chars g s) = map_chars h s.
Proof. intros H. induction s as [| c r IH]; simpl; [reflexivity | by rewrite H, IH]. Qed.

Lemma upper_idempotent (s : string) : upper (upper s) = upper s.
Proof. apply map_chars_compose, to_upper_idempotent. Qed.

Lemma lower_idempotent (s : string) : lower (lower s) = lower s.
Proof. apply map_chars_compose, to_lower_idempotent. Qed.

Lemma upper_lower (s : string) : upper (lower s) = upper s.
Proof. apply map_chars_compose, to_upper_to_lower. Qed.

Lemma lstrip_map_chars (f : ascii -> ascii) (s : string) :
  (forall c, is_space (f c) = is_space c) ->
  lstrip (map_chars f s) = map_chars f (lstrip s).
Proof.
  intros H. induction s as [| c r IH]; simpl; [reflexivity |].
  rewrite H. destruct (is_space c); [exact IH | reflexivity].
Qed.

Lemma rstrip_map_chars (f : ascii -> ascii) (s : string) :
  (forall c, is_space (f c) = is_space c) ->
  rstrip (map_chars f s) = map_chars f (rstrip s).
Proof.
  intros H. induction s as [| c r IH]; [reflexivity |].
  cbn [map_chars]. rewrite !rstrip_cons, IH, H.
  destruct (rstrip r); simpl; [destruct (is_space c) |]; reflexivity.
Qed.

Lemma strip_map_chars (f : ascii -> ascii) (s : string) :
  (forall c, is_space (f c) = is_space c) ->
  strip (map_chars f s) = map_chars f (strip s).
Proof.
  intros H. unfold strip. by rewrite lstrip_map_chars, rstrip_map_chars.
Qed.

Lemma strip_upper (s : string) : strip (upper s) = upper (strip s).
Proof. apply strip_map_chars, is_space_to_upper. Qed.

Lemma strip_lower (s : string) : strip (lower s) = lower (strip s).
Proof. apply strip_map_chars, is_space_to_lower. Qed.

Lemma collapse_spaces_idempotent (b : bool) (s : string) :
  collapse_spaces b (collapse_spaces b s) = collapse_spaces b s.
Proof.
  revert b. induction s as [| c r IH]; intros b; [reflexivity |].
  cbn [collapse_spaces]. destruct (is_space c) eqn:Hc.
  - destruct b; [apply IH |].
    cbn [collapse_spaces]. change (is_space " ") with true. cbv iota.
    by rewrite IH.
  - cbn [collapse_spaces]. by rewrite Hc, IH.
Qed.

Lemma collapse_spaces_empty (b : bool) (s : string) :
  collapse_spaces b s = EmptyString -> rstrip s = EmptyString.
Proof.
  revert b. induction s as [| c r IH]; intros b; [reflexivity |].
  cbn [collapse_spaces]. destruct (is_space c) eqn:Hc; [| discriminate].
  destruct b; [| discriminate].
  intros H. rewrite rstrip_cons, (IH true H), Hc. reflexivity.
Qed.

Lemma rstrip_collapse_spaces (b : bool) (s : string) :
  rstrip s = s -> rstrip (collapse_spaces b s) = collapse_spaces b s.
Proof.
  revert b. induction s as [| c r IH]; intros b; [reflexivity |].
  rewrite rstrip_cons. destruct (rstrip r) as [| c' r'] eqn:Hr.
  - destruct (is_space c) eqn:Hc; [discriminate |].
    intros H. injection H as <-. cbn [collapse_spaces]. rewrite Hc.
    rewrite rstrip_cons. simpl. by rewrite Hc.
  - intros H. injection H as Hfix.
    assert (Hrr : rstrip r = r) by congruence.
    assert (Hnonempty : forall b', collapse_spaces b' r <> EmptyString).
    { intros b' E. apply collapse_spaces_empty in E. congruence. }
    cbn [collapse_spaces]. destruct (is_space c) eqn:Hc.
    + destruct b; [by apply IH |].
      rewrite rstrip_cons, (IH true Hfix).
      destruct (collapse_spaces true r) eqn:E; [by apply Hnonempty in E | reflexivity].
    + rewrite rstrip_cons, (IH false Hfix).
      destruct (collapse_spaces false r) eqn:E; [by apply Hnonempty in E | reflexivity].
Qed.

Lemma lstrip_collapse_spaces (s : string) :
  lstrip s = s -> lstrip (collapse_spaces false s) = collapse_spaces false s.
Proof.
  destruct s as [| c r]; [reflexivity |].
  intros H. apply lstrip_fixed_head in H.
  cbn [collapse_spaces]. rewrite H. simpl. by rewrite H.
Qed.

Lemma strip_rstrip (s : string) : rstrip (strip s) = strip s.
Proof. unfold strip. apply rstrip_idempotent. Qed.

Lemma strip_collapse_spaces (s : string) :
  strip (collapse_spaces false (strip s)) = collapse_spaces false (strip s).
Proof.
  unfold strip at 1.
  rewrite lstrip_collapse_spaces by apply strip_lstrip.
  apply rstrip_collapse_spaces, strip_rstrip.
Qed.

End CharFacts.

(** *** Function Registry *)

Section RegistryExtras.

Import Registry.

(** X2: surrounding whitespace of a text input never changes the result of
    the functions that strip their input. *)
Theorem surrounding_whitespace_ignored (L : PyLib) (f : Fn) (s : string)
        (p : Params) (kw : Kwargs) :
  In f strips_input ->
  body L f (VStr (PyStr.strip s)) p kw = body L f (VStr s) p kw.
Proof.
  intros Hf. unfold strips_input in Hf. simpl in Hf.
  repeat (destruct Hf as [<- | Hf]);
    try (exfalso; exact Hf);
    cbn [body];
    unfold split_full_name, clean_whitespace, smart_date_parse, normalize_currency,
      lookup_pincode, validate_gstin, validate_email, normalize_phone, trim,
      concatenate, compute_date_diff, smart_date_parse_opt;
    cbn [isna py_str]; rewrite ?strip_idempotent; try reflexivity.
  destruct (kw_values kw); cbn [or_default]; [reflexivity |].
  cbn [List.filter isna negb map py_str]. by rewrite strip_idempotent.
Qed.

Lemma surrounding_whitespace_ignored_witness :
  In VALIDATE_GSTIN strips_input
  /\ body no_library VALIDATE_GSTIN (VStr (PyStr.strip "  27AAAAA0000A1Z5 ")) no_params no_kwargs
  = body no_library VALIDATE_GSTIN (VStr "  27AAAAA0000A1Z5 ") no_params no_kwargs.
Proof.
  assert (H : In VALIDATE_GSTIN strips_input) by (vm_compute; tauto).
  split; [exact H |].
  apply (surrounding_whitespace_ignored no_library VALIDATE_GSTIN _ _ _ H).
Defined.

(** X3: a valid result of [validate_gstin] carries the two digits of the
    state code and the ten characters of the PAN, cut from the stripped,
    upper-cased input, and no error; an invalid one carries neither, and
    an error message. *)
Theorem validate_gstin_components (L : PyLib) (v : Value) (p : Params) (kw : Kwargs) :
  exists ok state_code pan error,
    validate_gstin L v p kw = Ok (gstin_result ok state_code pan error)
    /\ if ok
       then error = ""
            /\ String.length state_code = 2 /\ String.length pan = 10
            /\ PyStr.all_chars PyStr.is_digit state_code = true
            /\ exists tail,
                 String.length tail = 3
                 /\ PyStr.upper (PyStr.strip (py_str L v))
                    = String.append state_code (String.append pan tail)
       else state_code = "" /\ pan = "" /\ error <> "".
Proof.
  unfold validate_gstin.
  destruct (isna v).
  { exists false, "", "", "Empty value". split; [reflexivity |]. by repeat split. }
  set (g := PyStr.upper (PyStr.strip (py_str L v))).
  destruct (String.length g =? 15)%nat eqn:Hlen; cbn [negb].
  2:{ eexists false, "", "", _. split; [reflexivity |]. repeat split. discriminate. }
  destruct (match_classes gstin_classes g) eqn:Hm; cbn [negb].
  2:{ exists false, "", "", "Invalid format". split; [reflexivity |]. by repeat split. }
  eexists true, _, _, "". split; [reflexivity |].
  unfold gstin_classes in Hm. cbn [repeat app] in Hm.
  do 15 (destruct g as [| ? g]; [discriminate Hm |];
         cbn [match_classes] in Hm; apply andb_prop in Hm as [? Hm]).
  destruct g; [| discriminate Hm].
  split; [reflexivity |]. split; [reflexivity |]. split; [reflexivity |].
  split.
  - cbn. unfold PyStr.all_chars. cbn. by rewrite H, H0.
  - eexists (String _ (String _ (String _ ""))). split; reflexivity.
Qed.

(** X4: the normalized address of a valid e-mail is itself valid, and is
    its own normal form. *)
Theorem validate_email_normal_form (L : PyLib) (v : Value) (p : Params)
        (kw : Kwargs) (normalized : string) :
  validate_email L v p kw = Ok (email_result true normalized "") ->
  validate_email L (VStr normalized) p kw = Ok (email_result true normalized "").
Proof.
  unfold validate_email. destruct (isna v); [discriminate |].
  destruct (email_match _) eqn:Hm; [| discriminate].
  intros H. injection H as <-. cbn [isna py_str].
  rewrite strip_lower, strip_idempotent, lower_idempotent.
  by rewrite Hm.
Qed.

Lemma validate_email_normal_form_witness :
  validate_email no_library (VStr " Ann@Example.COM ") no_params no_kwargs
  = Ok (email_result true "ann@example.com" "")
  /\ validate_email no_library (VStr "ann@example.com") no_params no_kwargs
     = Ok (email_result true "ann@example.com" "").
Proof.
  assert (H : validate_email no_library (VStr " Ann@Example.COM ") no_params no_kwargs
              = Ok (email_result true "ann@example.com" "")) by reflexivity.
  split; [exact H |].
  exact (validate_email_normal_form no_library _ no_params no_kwargs _ H).
Defined.

(** X5: [conditional_fill] is idempotent: filling what it returned, with
    the same parameters and row, returns it again. *)
Theorem conditional_fill_idempotent (L : PyLib) (v r : Value) (p : Params)
        (kw : Kwargs) :
  conditional_fill L v p kw = Ok r -> conditional_fill L r p kw = Ok r.
Proof.
  unfold conditional_fill.
  destruct (isna v || PyStr.is_empty (PyStr.strip (py_str L v))) eqn:E.
  - intros H.
    destruct (isna r || PyStr.is_empty (PyStr.strip (py_str L r)));
      [exact H | reflexivity].
  - intros H. injection H as <-. by rewrite E.
Qed.

Lemma conditional_fill_idempotent_witness :
  conditional_fill no_library (VStr " ") no_params
                   (mkKwargs (Some [("alt", VStr "x")]) None) = Ok (VStr "")
  /\ conditional_fill no_library (VStr "") no_params
                      (mkKwargs (Some [("alt", VStr "x")]) None) = Ok (VStr "").
Proof.
  assert (H : conditional_fill no_library (VStr " ") no_params
                (mkKwargs (Some [("alt", VStr "x")]) None) = Ok (VStr ""))
    by reflexivity.
  split; [exact H |].
  exact (conditional_fill_idempotent no_library _ _ _ _ H).
Defined.

(** X6: [regex_extract] lets an exception through in two situations and
    in no other: [re.search] raises something that is not [re.error]
    ([OverflowError] for a repeat count that is too large), or the
    pattern matches and the group index is negative ([IndexError]).  A
    group index beyond the groups of the match gives the empty string. *)
Theorem regex_extract_group_index (L : PyLib) (v : Value) (p : Params) (kw : Kwargs) :
  let pattern := or_default (p_pattern p) "" in
  let group_index := or_default (p_group_index p) 0%Z in
  ((exists e, regex_extract L v p kw = Raise e)
   <-> isna v = false /\ pattern <> ""
       /\ ((exists e, re_search L pattern (py_str L v) = ReRaise e)
           \/ ((exists whole groups,
                   re_search L pattern (py_str L v) = ReMatch whole groups)
               /\ (group_index < 0)%Z)))
  /\ (forall e, isna v = false -> pattern <> "" ->
                re_search L pattern (py_str L v) = ReRaise e ->
                regex_extract L v p kw = Raise e)
  /\ (forall whole groups,
         isna v = false -> pattern <> "" ->
         re_search L pattern (py_str L v) = ReMatch whole groups ->
         (Z.of_nat (length groups) < group_index)%Z ->
         regex_extract L v p kw = Ok (VStr "")).
Proof.
  intros pattern group_index.
  split; [exact (regex_extract_raises L v p kw) |].
  unfold regex_extract. fold pattern. fold group_index.
  split.
  - intros e -> Hne Hs.
    destruct (PyStr.is_empty pattern) eqn:Hp;
      [destruct pattern; [congruence | discriminate Hp] |].
    by rewrite Hs.
  - intros whole groups -> Hne Hs Hlt.
    destruct (PyStr.is_empty pattern) eqn:Hp;
      [destruct pattern; [congruence | discriminate Hp] |].
    rewrite Hs.
    pose proof (Nat2Z.is_nonneg (length groups)) as Hlen.
    destruct (group_index =? 0)%Z eqn:H0; [apply Z.eqb_eq in H0; lia |].
    destruct (group_index <=? Z.of_nat (length groups))%Z eqn:Hle;
      [apply Z.leb_le in Hle; lia | reflexivity].
Qed.

(** X7: [lookup_pincode] always answers with the three keys [city],
    [state] and [country]; the country is "India" for every input that is
    not null, known pincode or not, and empty for a null input; city and
    state are filled together or not at all. *)
Theorem lookup_pincode_shape (L : PyLib) (v : Value) (p : Params) (kw : Kwargs) :
  exists city state country,
    lookup_pincode L v p kw = Ok (place city state country)
    /\ country = (if isna v then "" else "India")
    /\ (city = "" <-> state = "")
    /\ (dict_get (PyStr.strip (py_str L v)) mock_data = None -> city = "").
Proof.
  unfold lookup_pincode. destruct (isna v).
  { exists "", "", "". repeat split; reflexivity. }
  generalize (PyStr.strip (py_str L v)). intros k.
  unfold mock_data. cbn [dict_get].
  repeat match goal with
         | |- context [if String.eqb ?a ?b then _ else _] =>
             destruct (String.eqb a b);
             [eexists _, _, _; split; [reflexivity |];
              split; [reflexivity |]; split; [split; discriminate | discriminate] |]
         end.
  exists "", "", "India". repeat split; reflexivity.
Qed.

Lemma strip_parts_not_empty (raw : list string) (x : string) :
  In x (map PyStr.strip
            (List.filter (fun p => negb (PyStr.is_empty (PyStr.strip p))) raw)) ->
  PyStr.is_empty x = false.
Proof.
  intros H. apply in_map_iff in H as (y & <- & Hy).
  apply filter_In in Hy as [_ Hy]. by apply negb_true_iff in Hy.
Qed.

Lemma last_in {A} (l : list A) (d : A) : l <> [] -> In (List.last l d) l.
Proof.
  induction l as [| a [| b r] IH]; intros H; [congruence | by left |].
  right. apply IH. discriminate.
Qed.

(** X8: the culture only exchanges first and last name.  Whatever the
    other parameters, the eastern result is the western one with first
    and last name exchanged when both are present, and the western result
    itself otherwise; the middle name is the same, and the two calls fail
    together. *)
Theorem split_full_name_culture (L : PyLib) (v : Value) (p : Params) (kw : Kwargs) :
  match split_full_name L v (with_culture "western" p) kw with
  | Ok western =>
      exists first middle last,
        western = name_dict first middle last
        /\ split_full_name L v (with_culture "eastern" p) kw
           = Ok (eastern_of first middle last)
  | Raise e => split_full_name L v (with_culture "eastern" p) kw = Raise e
  end.
Proof.
  unfold split_full_name. cbn [with_culture p_culture p_delimiter
                               p_handle_single_name or_default].
  destruct (isna v). { by exists "", "", "". }
  destruct (PyStr.is_empty (PyStr.strip (py_str L v))). { by exists "", "", "". }
  match goal with
  | |- context [PyStr.split ?d ?s] => destruct (PyStr.split d s) as [raw |]
  end; [| reflexivity].
  pose proof (strip_parts_not_empty raw) as Hne.
  destruct (map PyStr.strip _) as [| a [| b [| c r]]] eqn:Hparts.
  - by exists "", "", "".
  - destruct (String.eqb _ "last_name_only").
    + exists "", "", a. split; [reflexivity |]. reflexivity.
    + exists a, "", "". split; [reflexivity |]. unfold eastern_of.
      by rewrite orb_true_r.
  - change (String.eqb "western" "eastern") with false.
    change (String.eqb "eastern" "eastern") with true. cbv iota.
    exists a, "", b. split; [reflexivity |]. unfold eastern_of.
    rewrite (Hne a), (Hne b) by (simpl; tauto). reflexivity.
  - change (String.eqb "western" "eastern") with false.
    change (String.eqb "eastern" "eastern") with true. cbv iota.
    eexists a, _, _. split; [reflexivity |]. unfold eastern_of.
    rewrite (Hne a) by (simpl; tauto).
    rewrite (Hne (List.last (a :: b :: c :: r) "")); [reflexivity |].
    apply last_in. discriminate.
Qed.

(** X9: [clean_whitespace] is idempotent: its result has no whitespace at
    either end and no run of whitespace left to collapse. *)
Theorem clean_whitespace_idempotent (L : PyLib) (v r : Value) (p : Params)
        (kw : Kwargs) :
  clean_whitespace L v p kw = Ok r -> clean_whitespace L r p kw = Ok r.
Proof.
  unfold clean_whitespace. destruct (isna v).
  - intros H. injection H as <-. reflexivity.
  - intros H. injection H as <-. cbn [isna py_str].
    by rewrite strip_collapse_spaces, collapse_spaces_idempotent.
Qed.

Lemma clean_whitespace_idempotent_witness :
  clean_whitespace no_library (VStr "  John 	  Doe ") no_params no_kwargs
  = Ok (VStr "John Doe")
  /\ clean_whitespace no_library (VStr "John Doe") no_params no_kwargs
     = Ok (VStr "John Doe").
Proof.
  assert (H : clean_whitespace no_library (VStr "  John 	  Doe ") no_params no_kwargs
              = Ok (VStr "John Doe")) by reflexivity.
  split; [exact H |].
  exact (clean_whitespace_idempotent no_library _ _ no_params no_kwargs H).
Defined.

End RegistryExtras.

(** *** Execution Engine *)

Section EngineExtras.

Import Registry Plan Engine.

Lemma well_formed_assoc_set (c : string) (s : list Value) (n : nat)
      (cs : list (string * list Value)) :
  Forall (fun c => length (snd c) = n) cs -> length s = n ->
  Forall (fun c => length (snd c) = n) (assoc_set c s cs).
Proof.
  intros Hcs Hs. induction cs as [| [k v] cs IH]; simpl.
  - by constructor.
  - apply Forall_cons in Hcs as [Hv Hrest].
    destruct (String.eqb c k); constructor; auto.
Qed.

(** Copying a column of [df] into the projected frame keeps it well
    formed, with the rows of [df] once it has a column. *)
Lemma set_column_projected (c x : string) (df target_df : DataFrame) :
  well_formed df -> has_column x df = true ->
  well_formed target_df -> sized df target_df ->
  well_formed (set_column c (column x df) target_df)
  /\ sized df (set_column c (column x df) target_df).
Proof.
  intros Hwf Hx Ht Hs.
  pose proof (column_length x df Hwf Hx) as Hlen.
  split; [| by apply set_column_sized].
  unfold well_formed, set_column in *. cbn [nrows cols].
  destruct Hs as [[Hc Hn] | Hn].
  - rewrite Hc, Hn. simpl. by constructor.
  - assert (HN : match cols target_df, nrows target_df with
                 | [], O => length (column x df)
                 | _, n => n
                 end = nrows df).
    { destruct (cols target_df), (nrows target_df); simpl in *; congruence. }
    rewrite HN. apply well_formed_assoc_set; [| exact Hlen].
    rewrite <- Hn. exact Ht.
Qed.

Lemma mapped_well_formed (df target_df : DataFrame) (m : ColumnMapping) :
  well_formed df -> well_formed target_df -> sized df target_df ->
  well_formed (mapped df target_df m) /\ sized df (mapped df target_df m).
Proof.
  intros Hwf Ht Hs. unfold mapped.
  destruct (action m); [| | by split];
    destruct (has_column (source_col m) df) eqn:H1;
    destruct (has_column (target_col m) df) eqn:H2;
    try (by split); by apply set_column_projected.
Qed.

Lemma mappings_projected (df : DataFrame) (ms : list ColumnMapping)
      (target_df : DataFrame) :
  well_formed df -> well_formed target_df -> sized df target_df ->
  well_formed (fold_left (mapped df) ms target_df)
  /\ sized df (fold_left (mapped df) ms target_df).
Proof.
  intros Hwf. revert target_df.
  induction ms as [| m ms IH]; intros target_df Ht Hs; simpl; [by split |].
  destruct (mapped_well_formed df target_df m Hwf Ht Hs). by apply IH.
Qed.

Lemma enrichment_columns_projected (df : DataFrame) (plan : TransformationPlan)
      (cs : list string) (target_df : DataFrame) :
  well_formed df -> (forall col, In col cs -> has_column col df = true) ->
  well_formed target_df -> sized df target_df ->
  well_formed (fold_left (kept df plan) cs target_df)
  /\ sized df (fold_left (kept df plan) cs target_df).
Proof.
  intros Hwf. revert target_df.
  induction cs as [| c cs IH]; intros target_df Hin Ht Hs; simpl; [by split |].
  assert (Hstep : well_formed (kept df plan target_df c)
                  /\ sized df (kept df plan target_df c)).
  { unfold kept.
    destruct (_ && _); [| by split].
    apply set_column_projected; auto. apply Hin. by left. }
  destruct Hstep. apply IH; auto. intros col Hc. apply Hin. by right.
Qed.

Lemma columns_present (df : DataFrame) (c : string) :
  In c (columns df) -> has_column c df = true.
Proof. intros H. by apply mem_true_iff. Qed.

Lemma projected_well_formed (df : DataFrame) (plan : TransformationPlan) :
  well_formed df ->
  well_formed (projected df plan) /\ sized df (projected df plan).
Proof.
  intros Hwf. unfold projected.
  apply enrichment_columns_projected; auto using columns_present.
  - apply mappings_projected; auto; [constructor | left; by split].
  - apply mappings_projected; auto; [constructor | left; by split].
Qed.

(** X10: the engine neither drops nor adds rows: for a rectangular input
    frame with distinct labels, [execute] returns a frame, that frame is
    rectangular and has as many rows as the input, whatever the plan and
    whatever fails on the way. *)
Theorem execute_keeps_rows (L : PyLib) (l : nat) (plan : TransformationPlan)
        (st : State) (df : DataFrame) :
  frames st !! l = Some df -> well_formed df -> distinct_labels df ->
  exists out,
    output L l plan st = Ok out /\ well_formed out /\ nrows out = nrows df.
Proof.
  intros Hdf Hwf Hnd. exists (result_frame L df plan).
  split; [by apply execute_frame |]. unfold result_frame.
  destruct (working_rectangular L df plan Hwf) as [Hw Hn].
  destruct (projected_well_formed (working L df plan) plan Hw) as [Hp Hs].
  destruct (empty (projected (working L df plan) plan)) eqn:He; [by split |].
  split; [exact Hp |].
  unfold empty in He. apply orb_false_iff in He as [He1 He2].
  destruct Hs as [[Hc _] | Hs]; [by rewrite Hc in He2 | congruence].
Qed.

Lemma execute_keeps_rows_witness :
  frames (store_of two_columns) !! 0 = Some two_columns
  /\ well_formed two_columns
  /\ distinct_labels two_columns
  /\ exists out,
       output no_library 0 copy_and_skip (store_of two_columns) = Ok out
       /\ well_formed out /\ nrows out = nrows two_columns.
Proof.
  assert (H1 : frames (store_of two_columns) !! 0 = Some two_columns) by reflexivity.
  assert (H2 : well_formed two_columns) by (repeat constructor).
  split; [exact H1 |]. split; [exact H2 |]. split; [exact distinct_two_columns |].
  exact (execute_keeps_rows no_library 0 copy_and_skip _ _ H1 H2 distinct_two_columns).
Defined.

Lemma enrichment_columns_source (c : string) (df : DataFrame)
      (plan : TransformationPlan) (cs : list string) (target_df : DataFrame) :
  has_column c (fold_left (kept df plan) cs target_df) = true ->
  has_column c target_df = true
  \/ exists e, In e (enrichments plan) /\ In c (target_cols e).
Proof.
  revert target_df. induction cs as [| x cs IH]; intros target_df H; simpl in H.
  - by left.
  - apply IH in H as [H | H]; [| by right].
    unfold kept in H.
    destruct (negb _ && negb _ && existsb _ (enrichments plan)) eqn:Hc; [| by left].
    apply andb_prop in Hc as [_ He].
    apply existsb_exists in He as (e & He & Hm). apply mem_true_iff in Hm.
    rewrite has_column_set_column in H.
    apply orb_prop in H as [H | H]; [| by left].
    apply String.eqb_eq in H. subst x. right. by exists e.
Qed.

(** X11: for an input frame with distinct labels, the engine returns the
    whole working frame when the projected frame is empty, and the
    projected frame otherwise; every column of the projected frame is the
    target of a mapping that is not [skip] or a target column of an
    enrichment: no other source column reaches it. *)
Theorem execute_output_columns (L : PyLib) (l : nat) (plan : TransformationPlan)
        (st : State) (df : DataFrame) :
  frames st !! l = Some df -> distinct_labels df ->
  exists out,
    output L l plan st = Ok out
    /\ if empty (projected (working L df plan) plan)
       then out = working L df plan
       else out = projected (working L df plan) plan
            /\ forall c,
                 has_column c out = true ->
                 (exists m, In m (column_mappings plan)
                            /\ action m <> Skip /\ target_col m = c)
                 \/ exists e, In e (enrichments plan) /\ In c (target_cols e).
Proof.
  intros Hdf Hnd. exists (result_frame L df plan).
  split; [by apply execute_frame |]. unfold result_frame.
  destruct (empty _); [reflexivity |]. split; [reflexivity |].
  intros c Hc. unfold projected in Hc.
  apply enrichment_columns_source in Hc as [Hc | Hc]; [| by right].
  apply mappings_columns in Hc as [Hc | Hc]; [discriminate Hc | by left].
Qed.

Lemma execute_output_columns_witness :
  frames (store_of two_columns) !! 0 = Some two_columns
  /\ distinct_labels two_columns
  /\ exists out,
       output no_library 0 copy_and_skip (store_of two_columns) = Ok out
       /\ out = projected (working no_library two_columns copy_and_skip) copy_and_skip
       /\ forall c,
            has_column c out = true ->
            (exists m, In m (column_mappings copy_and_skip)
                       /\ action m <> Skip /\ target_col m = c)
            \/ exists e, In e (enrichments copy_and_skip) /\ In c (target_cols e).
Proof.
  assert (H1 : frames (store_of two_columns) !! 0 = Some two_columns) by reflexivity.
  split; [exact H1 |]. split; [exact distinct_two_columns |].
  exact (execute_output_columns no_library 0 copy_and_skip _ _ H1 distinct_two_columns).
Defined.




End EngineExtras.

(** *** Table Matcher *)

Section MatcherExtras.

Import Registry Matcher.

Variable M : MatchLib.

Lemma pass_step_matching (schema : TargetSchema) (table : DetectedTable)
      (seen : list string) (st : Pass) (source_col : string) :
  matching_invariant M table schema seen st ->
  matching_invariant M table schema (seen ++ [source_col])
    (pass_step M table (target_dict schema) st source_col).
Proof.
  intros (Hnd & Ht & Hs & Hm).
  destruct (pass_step_cases M table (target_dict schema) st source_col)
    as [-> | (b & Hb & Hne & Hth & ->)].
  - split; [exact Hnd |]. split; [exact Ht |]. split; [exact Hs |].
    intros s t H. destruct (Hm s t H) as [Hseen Hex]. split; [| exact Hex].
    apply in_or_app. by left.
  - pose proof (best_target_spec M table source_col (target_dict schema)
                                 (target_matched_set st)) as [_ Hbest].
    cbv zeta in Hbest. rewrite Hb in Hbest.
    destruct Hbest as ([k col] & Hin & Hk & Hfree & Hscore).
    cbn [fst] in Hk. subst k.
    apply target_dict_in in Hin as [Hcol Hname].
    unfold matching_invariant.
    cbn [matched source_matched_set target_matched_set].
    rewrite !List.map_app. cbn [map fst snd].
    split; [| split; [| split]].
    + apply NoDup_app. split; [exact Hnd |]. split; [| apply NoDup_singleton].
      intros x Hx Hx'. apply list_elem_of_In in Hx.
      apply list_elem_of_singleton in Hx'. subst x.
      apply Hfree. by apply Ht.
    + intros t. rewrite in_app_iff, elem_of_union, elem_of_singleton, <- Ht.
      simpl. intuition.
    + intros s. rewrite in_app_iff, elem_of_union, elem_of_singleton, <- Hs.
      simpl. intuition.
    + intros s t H. apply in_app_or in H as [H | [H | []]].
      * destruct (Hm s t H) as [Hseen Hex]. split; [| exact Hex].
        apply in_or_app. by left.
      * injection H as <- <-. split; [apply in_or_app; right; by left |].
        exists col. split; [exact Hcol |]. split; [exact Hname |].
        rewrite Hscore in Hth. exact Hth.
Qed.

Lemma fold_pass_matching (schema : TargetSchema) (table : DetectedTable)
      (todo seen : list string) (st : Pass) :
  matching_invariant M table schema seen st ->
  matching_invariant M table schema (seen ++ todo)
    (fold_left (pass_step M table (target_dict schema)) todo st).
Proof.
  revert seen st. induction todo as [| c todo IH]; intros seen st H; simpl.
  - by rewrite app_nil_r.
  - replace (seen ++ c :: todo) with ((seen ++ [c]) ++ todo)
      by (by rewrite <- app_assoc).
    apply IH. by apply pass_step_matching.
Qed.

Lemma first_pass_matching (schema : TargetSchema) (table : DetectedTable) :
  matching_invariant M table schema (column_names table) (first_pass M table schema).
Proof.
  unfold first_pass.
  apply (fold_pass_matching schema table (column_names table) []).
  split; [constructor |]. split; [| split].
  - intros t. simpl. set_solver.
  - intros s. simpl. set_solver.
  - intros s t [].
Qed.

(** X13: the matched columns are a matching.  No target column is given to
    two source columns; every pair joins a column of the table to a column
    of the schema, and that pair scored at least the moderate threshold. *)
Theorem matched_columns_form_a_matching (schema : TargetSchema)
        (table : DetectedTable) :
  let m := _match_table_to_schema M table schema in
  NoDup (map snd (matched_columns m))
  /\ forall s t,
       In (s, t) (matched_columns m) ->
       In s (column_names table)
       /\ exists col, In col (columns schema) /\ name col = t
            /\ (MODERATE_MATCH_THRESHOLD <= score_of M table s (t, col))%Q.
Proof.
  destruct (first_pass_matching schema table) as (Hnd & _ & _ & Hm).
  split; [exact Hnd | exact Hm].
Qed.

(** X14: nothing is lost in the report.  A source column is listed as
    unmatched exactly when it is in no matched pair, and a required
    target column is listed as missing exactly when no source column was
    matched to it. *)
Theorem match_report_is_complete (schema : TargetSchema) (table : DetectedTable) :
  let m := _match_table_to_schema M table schema in
  (forall s, In s (unmatched_source_cols m)
             <-> In s (column_names table) /\ ~ In s (map fst (matched_columns m)))
  /\ (forall t, In t (unmatched_target_cols m)
                <-> (exists col, In col (columns schema) /\ name col = t
                                 /\ required col = true)
                    /\ ~ In t (map snd (matched_columns m))).
Proof.
  destruct (first_pass_matching schema table) as (_ & Ht & Hs & _).
  cbn [_match_table_to_schema unmatched_source_cols unmatched_target_cols
       matched_columns]. split.
  - intros s. rewrite filter_In, negb_true_iff, bool_decide_eq_false, Hs. tauto.
  - intros t. rewrite in_map_iff. split.
    + intros (col & <- & Hin). apply filter_In in Hin as [Hin Hc].
      apply andb_prop in Hc as [Hc Hr].
      apply negb_true_iff, bool_decide_eq_false in Hc.
      split; [by exists col | by rewrite Ht].
    + intros [(col & Hin & <- & Hr) Hno]. exists col. split; [reflexivity |].
      apply filter_In. split; [exact Hin |].
      rewrite Hr, andb_true_r. apply negb_true_iff, bool_decide_eq_false.
      by rewrite <- Ht.
Qed.

Lemma filter_length_le {A} (p q : A -> bool) (l : list A) :
  length (List.filter (fun x => p x && q x) l) <= length (List.filter p l).
Proof.
  induction l as [| a l IH]; simpl; [lia |].
  destruct (p a), (q a); simpl; lia.
Qed.

Lemma claimed_with_le_total (flag : bool) (schema : TargetSchema)
      (claimed : gset string) :
  (claimed_with flag schema claimed <= total_with flag schema)%Z.
Proof.
  unfold claimed_with, total_with, count. apply inj_le, filter_length_le.
Qed.

Lemma ratio_or_one_unit (a b : Z) :
  (0 <= a <= b)%Z -> (0 <= ratio_or_one a b <= 1)%Q.
Proof.
  intros [Ha Hb]. unfold ratio_or_one.
  destruct (0 <? b)%Z eqn:E; [| split; discriminate].
  apply Z.ltb_lt in E. split.
  - apply Qle_shift_div_l; [unfold Qlt; simpl; lia |].
    unfold Qle. simpl. lia.
  - apply Qle_shift_div_r; [unfold Qlt; simpl; lia |].
    unfold Qle. simpl. lia.
Qed.

Lemma first_pass_pass_invariant (schema : TargetSchema) (table : DetectedTable) :
  pass_invariant schema (first_pass M table schema).
Proof.
  destruct (first_pass_matching schema table) as (Hnd & Ht & _ & Hm).
  split.
  - intros k Hk. apply Ht in Hk. apply in_map_iff in Hk as ([s t] & <- & Hin).
    destruct (Hm s t Hin) as (_ & col & Hc & Hn & _). by exists col.
  - rewrite <- (length_map snd).
    rewrite <- (size_list_to_set (C := gset string)) by exact Hnd.
    f_equal. apply set_eq. intros x.
    rewrite elem_of_list_to_set, list_elem_of_In. apply Ht.
Qed.

(** X15: for a schema whose column names are distinct and whose
    [required_columns] list agrees with the [required] flags, the match
    score of a table lies between 0 and 1. *)
Theorem match_score_bounds (schema : TargetSchema) (table : DetectedTable) :
  NoDup (map name (columns schema)) -> consistent schema ->
  (0 <= match_score (_match_table_to_schema M table schema) <= 1)%Q.
Proof.
  intros Hnd Hcons.
  pose proof (first_pass_pass_invariant schema table) as Hpi.
  set (st := first_pass M table schema) in *.
  assert (Hno : forall a b, (ratio no_similarity a b <= 1)%Q) by (intros; discriminate).
  pose proof (claimed_split no_similarity Hno schema st Hnd Hpi) as Hsplit.
  pose proof (total_split schema) as Htot.
  pose proof (claimed_with_le_total true schema (target_matched_set st)) as Ht.
  pose proof (claimed_with_le_total false schema (target_matched_set st)) as Hf.
  pose proof (claimed_with_nonneg true schema (target_matched_set st)) as Ht0.
  pose proof (claimed_with_nonneg false schema (target_matched_set st)) as Hf0.
  cbn [_match_table_to_schema match_score].
  unfold required_score, optional_score. fold st.
  rewrite required_matched_claimed, Hsplit, Htot, Hcons.
  replace (claimed_with true schema (target_matched_set st)
           + claimed_with false schema (target_matched_set st)
           - claimed_with true schema (target_matched_set st))%Z
    with (claimed_with false schema (target_matched_set st)) by lia.
  replace (total_with true schema + total_with false schema
           - total_with true schema)%Z
    with (total_with false schema) by lia.
  pose proof (ratio_or_one_unit _ _ (conj Ht0 Ht)) as [Hr0 Hr1].
  pose proof (ratio_or_one_unit _ _ (conj Hf0 Hf)) as [Ho0 Ho1].
  split; [| lra].
  apply Qle_trans with (0 * 0 + 0 * 0)%Q; [discriminate |]. lra.
Qed.

End MatcherExtras.

Section MatcherWitnesses.

Import Registry Matcher.

Lemma match_score_bounds_witness :
  NoDup (map name (columns contact_schema))
  /\ consistent contact_schema
  /\ (0 <= match_score (_match_table_to_schema no_similarity first_name_table
                                                 contact_schema) <= 1)%Q.
Proof.
  assert (H1 : NoDup (map name (columns contact_schema))).
  { apply (bool_decide_unpack _). vm_compute. exact I. }
  assert (H2 : consistent contact_schema) by reflexivity.
  split; [exact H1 |]. split; [exact H2 |].
  exact (match_score_bounds no_similarity contact_schema first_name_table H1 H2).
Defined.

End MatcherWitnesses.

Section MatchingProperties.

Import Registry Matcher Matching.

Lemma insert_match_in (m x : TableMatch) (l : list TableMatch) :
  In x (insert_match m l) <-> x = m \/ In x l.
Proof.
  induction l as [| y l IH]; simpl; [intuition |].
  destruct (Qle_bool _ _); simpl; [intuition |].
  rewrite IH. intuition.
Qed.

Lemma insert_match_perm (m : TableMatch) (l : list TableMatch) :
  Permutation (insert_match m l) (m :: l).
Proof.
  induction l as [| y l IH]; simpl; [reflexivity |].
  destruct (Qle_bool _ _); [reflexivity |].
  rewrite IH. apply perm_swap.
Qed.

Lemma insert_match_descending (m : TableMatch) (l : list TableMatch) :
  descending l -> descending (insert_match m l).
Proof.
  induction l as [| y l IH]; intros Hd; simpl; [split; [intros ? [] | exact I] |].
  destruct Hd as [Hy Hd].
  destruct (Qle_bool (match_score y) (match_score m)) eqn:E.
  - apply Qle_bool_iff in E. cbn [descending]. split; [| by split].
    intros m' [<- | Hin]; [exact E |].
    apply Qle_trans with (match_score y); [by apply Hy | exact E].
  - assert (Hlt : (match_score m <= match_score y)%Q).
    { apply Qlt_le_weak, Qnot_le_lt. intros H. apply Qle_bool_iff in H.
      rewrite H in E. discriminate E. }
    cbn [descending]. split; [| by apply IH].
    intros m' Hin. apply insert_match_in in Hin as [-> | Hin]; [exact Hlt | by apply Hy].
Qed.

Lemma sort_matches_perm (l : list TableMatch) : Permutation (sort_matches l) l.
Proof.
  induction l as [| m l IH]; simpl; [reflexivity |].
  by rewrite insert_match_perm, IH.
Qed.

Lemma sort_matches_descending (l : list TableMatch) : descending (sort_matches l).
Proof.
  induction l as [| m l IH]; simpl; [exact I | by apply insert_match_descending].
Qed.

Lemma filter_perm_length {A} (p : A -> bool) (l l' : list A) :
  Permutation l l' -> length (List.filter p l) = length (List.filter p l').
Proof.
  induction 1 as [| x l l' _ IH | x y l | l l' l'' _ IH1 _ IH2]; simpl.
  - reflexivity.
  - destruct (p x); simpl; congruence.
  - destruct (p x), (p y); reflexivity.
  - congruence.
Qed.

Lemma filter_map_length {A B} (p : B -> bool) (f : A -> B) (l : list A) :
  length (List.filter p (map f l)) = length (List.filter (fun a => p (f a)) l).
Proof.
  induction l as [| a l IH]; simpl; [reflexivity |].
  destruct (p (f a)); simpl; by rewrite IH.
Qed.

(** X16: [run] reports one match for every detected table, ordered from
    the highest score to the lowest.  The best match is the first of
    them: none exists when no table was detected, and no table scores
    more.  The user is asked to choose exactly when two or more tables
    score at least the high threshold, and only then is there a
    prompt. *)
Theorem run_ranks_the_tables (M : MatchLib)
        (prompt : list TableMatch -> list DetectedTable -> string)
        (detected_tables : list DetectedTable) (target_schema : option TargetSchema) :
  let schema := or_default target_schema GENERIC_CUSTOMER_SCHEMA in
  let r := run M prompt detected_tables target_schema in
  Permutation (matches r)
              (map (fun table => _match_table_to_schema M table schema) detected_tables)
  /\ descending (matches r)
  /\ (best_match_table_id r = None <-> detected_tables = [])
  /\ (forall id, best_match_table_id r = Some id ->
        exists m, In m (matches r) /\ m_table_id m = id
                  /\ forall m', In m' (matches r) ->
                                (match_score m' <= match_score m)%Q)
  /\ (requires_user_selection r = true
      <-> 2 <= length (List.filter
                         (fun table => good (_match_table_to_schema M table schema))
                         detected_tables))
  /\ (requires_user_selection r = true <-> user_prompt r <> None).
Proof.
  intros schema r. unfold r, run. fold schema.
  set (found := map (fun table => _match_table_to_schema M table schema) detected_tables).
  cbn [matches best_match_table_id requires_user_selection user_prompt].
  pose proof (sort_matches_perm found) as Hperm.
  pose proof (sort_matches_descending found) as Hdesc.
  split; [exact Hperm |]. split; [exact Hdesc |]. split; [| split; [| split]].
  - destruct (sort_matches found) as [| m rest] eqn:E.
    + apply Permutation_nil in Hperm. unfold found in Hperm.
      split; [intros _ | reflexivity].
      by destruct detected_tables.
    + split; [discriminate |]. intros ->. unfold found in Hperm. simpl in Hperm.
      symmetry in Hperm. by apply Permutation_nil in Hperm.
  - intros id Hid. destruct (sort_matches found) as [| m rest]; [discriminate |].
    injection Hid as <-. destruct Hdesc as [Hm _].
    exists m. split; [by left |]. split; [reflexivity |].
    intros m' [<- | Hin]; [apply Qle_refl | by apply Hm].
  - rewrite (filter_perm_length good _ _ Hperm). unfold found.
    rewrite Nat.ltb_lt.
    pose proof (filter_map_length
                  good (fun table => _match_table_to_schema M table schema)
                  detected_tables) as Hlen.
    rewrite Hlen. lia.
  - destruct (1 <? _)%nat; split; intros H;
      [discriminate | reflexivity | discriminate H | exfalso; by apply H].
Qed.

End MatchingProperties.

(** *** Target schema and fallback plan *)

Section SchemaProperties.

Import Matcher.

(** X17: [get_column] looks a column up by name without regard to letter
    case: two names with the same lower-cased form find the same column.
    It answers with a column of the schema whose lower-cased name is the
    lower-cased argument, and with [None] exactly when there is none;
    when no two columns have the same lower-cased name, every column is
    found under its own name. *)
Theorem get_column_ignores_case (schema : TargetSchema) (column_name : string) :
  (forall other, PyStr.lower other = PyStr.lower column_name ->
                 get_column schema other = get_column schema column_name)
  /\ get_column schema (PyStr.lower column_name) = get_column schema column_name
  /\ (forall col, get_column schema column_name = Some col ->
                  In col (columns schema)
                  /\ PyStr.lower (name col) = PyStr.lower column_name)
  /\ (get_column schema column_name = None
      <-> forall col, In col (columns schema) ->
                      PyStr.lower (name col) <> PyStr.lower column_name)
  /\ (NoDup (map (fun col => PyStr.lower (name col)) (columns schema)) ->
      forall col, In col (columns schema) -> get_column schema (name col) = Some col).
Proof.
  unfold get_column. rewrite lower_idempotent.
  split; [by intros other -> |]. split; [reflexivity |]. split; [| split].
  - intros col H. apply find_some in H as [Hin Heq].
    apply String.eqb_eq in Heq. by split.
  - split.
    + intros H col Hin Heq.
      apply (find_none _ _ H) in Hin. rewrite Heq, String.eqb_refl in Hin.
      discriminate Hin.
    + intros H. destruct (find _ _) as [col |] eqn:E; [| reflexivity].
      apply find_some in E as [Hin Heq]. apply String.eqb_eq in Heq.
      by destruct (H col Hin).
  - induction (columns schema) as [| c cs IH]; intros Hnd col Hin; [destruct Hin |].
    cbn [map] in Hnd. apply NoDup_cons in Hnd as [Hc Hnd].
    cbn [find]. destruct Hin as [<- | Hin].
    + by rewrite String.eqb_refl.
    + destruct (String.eqb _ _) eqn:E; [| by apply IH].
      apply String.eqb_eq in E. exfalso. apply Hc.
      rewrite E. apply list_elem_of_In, in_map_iff. by exists col.
Qed.

End SchemaProperties.

Section PlannerProperties.

Import Plan Matcher Planner.

Lemma fallback_mapping_shape (target_schema : TargetSchema) (source_col : string)
      (m : ColumnMapping) :
  In m (fallback_mapping target_schema source_col) ->
  fallback_mapping target_schema source_col = [m]
  /\ action m = Direct /\ Plan.source_col m = source_col
  /\ exists target, In target (columns target_schema)
                    /\ target_col m = name target
                    /\ names_match source_col target = true.
Proof.
  unfold fallback_mapping.
  destruct (find _ _) as [target |] eqn:E; [| intros []].
  intros [<- | []]. apply find_some in E as [Hin Hm].
  repeat split. by exists target.
Qed.

(** X18: the plan the planner falls back to when the AI call fails.  Its
    confidence is 0.3, below the 0.5 under which the orchestrator leaves
    the plan aside.  Every mapping is [direct], from a source column to a
    target column whose name or alias equals the source name once
    lower-cased and stripped of underscores (and, for the source name, of
    blanks); a source column is mapped to one target at most, and the
    mappings follow the order of the source columns. *)
Theorem fallback_plan_shape (source_schema : Orchestrator.SourceSchemaAnalysis)
        (target_schema : TargetSchema) :
  let plan := _create_fallback_plan source_schema target_schema in
  (confidence_score plan < 1 # 2)%Q
  /\ plan_warnings plan = ["AI planning failed - using basic name matching"]
  /\ (forall m, In m (column_mappings plan) ->
        action m = Direct
        /\ In (source_col m) (Orchestrator.sa_columns source_schema)
        /\ exists target, In target (columns target_schema)
                          /\ target_col m = name target
                          /\ names_match (source_col m) target = true)
  /\ sublist (map source_col (column_mappings plan))
             (Orchestrator.sa_columns source_schema).
Proof.
  cbn [_create_fallback_plan confidence_score plan_warnings column_mappings].
  split; [reflexivity |]. split; [reflexivity |]. split.
  - intros m Hm. apply in_flat_map in Hm as (source & Hs & Hm).
    apply fallback_mapping_shape in Hm as (_ & Ha & <- & Ht). by repeat split.
  - induction (Orchestrator.sa_columns source_schema) as [| c cs IH];
      cbn [flat_map]; [constructor |].
    rewrite List.map_app. unfold fallback_mapping at 1.
    destruct (find _ _); cbn [map app Plan.source_col].
    + by apply sublist_skip.
    + by apply sublist_cons.
Qed.

End PlannerProperties.

(** *** Orchestrator *)

Section OrchestratorExtras.

Import Registry Plan Orchestrator.

Ltac run_stage :=
  unfold bindM, ret, ask, emit, now, enter, tick, failed, fallback_failed in *;
  simpl in *.

Ltac split_inner :=
  match goal with
  | |- context [match ?x with _ => _ end] =>
      lazymatch x with
      | context [match _ with _ => _ end] => fail
      | _ => destruct x eqn:?
      end
  end.

Variable env : Env.

Lemma detect_ends (job : TransformationJob) :
  stage_ends_in [DETECTING_TABLES; SELECTING_TABLE; FAILED]
                (_stage_detect_tables env job) (job_id job).
Proof.
  intros w. unfold _stage_detect_tables. run_stage.
  repeat (split_inner; run_stage); repeat split; simpl; tauto.
Qed.

Lemma analyze_ends (job : TransformationJob) :
  stage_ends_in [ANALYZING; FAILED] (_stage_analyze env job) (job_id job).
Proof.
  intros w. unfold _stage_analyze, analyze_file. run_stage.
  repeat (split_inner; run_stage); repeat split; simpl; tauto.
Qed.

Lemma plan_ends (job : TransformationJob) :
  stage_ends_in [PLANNING; WAITING_FOR_INPUT; FAILED] (_stage_plan env job) (job_id job).
Proof.
  intros w. unfold _stage_plan. run_stage.
  repeat (split_inner; run_stage); repeat split; simpl; tauto.
Qed.

Lemma execute_attempts_ends (remaining : nat) (job : TransformationJob) :
  stage_ends_in [EXECUTING; FAILED] (execute_attempts env remaining job) (job_id job).
Proof.
  revert job. induction remaining as [| n IH]; intros job w.
  - simpl. run_stage. repeat (split_inner; run_stage); repeat split; simpl; tauto.
  - cbn [execute_attempts]. run_stage.
    repeat (split_inner; run_stage); try (repeat split; simpl; tauto);
      match goal with
      | |- context [execute_attempts env n ?j ?w'] =>
          destruct (IH j w') as (H1 & H2 & H3); simpl in *;
          rewrite H1, H2; repeat split; auto
      end.
Qed.

Lemma execute_ends (job : TransformationJob) :
  stage_ends_in [EXECUTING; FAILED] (_stage_execute env job) (job_id job).
Proof. apply execute_attempts_ends. Qed.

Lemma validate_ends (job : TransformationJob) :
  stage_ends_in [COMPLETED; FAILED] (_stage_validate_and_output env job) (job_id job).
Proof.
  intros w. unfold _stage_validate_and_output. run_stage.
  repeat (split_inner; run_stage); repeat split; simpl; tauto.
Qed.

Lemma fallback_ends (job : TransformationJob) :
  stage_ends_in [COMPLETED; FAILED] (_stage_fallback_execution env job) (job_id job).
Proof.
  intros w. unfold _stage_fallback_execution. run_stage.
  repeat (split_inner; run_stage); repeat split; simpl; tauto.
Qed.

Lemma has_status_true (s : JobStatus) (job : TransformationJob) :
  has_status s job = true -> status job = s.
Proof. unfold has_status. apply bool_decide_eq_true. Qed.

Lemma has_status_false (s : JobStatus) (job : TransformationJob) :
  has_status s job = false -> status job <> s.
Proof. unfold has_status. apply bool_decide_eq_false. Qed.

Lemma save_job_stores (job : TransformationJob) (w : World) :
  let r := _save_job job w in
  job_id (fst r) = job_id job
  /\ status (fst r) = status job
  /\ jobs (snd r) = <[job_id job := to_dict (fst r)]> (jobs w).
Proof. unfold _save_job. run_stage. repeat split. Qed.

Lemma run_from_analysis_outcome (job : TransformationJob) (w : World) :
  run_outcome job w (run_from_analysis env job w).
Proof.
  unfold run_from_analysis, bindM, run_outcome.
  pose proof (analyze_ends job w) as H1.
  destruct (_stage_analyze env job w) as [j1 w1]. cbn [fst snd] in H1.
  destruct H1 as (Hs1 & Hi1 & Hst1).
  destruct (has_status FAILED j1) eqn:F1.
  { apply has_status_true in F1. unfold ret. cbn [fst snd].
    rewrite F1. unfold resting. simpl. tauto. }
  pose proof (plan_ends j1 w1) as H2.
  destruct (_stage_plan env j1 w1) as [j2 w2]. cbn [fst snd] in H2.
  destruct H2 as (Hs2 & Hi2 & Hst2).
  destruct (has_status WAITING_FOR_INPUT j2) eqn:W2.
  { apply has_status_true in W2. unfold ret. cbn [fst snd].
    rewrite W2. unfold resting. simpl. split; [congruence |]. split; [tauto |].
    left. congruence. }
  assert (Hfb : forall j w',
             job_id j = job_id job -> jobs w' = jobs w ->
             job_id (fst (_stage_fallback_execution env j w')) = job_id job
             /\ In (status (fst (_stage_fallback_execution env j w'))) resting
             /\ (jobs (snd (_stage_fallback_execution env j w')) = jobs w
                 \/ (terminal (fst (_stage_fallback_execution env j w'))
                     /\ jobs (snd (_stage_fallback_execution env j w'))
                        = <[job_id job := to_dict (fst (_stage_fallback_execution env j w'))]>
                            (jobs w)))).
  { intros j w' Hj Hw'. destruct (fallback_ends j w') as (Ha & Hb & Hc).
    split; [congruence |]. split; [| left; congruence].
    unfold resting. simpl in *. tauto. }
  destruct (has_status FAILED j2) eqn:F2; [apply Hfb; congruence |].
  destruct (low_confidence j2); [apply Hfb; congruence |].
  pose proof (execute_ends j2 w2) as H3.
  destruct (_stage_execute env j2 w2) as [j3 w3]. cbn [fst snd] in H3.
  destruct H3 as (Hs3 & Hi3 & Hst3).
  destruct (has_status FAILED j3) eqn:F3; [apply Hfb; congruence |].
  pose proof (validate_ends j3 w3) as H4.
  destruct (_stage_validate_and_output env j3 w3) as [j4 w4]. cbn [fst snd] in H4.
  destruct H4 as (Hs4 & Hi4 & Hst4).
  destruct (save_job_stores j4 w4) as (Hi5 & Hst5 & Hs5).
  split; [congruence |]. split.
  - rewrite Hst5. unfold resting. simpl in *. tauto.
  - right. split.
    + unfold terminal. rewrite Hst5. simpl in Hst4.
      destruct Hst4 as [<- | [<- | []]]; auto.
    + rewrite Hs5. congruence.
Qed.

Lemma run_job_outcome (job : TransformationJob) (w : World) :
  run_outcome job w (run_job env job w).
Proof.
  unfold run_job. destruct (multi_table_analysis job);
    [apply run_from_analysis_outcome |].
  unfold bindM.
  pose proof (detect_ends job w) as H0.
  destruct (_stage_detect_tables env job w) as [j0 w0]. cbn [fst snd] in H0.
  destruct H0 as (Hs0 & Hi0 & Hst0).
  destruct (has_status FAILED j0) eqn:F0.
  { apply has_status_true in F0. unfold ret, run_outcome. cbn [fst snd].
    rewrite F0. unfold resting. simpl. tauto. }
  destruct (has_status SELECTING_TABLE j0) eqn:S0.
  { apply has_status_true in S0. unfold ret, run_outcome. cbn [fst snd].
    rewrite S0. unfold resting. simpl. tauto. }
  destruct (run_from_analysis_outcome j0 w0) as (Ha & Hb & Hc).
  unfold run_outcome. rewrite <- Hi0, <- Hs0. tauto.
Qed.

(** X19: [run_job] writes to the job store at most once, under the id of
    the job, and what it writes is the job it returns, in status COMPLETED
    or FAILED; no waiting or intermediate status is ever stored, and no
    other job is touched. *)
Theorem run_job_stores_only_terminal_jobs (job : TransformationJob) (w : World) :
  let r := run_job env job w in
  jobs (snd r) = jobs w
  \/ (terminal (fst r)
      /\ jobs (snd r) = <[job_id job := to_dict (fst r)]> (jobs w)).
Proof. apply run_job_outcome. Qed.

(** X20: [run_job] hands the job back under the id it came with and in one
    of four statuses: SELECTING_TABLE, WAITING_FOR_INPUT, COMPLETED or
    FAILED; a job never comes back in the status of a stage that is
    still running. *)
Theorem run_job_returns_resting_job (job : TransformationJob) (w : World) :
  let r := run_job env job w in
  job_id (fst r) = job_id job /\ In (status (fst r)) resting.
Proof. split; apply run_job_outcome. Qed.

(** X21: a job that [create_job] has made is read back by [get_job] exactly
    as [create_job] returned it, in status PENDING; the jobs stored under
    other ids are left as they were. *)
Theorem create_job_then_get_job (source_file target_schema_name : string) (w : World) :
  let r := create_job env source_file target_schema_name w in
  get_job (job_id (fst r)) (snd r) = Some (fst r)
  /\ status (fst r) = PENDING
  /\ forall id, id <> job_id (fst r) -> jobs (snd r) !! id = jobs w !! id.
Proof.
  unfold create_job, _save_job, get_job. run_stage.
  rewrite lookup_insert_eq. repeat split.
  intros id Hid. by rewrite lookup_insert_ne.
Qed.

(** X22: a job waiting for a table selection cannot be resumed once it has
    been saved and loaded back: the detected tables are not part of the
    snapshot, and [select_table] fails the loaded job whatever the
    selection, without running a stage. *)
Theorem select_table_after_reload (job : TransformationJob) (w : World)
        (selection : string) :
  status job = SELECTING_TABLE ->
  let saved := _save_job job w in
  exists loaded,
    get_job (job_id job) (snd saved) = Some loaded
    /\ select_table env loaded selection (snd saved)
       = (failed "No tables detected for selection" loaded, snd saved).
Proof.
  intros Hst saved.
  destruct (from_dict_to_dict (set_updated_at (clock w) job))
    as (loaded & Hget & Hres & Hsel).
  exists loaded. split.
  - unfold saved, _save_job, get_job. run_stage.
    rewrite lookup_insert_eq. exact Hget.
  - destruct Hsel as (_ & Hmulti & _).
    destruct Hres as (_ & _ & _ & Hstatus & _). simpl in Hstatus.
    unfold select_table, has_status.
    rewrite Hstatus, Hst, Hmulti. reflexivity.
Qed.


Lemma attempts_app (a b : list Event) : attempts (a ++ b) = attempts a + attempts b.
Proof. unfold attempts. by rewrite List.filter_app, length_app. Qed.

Lemma execute_attempts_counted (remaining : nat) (job : TransformationJob) (w : World) :
  let r := execute_attempts env remaining job w in
  exists evs retries,
    trace (snd r) = trace w ++ evs
    /\ attempts evs = S retries
    /\ retry_count (fst r) = retry_count job + retries
    /\ max_retries (fst r) = max_retries job
    /\ retries <= remaining
    /\ (status (fst r) = FAILED -> retries = remaining).
Proof.
  revert job w. induction remaining as [| n IH]; intros job w.
  - simpl. run_stage.
    repeat (split_inner; run_stage);
      (eexists _, 0; split; [rewrite <- ?app_assoc; simpl; reflexivity |];
       split; [reflexivity |];
       repeat split; simpl; try lia; try discriminate).
  - cbn [execute_attempts]. run_stage.
    repeat (split_inner; run_stage);
      try (eexists _, 0; split; [rewrite <- ?app_assoc; simpl; reflexivity |];
           split; [reflexivity |];
           repeat split; simpl; try lia; discriminate);
      match goal with
      | |- context [execute_attempts env n ?j ?w'] =>
          destruct (IH j w') as (evs & k & Ht & Ha & Hr & Hm & Hk & Hf);
          simpl in Ht, Hr, Hm;
          eexists _, (S k); rewrite Ht, Hr, Hm;
          split; [rewrite <- ?app_assoc; simpl; reflexivity |];
          unfold attempts in Ha |- *; simpl; rewrite Ha;
          repeat split; simpl; try lia;
          intros Hfail; apply Hf in Hfail; lia
      end.
Qed.

(** X24: the retry budget is the job's, not the run's.  [_stage_execute]
    enters the EXECUTING stage once and then once more for every retry
    it records in [retry_count]; it never retries more than
    [max_retries - retry_count] times, and it reports FAILED only after
    exactly that many retries. *)
Theorem execute_retries_are_bounded (job : TransformationJob) (w : World) :
  let r := _stage_execute env job (fresh_trace w) in
  let retries := retry_count (fst r) - retry_count job in
  attempts (trace (snd r)) = S retries
  /\ retry_count job <= retry_count (fst r)
  /\ retries <= max_retries job - retry_count job
  /\ (status (fst r) = FAILED -> retries = max_retries job - retry_count job).
Proof.
  unfold _stage_execute.
  destruct (execute_attempts_counted (max_retries job - retry_count job) job
                                     (fresh_trace w))
    as (evs & k & Ht & Ha & Hr & _ & Hk & Hf).
  cbv zeta. simpl in Ht. rewrite Ht, Hr, Ha.
  replace (retry_count job + k - retry_count job) with k by lia.
  repeat split; try lia. exact Hf.
Qed.

Lemma detect_ignores_answers : ignores_answers (_stage_detect_tables env).
Proof.
  intros answers job w. destruct job. unfold _stage_detect_tables. run_stage.
  repeat (split_inner; run_stage); reflexivity.
Qed.

Lemma analyze_ignores_answers : ignores_answers (_stage_analyze env).
Proof.
  intros answers job w. destruct job. unfold _stage_analyze, analyze_file. run_stage.
  repeat (split_inner; run_stage); reflexivity.
Qed.

Lemma plan_ignores_answers : ignores_answers (_stage_plan env).
Proof.
  intros answers job w. destruct job. unfold _stage_plan. run_stage.
  repeat (split_inner; run_stage); reflexivity.
Qed.

Lemma execute_attempts_ignores_answers (remaining : nat) :
  ignores_answers (execute_attempts env remaining).
Proof.
  induction remaining as [| n IH]; intros answers job w; destruct job.
  - simpl. run_stage. repeat (split_inner; run_stage); reflexivity.
  - cbn [execute_attempts]. run_stage.
    repeat (split_inner; run_stage); try reflexivity;
      match goal with
      | |- _ = (set_user_answers _ (fst (execute_attempts env n ?j ?w')), _) =>
          exact (IH answers j w')
      end.
Qed.

Lemma execute_ignores_answers : ignores_answers (_stage_execute env).
Proof.
  intros answers job w. unfold _stage_execute.
  rewrite <- (execute_attempts_ignores_answers _ answers job w).
  destruct job; reflexivity.
Qed.

Lemma validate_ignores_answers : ignores_answers (_stage_validate_and_output env).
Proof.
  intros answers job w. destruct job. unfold _stage_validate_and_output. run_stage.
  repeat (split_inner; run_stage); reflexivity.
Qed.

Lemma fallback_ignores_answers : ignores_answers (_stage_fallback_execution env).
Proof.
  intros answers job w. destruct job.
  unfold _stage_fallback_execution, script_path, expected_output. run_stage.
  repeat (split_inner; run_stage); reflexivity.
Qed.

Lemma has_status_set_user_answers (s : JobStatus) (answers : list (string * string))
      (job : TransformationJob) :
  has_status s (set_user_answers answers job) = has_status s job.
Proof. reflexivity. Qed.

Lemma same_but_answers_here (answers : list (string * string))
      (job : TransformationJob) (w : World) :
  same_but_answers answers (job, w) (set_user_answers answers job, w).
Proof. by repeat split. Qed.

Lemma save_job_same_but_answers (answers : list (string * string))
      (job : TransformationJob) (w : World) :
  same_but_answers answers (_save_job job w)
                   (_save_job (set_user_answers answers job) w).
Proof.
  unfold _save_job, same_but_answers. run_stage.
  split; [by destruct job |]. split; [reflexivity |]. split; [reflexivity |].
  rewrite !fmap_insert. reflexivity.
Qed.

Lemma run_from_analysis_ignores_answers (answers : list (string * string))
      (job : TransformationJob) (w : World) :
  same_but_answers answers (run_from_analysis env job w)
                   (run_from_analysis env (set_user_answers answers job) w).
Proof.
  unfold run_from_analysis, bindM.
  rewrite analyze_ignores_answers.
  destruct (_stage_analyze env job w) as [j1 w1]. cbn [fst snd].
  rewrite has_status_set_user_answers.
  destruct (has_status FAILED j1); [apply same_but_answers_here |].
  rewrite plan_ignores_answers.
  destruct (_stage_plan env j1 w1) as [j2 w2]. cbn [fst snd].
  rewrite !has_status_set_user_answers.
  destruct (has_status WAITING_FOR_INPUT j2); [apply same_but_answers_here |].
  assert (Hfb : forall j w',
             same_but_answers answers (_stage_fallback_execution env j w')
               (_stage_fallback_execution env (set_user_answers answers j) w')).
  { intros j w'. rewrite fallback_ignores_answers.
    destruct (_stage_fallback_execution env j w'). apply same_but_answers_here. }
  destruct (has_status FAILED j2); [apply Hfb |].
  change (low_confidence (set_user_answers answers j2)) with (low_confidence j2).
  destruct (low_confidence j2); [apply Hfb |].
  rewrite execute_ignores_answers.
  destruct (_stage_execute env j2 w2) as [j3 w3]. cbn [fst snd].
  rewrite has_status_set_user_answers.
  destruct (has_status FAILED j3); [apply Hfb |].
  rewrite validate_ignores_answers.
  destruct (_stage_validate_and_output env j3 w3) as [j4 w4]. cbn [fst snd].
  apply save_job_same_but_answers.
Qed.

(** X25: the answers a user has given are never read by the pipeline.
    Running a job with other answers gives the same job, answers apart:
    the same calls to the collaborators at the same times, the same
    stages, the same plan, status and output, and the same store but for
    the answers in the snapshot. *)
Theorem run_job_ignores_user_answers (answers : list (string * string))
        (job : TransformationJob) (w : World) :
  same_but_answers answers (run_job env job w)
                   (run_job env (set_user_answers answers job) w).
Proof.
  unfold run_job.
  change (multi_table_analysis (set_user_answers answers job))
    with (multi_table_analysis job).
  destruct (multi_table_analysis job);
    [apply run_from_analysis_ignores_answers |].
  unfold bindM. rewrite detect_ignores_answers.
  destruct (_stage_detect_tables env job w) as [j0 w0]. cbn [fst snd].
  rewrite !has_status_set_user_answers.
  destruct (has_status FAILED j0); [apply same_but_answers_here |].
  destruct (has_status SELECTING_TABLE j0); [apply same_but_answers_here |].
  apply run_from_analysis_ignores_answers.
Qed.

End OrchestratorExtras.

Section OrchestratorWitnesses.

Import Registry Plan Orchestrator.

Lemma select_table_after_reload_witness :
  let job := set_status SELECTING_TABLE selected_job in
  let env := scripted (Ok one_table) (Ok good_plan) (Ok (0%Z, "", "")) true in
  status job = SELECTING_TABLE
  /\ exists loaded,
       get_job (job_id job) (snd (_save_job job empty_world)) = Some loaded
       /\ select_table env loaded "1" (snd (_save_job job empty_world))
          = (failed "No tables detected for selection" loaded,
             snd (_save_job job empty_world)).
Proof.
  intros job env0.
  assert (H : status job = SELECTING_TABLE) by reflexivity.
  split; [exact H |].
  exact (select_table_after_reload env0 job empty_world "1" H).
Defined.


End OrchestratorWitnesses.

(** *** Validation Agent *)

Section ValidationProperties.

Import Registry Validation.

Variable L : PyLib.
Variable V : ValidateLib.

Ltac entries :=
  repeat (apply List.Forall_cons; [simpl; repeat split; auto |]); apply List.Forall_nil.

Ltac settle :=
  intros H; injection H as <- <-; (split; [entries | reflexivity]).

Lemma check_type_about (idx : nat) (column_name data_type value_str : string)
      (errs : list ValidationError) (ok : bool) :
  check_type V idx column_name data_type value_str = Ok (errs, ok) ->
  about idx column_name errs /\ count_errors errs = (if ok then 0 else 1).
Proof.
  unfold check_type, about, count_errors.
  destruct (String.eqb data_type "email").
  { destruct (negb (_validate_email value_str)); settle. }
  destruct (String.eqb data_type "phone").
  { destruct (negb (_validate_phone value_str)); settle. }
  destruct (String.eqb data_type "integer" || String.eqb data_type "float").
  { destruct (_validate_numeric V value_str data_type) as [[|] | e]; cbn [bind negb];
      [settle | settle | discriminate]. }
  destruct (String.eqb data_type "date").
  { destruct (negb (_validate_date V value_str)); settle. }
  settle.
Qed.

Lemma check_pattern_about (idx : nat) (column_name value_str : string)
      (pattern : option string) (is_valid : bool)
      (errs : list ValidationError) (ok : bool) :
  check_pattern V idx column_name value_str pattern is_valid = Ok (errs, ok) ->
  about idx column_name errs
  /\ (if is_valid then count_errors errs = (if ok then 0 else 1)
      else errs = [] /\ ok = false).
Proof.
  unfold check_pattern, about, count_errors.
  destruct (Engine.truthy pattern) as [pat |].
  - destruct is_valid.
    + destruct (re_match V pat value_str) as [[|] | e]; cbn [bind negb];
        [settle | settle | discriminate].
    + intros H; injection H as <- <-. repeat split. constructor.
  - destruct is_valid; intros H; injection H as <- <-; repeat split; constructor.
Qed.

Lemma check_allowed_about (idx : nat) (column_name value_str : string)
      (allowed_values : option (list string)) (is_valid : bool) :
  let r := check_allowed V idx column_name value_str allowed_values is_valid in
  about idx column_name (fst r)
  /\ (if is_valid then count_errors (fst r) = (if snd r then 0 else 1)
      else fst r = [] /\ snd r = false).
Proof.
  unfold check_allowed, about, count_errors.
  destruct (Engine.truthy_list allowed_values) as [allowed |].
  - destruct is_valid; cbn [andb].
    + destruct (negb (Engine.mem value_str allowed)); cbn [fst snd];
        (split; [entries | reflexivity]).
    + cbn [fst snd]. repeat split. constructor.
  - destruct is_valid; cbn [fst snd]; repeat split; constructor.
Qed.

Lemma count_errors_app (a b : list ValidationError) :
  count_errors (a ++ b) = count_errors a + count_errors b.
Proof. unfold count_errors. by rewrite List.filter_app, length_app. Qed.

Lemma about_app (idx : nat) (column_name : string) (a b : list ValidationError) :
  about idx column_name a -> about idx column_name b -> about idx column_name (a ++ b).
Proof. unfold about. intros. by apply Forall_app. Qed.

(** What one turn of the loop adds. *)
Lemma check_value_adds (column_name data_type : string) (pattern : option string)
      (required : bool) (allowed_values : option (list string))
      (acc acc' : Tally) (idx : nat) (value : Value) :
  check_value L V column_name data_type pattern required allowed_values acc idx value
  = Ok acc' ->
  exists new (ok : bool),
    t_errors acc' = t_errors acc ++ new
    /\ about idx column_name new
    /\ count_errors new = (if ok then 0 else 1)
    /\ t_valid acc' = t_valid acc + (if ok then 1 else 0)
    /\ t_invalid acc' = t_invalid acc + (if ok then 0 else 1)
    /\ t_null acc <= t_null acc' <= S (t_null acc).
Proof.
  unfold check_value. destruct (is_null L value).
  - destruct required; intros H; injection H as <-; cbn [t_errors t_valid t_invalid t_null].
    + eexists _, false. split; [reflexivity |].
      split; [entries |]. repeat split; lia.
    + exists [], true. rewrite app_nil_r. split; [reflexivity |].
      split; [constructor |]. repeat split; lia.
  - set (value_str := PyStr.strip (py_str L value)).
    destruct (check_type V idx column_name data_type value_str)
      as [[errs1 ok1] | e] eqn:H1; cbn [bind]; [| discriminate].
    apply check_type_about in H1 as [Ha1 Hc1].
    destruct (check_pattern V idx column_name value_str pattern ok1)
      as [[errs2 ok2] | e] eqn:H2; cbn [bind]; [| discriminate].
    apply check_pattern_about in H2 as [Ha2 Hc2].
    pose proof (check_allowed_about idx column_name value_str allowed_values ok2)
      as [Ha3 Hc3].
    destruct (check_allowed V idx column_name value_str allowed_values ok2)
      as [errs3 ok3]. cbn [fst snd] in Ha3, Hc3.
    assert (Hcount : count_errors (errs1 ++ errs2 ++ errs3) = (if ok3 then 0 else 1)).
    { rewrite !count_errors_app. destruct ok1.
      - destruct ok2.
        + rewrite Hc1, Hc2, Hc3. reflexivity.
        + destruct Hc3 as [-> ->]. rewrite Hc1, Hc2. reflexivity.
      - destruct Hc2 as [-> ->]. destruct Hc3 as [-> ->]. rewrite Hc1. reflexivity. }
    assert (Habout : about idx column_name (errs1 ++ errs2 ++ errs3))
      by auto using about_app.
    destruct ok3; intros H; injection H as <-;
      cbn [t_errors t_valid t_invalid t_null].
    + exists (errs1 ++ errs2 ++ errs3), true. repeat split; auto; lia.
    + exists (errs1 ++ errs2 ++ errs3), false. repeat split; auto; lia.
Qed.

Lemma rows_with_app (s : string) (a b : list ValidationError) :
  rows_with s (a ++ b) = rows_with s a ∪ rows_with s b.
Proof.
  unfold rows_with. rewrite List.filter_app, List.map_app. apply list_to_set_app_L.
Qed.

Lemma rows_with_about (idx : nat) (column_name : string)
      (new : list ValidationError) :
  about idx column_name new ->
  rows_with "error" new = if (count_errors new =? 0)%nat then ∅ else {[idx]}.
Proof.
  unfold about, rows_with, count_errors.
  induction new as [| e new IH]; intros H; [reflexivity |].
  apply Forall_cons in H as [(Hrow & _) Hrest]. specialize (IH Hrest).
  cbn [List.filter]. destruct (String.eqb (severity e) "error"); [| exact IH].
  cbn [map length list_to_set Nat.eqb]. rewrite IH, Hrow.
  destruct (_ =? 0)%nat; [apply union_empty_r_L | apply union_idemp_L].
Qed.

Lemma rows_with_bounds (lo hi : nat) (s : string) (errors : list ValidationError) :
  Forall (fun e => lo <= row_index e < hi) errors ->
  forall i, i ∈ rows_with s errors -> lo <= i < hi.
Proof.
  intros H i Hi. unfold rows_with in Hi.
  apply elem_of_list_to_set, list_elem_of_In, in_map_iff in Hi as (e & <- & He).
  apply filter_In in He as [He _].
  rewrite List.Forall_forall in H. by apply H.
Qed.

(** What the loop over the series adds. *)
Lemma check_values_adds (column_name data_type : string) (pattern : option string)
      (required : bool) (allowed_values : option (list string))
      (series : list Value) (acc acc' : Tally) (idx : nat) :
  check_values L V column_name data_type pattern required allowed_values acc idx series
  = Ok acc' ->
  exists new,
    t_errors acc' = t_errors acc ++ new
    /\ Forall (fun e => idx <= row_index e < idx + length series
                        /\ column_of e = column_name) new
    /\ t_valid acc' + t_invalid acc' = t_valid acc + t_invalid acc + length series
    /\ t_invalid acc' = t_invalid acc + count_errors new
    /\ t_null acc <= t_null acc' <= t_null acc + length series
    /\ size (rows_with "error" new) = count_errors new.
Proof.
  revert acc idx. induction series as [| value rest IH]; intros acc idx.
  - cbn [check_values]. intros H. injection H as <-. exists [].
    rewrite app_nil_r. split; [reflexivity |]. split; [apply List.Forall_nil |].
    unfold count_errors, rows_with. cbn [List.filter length map list_to_set].
    rewrite size_empty. repeat split; lia.
  - cbn [check_values].
    destruct (check_value L V column_name data_type pattern required allowed_values
                          acc idx value) as [acc1 | e] eqn:H1; cbn [bind];
      [| discriminate].
    intros H2.
    apply check_value_adds in H1
      as (new1 & ok & He1 & Ha1 & Hc1 & Hv1 & Hi1 & Hn1).
    apply IH in H2 as (new2 & He2 & Hr2 & Hs2 & Hi2 & Hn2 & Hz2).
    exists (new1 ++ new2). cbn [length].
    split; [by rewrite He2, He1, app_assoc |].
    split.
    { apply Forall_app. split.
      - unfold about in Ha1. eapply List.Forall_impl; [| exact Ha1].
        intros e (-> & Hcol & _). split; [lia | exact Hcol].
      - eapply List.Forall_impl; [| exact Hr2].
        intros e (Hrow & Hcol). split; [lia | exact Hcol]. }
    rewrite count_errors_app.
    split; [destruct ok; lia |]. split; [lia |]. split; [lia |].
    rewrite rows_with_app, (rows_with_about idx column_name new1 Ha1).
    assert (Hfresh : idx ∉ rows_with "error" new2).
    { intros Hin. apply (rows_with_bounds (S idx) (S idx + length rest)) in Hin; [lia |].
      eapply List.Forall_impl; [| exact Hr2]. intros e (Hrow & _). lia. }
    destruct (count_errors new1 =? 0)%nat eqn:E.
    + apply Nat.eqb_eq in E. rewrite E, union_empty_l_L. exact Hz2.
    + assert (Hone : count_errors new1 = 1) by (destruct ok; [rewrite Hc1 in E; discriminate E | exact Hc1]).
      rewrite size_union by (by apply disjoint_singleton_l).
      rewrite size_singleton, Hz2, Hone. reflexivity.
Qed.


(** X26: [_validate_column] counts every cell once: as valid or as
    invalid.  The invalid cells are the rows for which it reports an
    entry of severity "error", one entry for each; every entry names the
    column and a row of the series. *)
Theorem validate_column_counts (series : list Value) (column_name data_type : string)
        (pattern : option string) (required : bool)
        (allowed_values : option (list string))
        (errs : list ValidationError) (cv : ColumnValidation) :
  _validate_column L V series column_name data_type pattern required allowed_values
  = Ok (errs, cv) ->
  valid_count cv + invalid_count cv = length series
  /\ null_count cv <= length series
  /\ invalid_count cv = count_errors errs
  /\ invalid_count cv = size (rows_with "error" errs)
  /\ Forall (fun e => row_index e < length series /\ column_of e = column_name) errs.
Proof.
  unfold _validate_column.
  destruct (check_values L V column_name data_type pattern required allowed_values
                         (mkTally [] 0 0 0) 0 series) as [tally | e] eqn:H;
    cbn [bind]; [| discriminate].
  intros Hr. injection Hr as <- <-.
  apply check_values_adds in H as (new & He & Hrows & Hsum & Hinv & Hnull & Hsize).
  cbn [t_errors t_valid t_invalid t_null app] in *. subst new.
  cbn [valid_count invalid_count null_count].
  split; [lia |]. split; [lia |]. split; [lia |]. split; [lia |].
  eapply List.Forall_impl; [| exact Hrows].
  intros e (Hrow & Hcol). split; [lia | exact Hcol].
Qed.







Lemma check_values_warnings (column_name data_type : string) (required : bool)
      (series : list Value) (acc : Tally) (idx : nat) :
  data_type = "phone" \/ data_type = "date" ->
  exists acc',
    check_values L V column_name data_type None required None acc idx series = Ok acc'
    /\ t_null acc <= t_null acc'
    /\ t_invalid acc'
       = t_invalid acc + (if required then t_null acc' - t_null acc else 0).
Proof.
  intros Htype. revert acc idx.
  induction series as [| value rest IH]; intros acc idx.
  - exists acc. cbn [check_values]. repeat split; [lia | destruct required; lia].
  - cbn [check_values].
    assert (Hstep : exists acc1,
               check_value L V column_name data_type None required None acc idx value
               = Ok acc1
               /\ t_null acc <= t_null acc1
               /\ t_invalid acc1
                  = t_invalid acc + (if required then t_null acc1 - t_null acc else 0)).
    { unfold check_value, check_type, check_pattern, check_allowed.
      destruct (is_null L value).
      - destruct required; eexists; (split; [reflexivity |]);
          cbn [t_null t_invalid]; split; lia.
      - destruct Htype as [-> | ->]; cbn [String.eqb Ascii.eqb Bool.eqb orb];
          match goal with
          | |- context [if negb ?b then _ else _] => destruct b
          end; cbn [negb bind Engine.truthy Engine.truthy_list];
          eexists; (split; [reflexivity |]); cbn [t_null t_invalid];
          (split; [lia | destruct required; lia]). }
    destruct Hstep as (acc1 & -> & Hn1 & Hi1). cbn [bind].
    destruct (IH acc1 (S idx)) as (acc' & -> & Hn2 & Hi2).
    exists acc'. split; [reflexivity |]. split; [lia |].
    destruct required; lia.
Qed.

(** X29: a malformed phone number or date is never an invalid cell.  In a
    phone or date column without pattern and without allowed values,
    [_validate_column] does not raise, and counts as invalid only the
    empty cells of a required column. *)
Theorem phone_and_date_issues_are_warnings (series : list Value)
        (column_name data_type : string) (required : bool) :
  data_type = "phone" \/ data_type = "date" ->
  exists errs cv,
    _validate_column L V series column_name data_type None required None
    = Ok (errs, cv)
    /\ invalid_count cv = (if required then null_count cv else 0)
    /\ count_errors errs = invalid_count cv.
Proof.
  intros Htype. unfold _validate_column.
  destruct (check_values_warnings column_name data_type required series
                                  (mkTally [] 0 0 0) 0 Htype)
    as (tally & Hrun & Hn & Hi).
  rewrite Hrun. cbn [bind]. eexists _, _. split; [reflexivity |].
  cbn [invalid_count null_count t_null t_invalid] in *.
  split; [destruct required; lia |].
  apply check_values_adds in Hrun as (new & He & _ & _ & Hinv & _).
  cbn [t_errors t_invalid app] in *. subst new. lia.
Qed.

End ValidationProperties.

Section ValidationWitnesses.

Import Registry Validation.

Lemma validate_column_counts_witness :
  let series := [VStr "ann@example.com"; VStr "not an address"; VStr " "] in
  exists errs cv,
    _validate_column no_library lenient series "email" "email" None true None
    = Ok (errs, cv)
    /\ valid_count cv + invalid_count cv = length series
    /\ null_count cv <= length series
    /\ invalid_count cv = count_errors errs
    /\ invalid_count cv = size (rows_with "error" errs)
    /\ Forall (fun e => row_index e < length series /\ column_of e = "email") errs.
Proof.
  intros series. eexists _, _.
  assert (H : _validate_column no_library lenient series "email" "email" None true None
              = Ok (_, _)) by (vm_compute; reflexivity).
  split; [exact H |].
  exact (validate_column_counts no_library lenient series "email" "email" None true
                                None _ _ H).
Defined.



Lemma phone_and_date_issues_are_warnings_witness :
  ("phone" = "phone" \/ "phone" = "date")
  /\ exists errs cv,
       _validate_column no_library lenient [VStr "12"; VStr ""] "mobile" "phone"
                        None false None
       = Ok (errs, cv)
       /\ invalid_count cv = 0 /\ count_errors errs = invalid_count cv.
Proof.
  assert (H : "phone" = "phone" \/ "phone" = "date") by (left; reflexivity).
  split; [exact H |].
  exact (phone_and_date_issues_are_warnings no_library lenient
           [VStr "12"; VStr ""] "mobile" "phone" false H).
Defined.

End ValidationWitnesses.
